(** * NanoMolEditor: the molecular-structure editor, embedded and verified

    The development follows the editor component of the repository
    (the file that starts with the [NanoMolEditor] doc block): vector
    helpers, atom labels, the SMILES generator, the history stack, the
    pointer and wheel handlers, the prop synchronisation effect and the
    bond geometry.

    Conventions of the embedding.
    - A JavaScript [number] that carries a coordinate, a length, an angle
      or a scale is a real number ([R]): the arithmetic of the source is
      read as exact arithmetic, so rounding, [NaN] and the infinities of
      binary64 are outside this model.  What is proved over it about
      the handlers is what they do with the results of the numeric
      helpers and of the hit tests; where a statement is about the
      numbers themselves or about the atom that a draw gesture locks
      on (the zoom, the candidate of a draw gesture, a drag between two
      atoms), the module [B64] embeds the same code over binary64 and
      the statement says which arithmetic it is about.  A [number] that
      the source types as an integer (a bond order, a history index) is
      a [Z].
    - A plain object used as a map from ids is an association list of
      its own properties; ids that name a property inherited from
      [Object.prototype] are outside this model.
    - Strings are [string]; the subscript glyphs are the byte sequences
      of their UTF-8 encoding.
    - React state is passed explicitly: a handler reads the state of the
      render it was created in and returns the state after its updates.
      [Math.random] is an argument of the handler that draws an id.
    - The [onChange] notification is an output towards the host and feeds
      nothing back into the component; it is not part of the state.
    - The SMILES generator walks the graph recursively; its recursion
      is bounded by a fuel that is proved to suffice.
    - Of the JSX only the transform of the drawing group is read.  Of
      the quiz component that hosts the editor, the handler of the
      option buttons and the check of an answer are embedded. *)

From Stdlib Require Import Floats.
From Stdlib Require Import Reals Lra Lia ZArith List String Ascii Bool DecimalString.
From Stdlib Require Import DecimalZ DecimalPos Permutation.
Import ListNotations.

Set Warnings "-inexact-float".

Local Open Scope R_scope.

(** ** Numbers *)

(** [a < b] and [a === b] on numbers, as booleans. *)
Definition num_lt (a b : R) : bool := if Rlt_dec a b then true else false.
Definition num_eq (a b : R) : bool := if Req_dec_T a b then true else false.

(** [Math.atan2(y, x)], the angle of the point [(x, y)] in (-PI, PI]. *)
Definition Math_atan2 (y x : R) : R :=
  if Rlt_dec 0 x then atan (y / x)
  else if Rlt_dec x 0 then
    (if Rlt_dec y 0 then atan (y / x) - PI else atan (y / x) + PI)
  else if Rlt_dec 0 y then PI / 2
  else if Rlt_dec y 0 then - (PI / 2)
  else 0.

(** [Math.round]: the nearest integer, halves rounded up. *)
Definition Math_round (v : R) : R := IZR (Zfloor (v + / 2)).

(** [Math.tan].  It has no error outcome: at [PI / 2], where the
    tangent has its pole, the engines return 16331239353195370, the
    tangent of the binary64 number next to [PI / 2]. *)
Definition Math_tan (a : R) : R :=
  if Req_dec_T a (PI / 2) then 16331239353195370 else tan a.

(** ** Data model *)

Record Vec2 := mkVec { vx : R; vy : R }.

(** [AtomData]; the fields [id], [x], [y], [element]. *)
Record AtomData := mkAtom {
  a_id : string;
  a_x : R;
  a_y : R;
  a_element : string
}.

(** [BondData]; the fields [id], [source], [target], [type]. *)
Record BondData := mkBond {
  b_id : string;
  b_source : string;
  b_target : string;
  b_type : Z
}.

Record HistoryState := mkHist {
  h_atoms : list AtomData;
  h_bonds : list BondData
}.

Record View := mkView { view_x : R; view_y : R; view_k : R }.

Inductive ToolType := select | draw | erase.

Definition tool_eqb (t1 t2 : ToolType) : bool :=
  match t1, t2 with
  | select, select | draw, draw | erase, erase => true
  | _, _ => false
  end.

(** An atom read as a point (the source passes atoms where [{x, y}] is
    expected). *)
Definition pos (a : AtomData) : Vec2 := mkVec (a_x a) (a_y a).

Definition BOND_SNAP_DIST : R := 20.

Definition VALENCE : list (string * Z) :=
  [("C", 4); ("N", 3); ("O", 2); ("H", 1); ("S", 2);
   ("Cl", 1); ("F", 1); ("P", 5); ("Br", 1); ("I", 1)]%string%Z.

(** ** Vector helpers *)

Module vec.

Definition add (v1 v2 : Vec2) : Vec2 := mkVec (vx v1 + vx v2) (vy v1 + vy v2).
Definition sub (v1 v2 : Vec2) : Vec2 := mkVec (vx v1 - vx v2) (vy v1 - vy v2).
Definition scale (v : Vec2) (s : R) : Vec2 := mkVec (vx v * s) (vy v * s).
Definition len (v : Vec2) : R := sqrt (vx v * vx v + vy v * vy v).

Definition norm (v : Vec2) : Vec2 :=
  let l := sqrt (vx v * vx v + vy v * vy v) in
  if Req_dec_T l 0 then mkVec 0 0 else mkVec (vx v / l) (vy v / l).

Definition dot (v1 v2 : Vec2) : R := vx v1 * vx v2 + vy v1 * vy v2.
Definition cross (v1 v2 : Vec2) : R := vx v1 * vy v2 - vy v1 * vx v2.

(** Angle between [v1] and [v2] (0 to PI). *)
Definition angle (v1 v2 : Vec2) : R :=
  acos (Rmax (-1) (Rmin 1 (dot (norm v1) (norm v2)))).

End vec.

Definition distance (a b : Vec2) : R := vec.len (vec.sub a b).

(** ** Labels *)

Definition subscriptGlyph (c : ascii) : string :=
  match c with
  | "0"%char => "₀" | "1"%char => "₁" | "2"%char => "₂" | "3"%char => "₃"
  | "4"%char => "₄" | "5"%char => "₅" | "6"%char => "₆" | "7"%char => "₇"
  | "8"%char => "₈" | "9"%char => "₉"
  | _ => String c EmptyString
  end%string.

Fixpoint mapJoin (f : ascii -> string) (s : string) : string :=
  match s with
  | EmptyString => EmptyString
  | String c r => (f c ++ mapJoin f r)%string
  end.

(** [String(num).split('').map(n => map[n] || n).join('')]. *)
Definition toSubscript (num : Z) : string :=
  mapJoin subscriptGlyph (NilZero.string_of_int (Z.to_int num)).

(** [VALENCE[el] || 0]. *)
Definition valenceOf (el : string) : Z :=
  match find (fun kv => String.eqb (fst kv) el) VALENCE with
  | Some kv => snd kv
  | None => 0%Z
  end.

Definition incident (atomId : string) (b : BondData) : bool :=
  String.eqb (b_source b) atomId || String.eqb (b_target b) atomId.

(** The first lines of [getAtomLabel]: [connectedBonds], [currentValence],
    [maxValence] and [implicitH]. *)
Definition connectedBonds (atom : AtomData) (bonds : list BondData) : list BondData :=
  filter (incident (a_id atom)) bonds.

Definition currentValence (atom : AtomData) (bonds : list BondData) : Z :=
  fold_left (fun sum b => (sum + b_type b)%Z) (connectedBonds atom bonds) 0%Z.

Definition implicitH (atom : AtomData) (bonds : list BondData) : Z :=
  Z.max 0 (valenceOf (a_element atom) - currentValence atom bonds).

(** [getAtomLabel]; [None] is the [null] of a skeletal carbon. *)
Definition getAtomLabel (atom : AtomData) (bonds : list BondData) : option string :=
  let implicitH := implicitH atom bonds in
  if String.eqb (a_element atom) "C" then
    match connectedBonds atom bonds with
    | [] => Some ("CH" ++ toSubscript 4)%string
    | _ => None
    end
  else
    let label := a_element atom in
    let labelH :=
      if (0 <? implicitH)%Z then
        ((if String.eqb (a_element atom) "H" then toSubscript 2 else "H")
         ++ (if (1 <? implicitH)%Z then toSubscript implicitH else EmptyString))%string
      else EmptyString in
    if (currentValence atom bonds =? 0)%Z
       && negb (String.eqb (a_element atom) "N")
       && negb (String.eqb (a_element atom) "H")
    then Some (labelH ++ label)%string
    else Some (label ++ labelH)%string.

(** ** Angle snapping *)

Definition snapToAngle (x1 y1 x2 y2 : R) : Vec2 :=
  let angle := Math_atan2 (y2 - y1) (x2 - x1) in
  let snap := PI / 6 in
  let snappedAngle := Math_round (angle / snap) * snap in
  let standardLen := 40 * 1.5 in
  mkVec (x1 + cos snappedAngle * standardLen)
        (y1 + sin snappedAngle * standardLen).

(** ** Component state *)

(** [dragStart]: the anchor of a gesture, an atom id and a world position. *)
Record DragStart := mkDrag { d_id : string; d_x : R; d_y : R }.

Definition dragPos (d : DragStart) : Vec2 := mkVec (d_x d) (d_y d).

(** The [useState] cells of the component. *)
Record Editor := mkEditor {
  atoms : list AtomData;
  bonds : list BondData;
  view : View;
  history : list HistoryState;
  historyIndex : Z;
  tool : ToolType;
  activeElement : string;
  dragStart : option DragStart;
  pointerPos : option Vec2;
  hoveredAtom : option string;
  isDragging : bool;
  snapTargetId : option string;
  isPanning : bool;
  panStart : option Vec2
}.

(** What a handler sees around the state: the [isReadOnly] prop and the
    left/top corner of the bounding rectangle of [svgRef.current]
    ([None] while the ref is not attached). *)
Record Env := mkEnv { isReadOnly : bool; svgRect : option Vec2 }.

(** The state of a freshly mounted component. *)
Definition initialEditor : Editor :=
  mkEditor [] [] (mkView 0 0 1) [mkHist [] []] 0%Z draw "C"%string
           None None None false None false None.

Definition setAtoms (v : list AtomData) (st : Editor) : Editor :=
  mkEditor v (bonds st) (view st) (history st) (historyIndex st) (tool st)
    (activeElement st) (dragStart st) (pointerPos st) (hoveredAtom st)
    (isDragging st) (snapTargetId st) (isPanning st) (panStart st).
Definition setBonds (v : list BondData) (st : Editor) : Editor :=
  mkEditor (atoms st) v (view st) (history st) (historyIndex st) (tool st)
    (activeElement st) (dragStart st) (pointerPos st) (hoveredAtom st)
    (isDragging st) (snapTargetId st) (isPanning st) (panStart st).
Definition setView (v : View) (st : Editor) : Editor :=
  mkEditor (atoms st) (bonds st) v (history st) (historyIndex st) (tool st)
    (activeElement st) (dragStart st) (pointerPos st) (hoveredAtom st)
    (isDragging st) (snapTargetId st) (isPanning st) (panStart st).
Definition setHistory (v : list HistoryState) (st : Editor) : Editor :=
  mkEditor (atoms st) (bonds st) (view st) v (historyIndex st) (tool st)
    (activeElement st) (dragStart st) (pointerPos st) (hoveredAtom st)
    (isDragging st) (snapTargetId st) (isPanning st) (panStart st).
Definition setHistoryIndex (v : Z) (st : Editor) : Editor :=
  mkEditor (atoms st) (bonds st) (view st) (history st) v (tool st)
    (activeElement st) (dragStart st) (pointerPos st) (hoveredAtom st)
    (isDragging st) (snapTargetId st) (isPanning st) (panStart st).
Definition setTool (v : ToolType) (st : Editor) : Editor :=
  mkEditor (atoms st) (bonds st) (view st) (history st) (historyIndex st) v
    (activeElement st) (dragStart st) (pointerPos st) (hoveredAtom st)
    (isDragging st) (snapTargetId st) (isPanning st) (panStart st).
Definition setActiveElement (v : string) (st : Editor) : Editor :=
  mkEditor (atoms st) (bonds st) (view st) (history st) (historyIndex st) (tool st)
    v (dragStart st) (pointerPos st) (hoveredAtom st)
    (isDragging st) (snapTargetId st) (isPanning st) (panStart st).
Definition setDragStart (v : option DragStart) (st : Editor) : Editor :=
  mkEditor (atoms st) (bonds st) (view st) (history st) (historyIndex st) (tool st)
    (activeElement st) v (pointerPos st) (hoveredAtom st)
    (isDragging st) (snapTargetId st) (isPanning st) (panStart st).
Definition setPointerPos (v : option Vec2) (st : Editor) : Editor :=
  mkEditor (atoms st) (bonds st) (view st) (history st) (historyIndex st) (tool st)
    (activeElement st) (dragStart st) v (hoveredAtom st)
    (isDragging st) (snapTargetId st) (isPanning st) (panStart st).
Definition setHoveredAtom (v : option string) (st : Editor) : Editor :=
  mkEditor (atoms st) (bonds st) (view st) (history st) (historyIndex st) (tool st)
    (activeElement st) (dragStart st) (pointerPos st) v
    (isDragging st) (snapTargetId st) (isPanning st) (panStart st).
Definition setIsDragging (v : bool) (st : Editor) : Editor :=
  mkEditor (atoms st) (bonds st) (view st) (history st) (historyIndex st) (tool st)
    (activeElement st) (dragStart st) (pointerPos st) (hoveredAtom st)
    v (snapTargetId st) (isPanning st) (panStart st).
Definition setSnapTargetId (v : option string) (st : Editor) : Editor :=
  mkEditor (atoms st) (bonds st) (view st) (history st) (historyIndex st) (tool st)
    (activeElement st) (dragStart st) (pointerPos st) (hoveredAtom st)
    (isDragging st) v (isPanning st) (panStart st).
Definition setIsPanning (v : bool) (st : Editor) : Editor :=
  mkEditor (atoms st) (bonds st) (view st) (history st) (historyIndex st) (tool st)
    (activeElement st) (dragStart st) (pointerPos st) (hoveredAtom st)
    (isDragging st) (snapTargetId st) v (panStart st).
Definition setPanStart (v : option Vec2) (st : Editor) : Editor :=
  mkEditor (atoms st) (bonds st) (view st) (history st) (historyIndex st) (tool st)
    (activeElement st) (dragStart st) (pointerPos st) (hoveredAtom st)
    (isDragging st) (snapTargetId st) (isPanning st) v.

(** Updates are written in the order of the source:
    [st |> setA a |> setB b]. *)
Notation "st |> f" := (f st) (at level 45, left associativity, only parsing).

(** ** History *)

(** [arr[i]] for an integer index: [None] is [undefined]. *)
Definition at_index {A} (l : list A) (i : Z) : option A :=
  if (i <? 0)%Z then None else nth_error l (Z.to_nat i).

(** [arr.slice(0, e)] for an integer [e]; a negative [e] counts from the
    end. *)
Definition slice0 {A} (l : list A) (e : Z) : list A :=
  let n := Z.of_nat (List.length l) in
  let k := if (e <? 0)%Z then Z.max (n + e) 0 else Z.min e n in
  firstn (Z.to_nat k) l.

(** What running a handler body gives: the next state, or an uncaught
    [TypeError] (a property read on [undefined]). *)
Inductive outcome := Done (st : Editor) | TypeError.

Definition commitToHistory (newAtoms : list AtomData) (newBonds : list BondData)
  (st : Editor) : Editor :=
  let newHistory := slice0 (history st) (historyIndex st + 1) ++ [mkHist newAtoms newBonds] in
  st |> setHistory newHistory
     |> setHistoryIndex (Z.of_nat (List.length newHistory) - 1)
     |> setAtoms newAtoms
     |> setBonds newBonds.

Definition undo (st : Editor) : outcome :=
  if (0 <? historyIndex st)%Z then
    match at_index (history st) (historyIndex st - 1) with
    | Some prev =>
        Done (st |> setAtoms (h_atoms prev) |> setBonds (h_bonds prev)
                 |> setHistoryIndex (historyIndex st - 1))
    | None => TypeError
    end
  else Done st.

Definition redo (st : Editor) : outcome :=
  if (historyIndex st <? Z.of_nat (List.length (history st)) - 1)%Z then
    match at_index (history st) (historyIndex st + 1) with
    | Some next =>
        Done (st |> setAtoms (h_atoms next) |> setBonds (h_bonds next)
                 |> setHistoryIndex (historyIndex st + 1))
    | None => TypeError
    end
  else Done st.

Definition handleSetTool (t : ToolType) (st : Editor) : Editor :=
  st |> setTool t.

Definition handleSetElement (el : string) (st : Editor) : Editor :=
  st |> setActiveElement el |> setTool draw.

(** [addAtom]; [id] is the string drawn from [Math.random]. *)
Definition addAtom (id : string) (x y : R) (element : string) : AtomData :=
  mkAtom id x y element.

Definition clearCanvas (env : Env) (st : Editor) : Editor :=
  if isReadOnly env then st else commitToHistory [] [] st.

(** ** Coordinate systems and events *)

(** The fields of a pointer event that the handlers read. *)
Record PointerEvent := mkPointer { clientX : R; clientY : R }.

Record WheelEvent := mkWheel { w_clientX : R; w_clientY : R; deltaY : R }.

(** [getPointerCoords]: screen (mouse) coordinates to world (data)
    coordinates. *)
Definition getPointerCoords (env : Env) (st : Editor) (cx cy : R) : Vec2 :=
  match svgRect env with
  | None => mkVec 0 0
  | Some rect =>
      let relX := cx - vx rect in
      let relY := cy - vy rect in
      mkVec ((relX - view_x (view st)) / view_k (view st))
            ((relY - view_y (view st)) / view_k (view st))
  end.

(** ** Handlers *)

Definition handleWheel (env : Env) (st : Editor) (e : WheelEvent) : Editor :=
  if isReadOnly env then st else
  let scaleFactor := 1 - deltaY e * 0.001 in
  let newK := Rmax 0.1 (Rmin 5 (view_k (view st) * scaleFactor)) in
  match svgRect env with
  | None => st
  | Some rect =>
      let mouseX := w_clientX e - vx rect in
      let mouseY := w_clientY e - vy rect in
      let worldX := (mouseX - view_x (view st)) / view_k (view st) in
      let worldY := (mouseY - view_y (view st)) / view_k (view st) in
      let newX := mouseX - worldX * newK in
      let newY := mouseY - worldY * newK in
      st |> setView (mkView newX newY newK)
  end.

Definition hasId (i : string) (a : AtomData) : bool := String.eqb (a_id a) i.

(** The hit test of a bond in [handlePointerDown]: the distance from the
    pointer to the segment, clamped to the segment. *)
Definition bondHit (ats : list AtomData) (x y : R) (b : BondData) : bool :=
  match find (hasId (b_source b)) ats, find (hasId (b_target b)) ats with
  | Some s, Some t =>
      let A := x - a_x s in let B := y - a_y s in
      let C := a_x t - a_x s in let D := a_y t - a_y s in
      let dot := A * C + B * D in
      let lenSq := C * C + D * D in
      let param := if Req_dec_T lenSq 0 then -1 else dot / lenSq in
      let xx := if Rlt_dec param 0 then a_x s
                else if Rlt_dec 1 param then a_x t else a_x s + param * C in
      let yy := if Rlt_dec param 0 then a_y s
                else if Rlt_dec 1 param then a_y t else a_y s + param * D in
      num_lt (sqrt ((x - xx) * (x - xx) + (y - yy) * (y - yy))) 8
  | _, _ => false
  end.

(** The order after [t] in the cycle 1, 2, 3, 1. *)
Definition nextType (t : Z) : Z :=
  if (t =? 1)%Z then 2%Z else if (t =? 2)%Z then 3%Z else 1%Z.

Definition withType (b : BondData) (t : Z) : BondData :=
  mkBond (b_id b) (b_source b) (b_target b) t.

Definition isSome {A} (o : option A) : bool :=
  match o with Some _ => true | None => false end.

(** [handlePointerDown]; [rid] is the id drawn by [addAtom]. *)
Definition handlePointerDown (env : Env) (st : Editor) (e : PointerEvent)
  (rid : string) : Editor :=
  if isReadOnly env then st else
  let p := getPointerCoords env st (clientX e) (clientY e) in
  let clickedAtom := find (fun a => num_lt (distance (pos a) p) 15) (atoms st) in
  let clickedBond :=
    match clickedAtom with
    | None => find (bondHit (atoms st) (vx p) (vy p)) (bonds st)
    | Some _ => None
    end in
  if negb (tool_eqb (tool st) draw) && negb (isSome clickedAtom) && negb (isSome clickedBond)
  then st |> setIsPanning true |> setPanStart (Some (mkVec (clientX e) (clientY e)))
  else
  match tool st with
  | erase =>
      match clickedAtom, clickedBond with
      | Some ca, _ =>
          let newAtoms := filter (fun a => negb (String.eqb (a_id a) (a_id ca))) (atoms st) in
          let newBonds := filter (fun b => negb (String.eqb (b_source b) (a_id ca))
                                           && negb (String.eqb (b_target b) (a_id ca))) (bonds st) in
          commitToHistory newAtoms newBonds st
      | None, Some cb =>
          let newBonds := filter (fun b => negb (String.eqb (b_id b) (b_id cb))) (bonds st) in
          commitToHistory (atoms st) newBonds st
      | None, None => st
      end
  | select =>
      (match clickedAtom with
       | Some ca => st |> setDragStart (Some (mkDrag (a_id ca) (a_x ca) (a_y ca)))
                       |> setIsDragging true
       | None => st
       end) |> setPointerPos (Some p)
  | draw =>
      (match clickedAtom, clickedBond with
       | Some ca, _ => st |> setDragStart (Some (mkDrag (a_id ca) (a_x ca) (a_y ca)))
       | None, Some cb =>
           let newBonds := map (fun b => if String.eqb (b_id b) (b_id cb)
                                         then withType b (nextType (b_type b)) else b) (bonds st) in
           commitToHistory (atoms st) newBonds st
       | None, None =>
           let atom := addAtom rid (vx p) (vy p) (activeElement st) in
           st |> setAtoms (atoms st ++ [atom])
              |> setDragStart (Some (mkDrag rid (vx p) (vy p)))
       end) |> setIsDragging true |> setPointerPos (Some p)
  end.

Definition handlePointerMove (env : Env) (st : Editor) (e : PointerEvent) : Editor :=
  if isReadOnly env then st else
  match isPanning st, panStart st with
  | true, Some ps =>
      let dx := clientX e - vx ps in
      let dy := clientY e - vy ps in
      st |> setView (mkView (view_x (view st) + dx) (view_y (view st) + dy) (view_k (view st)))
         |> setPanStart (Some (mkVec (clientX e) (clientY e)))
  | _, _ =>
      let coords := getPointerCoords env st (clientX e) (clientY e) in
      match tool st, isDragging st, dragStart st with
      | select, true, Some ds =>
          st |> setAtoms (map (fun a => if String.eqb (a_id a) (d_id ds)
                                        then mkAtom (a_id a) (vx coords) (vy coords) (a_element a)
                                        else a) (atoms st))
             |> setPointerPos (Some coords)
      | draw, true, Some ds =>
          (* 1. the snapped angle position *)
          let snappedPos := snapToAngle (d_x ds) (d_y ds) (vx coords) (vy coords) in
          (* 2. an existing atom close to the snapped position or to the cursor *)
          let snapTarget :=
            find (fun a => negb (String.eqb (a_id a) (d_id ds))
                           && (num_lt (distance (pos a) coords) BOND_SNAP_DIST
                               || num_lt (distance (pos a) snappedPos) BOND_SNAP_DIST))
                 (atoms st) in
          match snapTarget with
          | Some a => st |> setPointerPos (Some (mkVec (a_x a) (a_y a)))
                         |> setSnapTargetId (Some (a_id a))
          | None => st |> setPointerPos (Some snappedPos) |> setSnapTargetId None
          end
      | draw, _, _ =>
          let hovered := find (fun a => num_lt (distance (pos a) coords) 15) (atoms st) in
          st |> setHoveredAtom (option_map a_id hovered)
      | _, _, _ => st
      end
  end.

(** A string or [null] used as a condition: [null] and the empty string
    are falsy. *)
Definition truthy (o : option string) : option string :=
  match o with
  | Some s => if String.eqb s EmptyString then None else Some s
  | None => None
  end.

(** [arr.findIndex(f)]; [None] stands for [-1]. *)
Fixpoint findIndex {A} (f : A -> bool) (l : list A) : option nat :=
  match l with
  | [] => None
  | a :: r => if f a then Some O else option_map S (findIndex f r)
  end.

(** [arr[i] = v] on a copy, for [i] inside the array. *)
Fixpoint setAt {A} (l : list A) (i : nat) (v : A) : list A :=
  match l, i with
  | [], _ => []
  | _ :: r, O => v :: r
  | a :: r, S j => a :: setAt r j v
  end.

(** The test of [handlePointerUp] for a bond between the two atoms, in
    either orientation. *)
Definition joins (i j : string) (b : BondData) : bool :=
  (String.eqb (b_source b) i && String.eqb (b_target b) j)
  || (String.eqb (b_source b) j && String.eqb (b_target b) i).

(** The drag branch of [handlePointerUp]: the atoms and bonds it commits.
    [rid] is the id drawn by [addAtom], [bid] the id drawn for a new bond. *)
Definition dragResult (st : Editor) (ds : DragStart) (pp : Vec2) (rid bid : string)
  : list AtomData * list BondData :=
  let '(targetId, newAtoms) :=
    match truthy (snapTargetId st) with
    | Some t => (t, atoms st)
    | None => (rid, atoms st ++ [addAtom rid (vx pp) (vy pp) (activeElement st)])
    end in
  if negb (String.eqb targetId EmptyString) && negb (String.eqb targetId (d_id ds)) then
    match findIndex (joins (d_id ds) targetId) (bonds st) with
    | Some existingBondIndex =>
        (* bond exists: cycle its type *)
        match nth_error (bonds st) existingBondIndex with
        | Some b => (newAtoms, setAt (bonds st) existingBondIndex (withType b (nextType (b_type b))))
        | None => (newAtoms, bonds st)
        end
    | None =>
        (* new bond *)
        (newAtoms, bonds st ++ [mkBond bid (d_id ds) targetId 1%Z])
    end
  else
    (newAtoms, bonds st).

(** [handlePointerUp]; the handler reads no field of its event. *)
Definition handlePointerUp (env : Env) (st : Editor) (e : PointerEvent)
  (rid bid : string) : Editor :=
  if isReadOnly env then st else
  if isPanning st then st |> setIsPanning false |> setPanStart None
  else if tool_eqb (tool st) select && isDragging st then
    commitToHistory (atoms st) (bonds st) st |> setIsDragging false |> setDragStart None
  else
    (match tool st, isDragging st, dragStart st, pointerPos st with
     | draw, true, Some ds, Some pp =>
         let dist := distance (dragPos ds) pp in
         if num_lt dist 5 then
           (* click (short drag): change the element of the anchor *)
           match find (hasId (d_id ds)) (atoms st) with
           | Some targetAtom =>
               let newAtoms := map (fun a => if String.eqb (a_id a) (a_id targetAtom)
                                             then mkAtom (a_id a) (a_x a) (a_y a) (activeElement st)
                                             else a) (atoms st) in
               commitToHistory newAtoms (bonds st) st
           | None => st
           end
         else
           (* drag (create bond) *)
           let '(newAtoms, newBonds) := dragResult st ds pp rid bid in
           commitToHistory newAtoms newBonds st
     | _, _, _, _ => st
     end)
    |> setDragStart None |> setIsDragging false |> setHoveredAtom None
    |> setSnapTargetId None |> setPointerPos None.

(** ** Prop synchronisation *)

(** A field of the host's [value] that should hold an array: absent, some
    value that is not an array, or an array. *)
Inductive arrayField (A : Type) :=
| absent
| notArray
| isArray (l : list A).
Arguments absent {A}.
Arguments notArray {A}.
Arguments isArray {A} l.

(** [Partial<EditorState>] as the host passes it. *)
Record Value := mkValue {
  v_atoms : arrayField AtomData;
  v_bonds : arrayField BondData;
  v_history : option (list HistoryState);
  v_historyIndex : option Z;
  v_tool : option ToolType;
  v_activeElement : option string;
  v_view : option View
}.

(** The values that the effect hands to [JSON.stringify], key by key. *)
Inductive JsValue :=
| JsAtoms (l : list AtomData)
| JsBonds (l : list BondData)
| JsNumber (z : Z)
| JsTool (t : ToolType)
| JsString (s : string)
| JsView (v : View).

Definition JsObject := list (string * JsValue).

(** [a ?? b]. *)
Definition nullish {A} (a : option A) (b : A) : A :=
  match a with Some v => v | None => b end.

Definition adopt {A} (o : option A) (set : A -> Editor -> Editor) (st : Editor) : Editor :=
  match o with Some v => set v st | None => st end.

(** The object literal behind [currentJSON]. *)
Definition currentObject (st : Editor) : JsObject :=
  [("atoms", JsAtoms (atoms st)); ("bonds", JsBonds (bonds st));
   ("historyIndex", JsNumber (historyIndex st)); ("tool", JsTool (tool st));
   ("activeElement", JsString (activeElement st))]%string.

(** The object literal behind [newJSON]. *)
Definition newObject (value : Value) (vatoms : list AtomData) (vbonds : list BondData)
  (st : Editor) : JsObject :=
  [("atoms", JsAtoms vatoms); ("bonds", JsBonds vbonds);
   ("historyIndex", JsNumber (nullish (v_historyIndex value) (historyIndex st)));
   ("tool", JsTool (nullish (v_tool value) (tool st)));
   ("activeElement", JsString (nullish (v_activeElement value) (activeElement st)));
   ("view", JsView (nullish (v_view value) (view st)))]%string.

Section PropSync.

(** [JSON.stringify], a built-in of the host language. *)
Variable JSON_stringify : JsObject -> string.

(** The effect that runs when the [value] prop changes. *)
Definition propSync (value : option Value) (st : Editor) : Editor :=
  match value with
  | None => st
  | Some value =>
      (* validate structure *)
      match v_atoms value, v_bonds value with
      | isArray vatoms, isArray vbonds =>
          let currentJSON := JSON_stringify (currentObject st) in
          let newJSON := JSON_stringify (newObject value vatoms vbonds st) in
          if negb (String.eqb currentJSON newJSON) then
            st |> setAtoms vatoms
               |> setBonds vbonds
               |> adopt (v_history value) setHistory
               |> adopt (v_historyIndex value) setHistoryIndex
               |> adopt (v_tool value) setTool
               |> adopt (truthy (v_activeElement value)) setActiveElement
               |> adopt (v_view value) setView
          else st
      | _, _ => st
      end
  end.

End PropSync.

(** ** Bond rendering *)

(** What [getMinAngle] returns. *)
Record MinAngle := mkMinAngle {
  minRight : R;
  minLeft : R;
  existsRight : bool;
  existsLeft : bool
}.

(** A line segment of the drawing. *)
Record Line := mkLine { x1 : R; y1 : R; x2 : R; y2 : R }.

(** The vectors from [atomId] along its other bonds (the [neighbors] of
    [getMinAngle]); a bond whose far atom is not found gives the zero
    vector. *)
Definition neighborVectors (st : Editor) (atomId : string) (s t : AtomData)
  (b : BondData) : list Vec2 :=
  map (fun bond =>
         let otherId := if String.eqb (b_source bond) atomId
                        then b_target bond else b_source bond in
         let other := find (hasId otherId) (atoms st) in
         let myAtom := if String.eqb atomId (a_id s) then s else t in
         match other with
         | Some o => vec.sub (pos o) (pos myAtom)
         | None => mkVec 0 0
         end)
      (filter (fun bond => (String.eqb (b_source bond) atomId
                            || String.eqb (b_target bond) atomId)
                           && negb (String.eqb (b_id bond) (b_id b)))
              (bonds st)).

(** One round of the [forEach] of [getMinAngle]. *)
Definition minAngleStep (axis myAxis : Vec2) (acc : MinAngle) (nb : Vec2) : MinAngle :=
  let cross := vec.cross axis nb in
  let ang := vec.angle myAxis nb in
  if Rlt_dec 0 cross then
    mkMinAngle (if Rlt_dec ang (minRight acc) then ang else minRight acc)
               (minLeft acc) true (existsLeft acc)
  else
    mkMinAngle (minRight acc)
               (if Rlt_dec ang (minLeft acc) then ang else minLeft acc)
               (existsRight acc) true.

Definition getMinAngle (st : Editor) (atomId : string) (s t : AtomData)
  (b : BondData) (axis : Vec2) : MinAngle :=
  let neighbors := neighborVectors st atomId s t b in
  let myAxis := if String.eqb atomId (a_id s) then axis else vec.scale axis (-1) in
  fold_left (minAngleStep axis myAxis) neighbors (mkMinAngle 999 999 false false).

(** The offset line of a double or triple bond next to a carbon: shifted
    to the right or to the left of the axis and shortened at an end that
    has a neighbour on that side.  The source spells these statements out
    twice, in the branch of order 3 and in the branch of order 2. *)
Definition offsetLine (s t : AtomData) (n perp : Vec2) (len offset : R)
  (sAng tAng : MinAngle) (drawOnRight : bool) : Line :=
  let shift := if drawOnRight then offset else - offset in
  let shiftVec := mkVec (vx perp * shift) (vy perp * shift) in
  let p1 := mkVec (a_x s + vx shiftVec) (a_y s + vy shiftVec) in
  let p2 := mkVec (a_x t + vx shiftVec) (a_y t + vy shiftVec) in
  let sShorten := Rmin (len * 0.5)
    (offset * Math_tan (PI / 2 - Rmin (minRight sAng) (minLeft sAng) / 2)) in
  let tShorten := Rmin (len * 0.5)
    (offset * Math_tan (PI / 2 - Rmin (minRight tAng) (minLeft tAng) / 2)) in
  let sShortenVec := vec.scale n sShorten in
  let tShortenVec := vec.scale n tShorten in
  let p1 := if (if drawOnRight then existsRight sAng else existsLeft sAng)
            then vec.add p1 sShortenVec else p1 in
  let p2 := if (if drawOnRight then existsRight tAng else existsLeft tAng)
            then vec.sub p2 tShortenVec else p2 in
  mkLine (vx p1) (vy p1) (vx p2) (vy p2).

Definition isCarbon (a : AtomData) : bool := String.eqb (a_element a) "C".

(** [getBondCoords]; [None] is [null]. *)
Definition getBondCoords (st : Editor) (b : BondData) : option (list Line) :=
  match find (hasId (b_source b)) (atoms st), find (hasId (b_target b)) (atoms st) with
  | Some s, Some t =>
      let v := vec.sub (pos t) (pos s) in
      let len := vec.len v in
      let n := vec.norm v in
      let perp := mkVec (- vy n) (vx n) in
      let offset := 6 in
      let center := mkLine (a_x s) (a_y s) (a_x t) (a_y t) in
      if (b_type b =? 1)%Z then Some [center]
      else if (b_type b =? 3)%Z && negb (isCarbon s) && negb (isCarbon t) then
        Some [center;
              mkLine (a_x s + vx perp * offset) (a_y s + vy perp * offset)
                     (a_x t + vx perp * offset) (a_y t + vy perp * offset);
              mkLine (a_x s - vx perp * offset) (a_y s - vy perp * offset)
                     (a_x t - vx perp * offset) (a_y t - vy perp * offset)]
      else if (b_type b =? 3)%Z then
        let sAng := getMinAngle st (a_id s) s t b v in
        let tAng := getMinAngle st (a_id t) s t b v in
        Some (center :: map (offsetLine s t n perp len offset sAng tAng) [true; false])
      else if (b_type b =? 2)%Z && negb (isCarbon s) && negb (isCarbon t) then
        Some [mkLine (a_x s + vx perp * offset * 0.5) (a_y s + vy perp * offset * 0.5)
                     (a_x t + vx perp * offset * 0.5) (a_y t + vy perp * offset * 0.5);
              mkLine (a_x s - vx perp * offset * 0.5) (a_y s - vy perp * offset * 0.5)
                     (a_x t - vx perp * offset * 0.5) (a_y t - vy perp * offset * 0.5)]
      else if (b_type b =? 2)%Z then
        let sAng := getMinAngle st (a_id s) s t b v in
        let tAng := getMinAngle st (a_id t) s t b v in
        (* score: the sum of the minimal angles; a side without neighbour
           counts as PI; the lower score is preferred *)
        let scoreRight := (if existsRight sAng then minRight sAng else PI)
                          + (if existsRight tAng then minRight tAng else PI) in
        let scoreLeft := (if existsLeft sAng then minLeft sAng else PI)
                         + (if existsLeft tAng then minLeft tAng else PI) in
        let drawOnRight := num_lt scoreRight scoreLeft in
        Some [center; offsetLine s t n perp len offset sAng tAng drawOnRight]
      else None
  | _, _ => None
  end.

(** ** SMILES generator *)

(** An entry of an adjacency list: [{ neighborId, bondType }]. *)
Record Edge := mkEdge { neighborId : string; bondType : Z }.

(** A JavaScript object used as a map from strings: the newest binding
    of a key is the one that reads see.  (Own properties only: keys that
    name a property of [Object.prototype] are outside the model.) *)
Definition lookup {V} (k : string) (m : list (string * V)) : option V :=
  option_map snd (find (fun kv => String.eqb (fst kv) k) m).

Definition assign {V} (k : string) (v : V) (m : list (string * V)) : list (string * V) :=
  (k, v) :: m.

(** [adj[k]?.push(e)]. *)
Definition pushEdge (k : string) (e : Edge) (adj : list (string * list Edge))
  : list (string * list Edge) :=
  match lookup k adj with
  | Some l => assign k (l ++ [e]) adj
  | None => adj
  end.

(** The adjacency lists that [generateSmiles] builds: an empty list for
    every atom id, then the two directions of every bond. *)
Definition buildAdj (ats : list AtomData) (bds : list BondData) : list (string * list Edge) :=
  fold_left (fun adj b =>
               pushEdge (b_target b) (mkEdge (b_source b) (b_type b))
                 (pushEdge (b_source b) (mkEdge (b_target b) (b_type b)) adj))
            bds
            (fold_left (fun adj a => assign (a_id a) [] adj) ats []).

(** The mutable variables that the traversal shares: the [visited] set,
    the [rings] object and [ringCounter]. *)
Record SmilesState := mkSmiles {
  visited : list string;
  rings : list (string * Z);
  ringCounter : Z
}.

Definition has (i : string) (l : list string) : bool := existsb (String.eqb i) l.

(** [visited.add(i)]. *)
Definition visit (i : string) (sigma : SmilesState) : SmilesState :=
  mkSmiles (if has i (visited sigma) then visited sigma else i :: visited sigma)
           (rings sigma) (ringCounter sigma).

(** [if (!rings[i]) rings[i] = ringCounter++]. *)
Definition ringFor (i : string) (sigma : SmilesState) : SmilesState :=
  match lookup i (rings sigma) with
  | Some r => if (r =? 0)%Z
              then mkSmiles (visited sigma) (assign i (ringCounter sigma) (rings sigma))
                            (ringCounter sigma + 1)
              else sigma
  | None => mkSmiles (visited sigma) (assign i (ringCounter sigma) (rings sigma))
                     (ringCounter sigma + 1)
  end.

(** A number in a template string. *)
Definition numberText (z : Z) : string := NilZero.string_of_int (Z.to_int z).

(** [rings[i]] in a template string; [undefined] cannot occur after
    [ringFor]. *)
Definition ringText (i : string) (sigma : SmilesState) : string :=
  match lookup i (rings sigma) with
  | Some r => numberText r
  | None => "undefined"%string
  end.

Definition bondSymbol (t : Z) : string :=
  if (t =? 3)%Z then "#"%string else if (t =? 2)%Z then "="%string else EmptyString.

Definition optEqb (i : string) (o : option string) : bool :=
  match o with Some p => String.eqb i p | None => false end.

(** The [for] loop of [dfs] over the edges of the current atom; [rec] is
    the recursive call [dfs(edge.neighborId, currentId)]. *)
Fixpoint dfsLoop (rec : string -> SmilesState -> option (string * SmilesState))
  (parentId : option string) (edges : list Edge) (str : string)
  (branches : list string) (sigma : SmilesState)
  : option (string * list string * SmilesState) :=
  match edges with
  | [] => Some (str, branches, sigma)
  | edge :: rest =>
      if optEqb (neighborId edge) parentId then dfsLoop rec parentId rest str branches sigma
      else
        let sym := bondSymbol (bondType edge) in
        if has (neighborId edge) (visited sigma) then
          let sigma' := ringFor (neighborId edge) sigma in
          dfsLoop rec parentId rest
                  (str ++ sym ++ ringText (neighborId edge) sigma')%string branches sigma'
        else
          match rec (neighborId edge) sigma with
          | Some (s, sigma') =>
              dfsLoop rec parentId rest str (branches ++ [(sym ++ s)%string]) sigma'
          | None => None
          end
  end.

(** The end of [dfs]: every branch but the last in parentheses, then the
    last. *)
Definition joinBranches (str : string) (branches : list string) : string :=
  match rev branches with
  | [] => str
  | last :: others =>
      (str ++ String.concat EmptyString
                (map (fun b => "(" ++ b ++ ")") (rev others)) ++ last)%string
  end.

(** [dfs]; the recursion of the source is bounded by [fuel], [None] is a
    run that used it up. *)
Fixpoint dfs (fuel : nat) (ats : list AtomData) (adj : list (string * list Edge))
  (currentId : string) (parentId : option string) (sigma : SmilesState)
  : option (string * SmilesState) :=
  match fuel with
  | O => None
  | S fuel' =>
      let sigma1 := visit currentId sigma in
      match find (hasId currentId) ats with
      | None => Some (EmptyString, sigma1)
      | Some atom =>
          let neighbors := match lookup currentId adj with Some l => l | None => [] end in
          match dfsLoop (fun n s => dfs fuel' ats adj n (Some currentId) s)
                        parentId neighbors (a_element atom) [] sigma1 with
          | Some (str, branches, sigma2) => Some (joinBranches str branches, sigma2)
          | None => None
          end
      end
  end.

(** The [forEach] over the atoms at the end of [generateSmiles]. *)
Fixpoint smilesParts (fuel : nat) (all : list AtomData) (adj : list (string * list Edge))
  (todo : list AtomData) (parts : list string) (sigma : SmilesState)
  : option (list string) :=
  match todo with
  | [] => Some parts
  | atom :: rest =>
      if has (a_id atom) (visited sigma) then smilesParts fuel all adj rest parts sigma
      else
        match dfs fuel all adj (a_id atom) None sigma with
        | Some (s, sigma') => smilesParts fuel all adj rest (parts ++ [s]) sigma'
        | None => None
        end
  end.

(** [generateSmiles] with the depth of the recursion bounded by [fuel]. *)
Definition generateSmilesWithin (fuel : nat) (ats : list AtomData) (bds : list BondData)
  : option string :=
  match ats with
  | [] => Some EmptyString
  | _ =>
      option_map (String.concat ".")%string
        (smilesParts fuel ats (buildAdj ats bds) ats [] (mkSmiles [] [] 1))
  end.

(** [generateSmiles]: the depth of the recursion never exceeds the number
    of atom ids and bond ends, as proved below. *)
Definition generateSmiles (ats : list AtomData) (bds : list BondData) : string :=
  match generateSmilesWithin (S (List.length ats + 2 * List.length bds)) ats bds with
  | Some s => s
  | None => EmptyString
  end.

(** ** Quiz shell

    The quiz component that hosts the editor: the handler of the option
    buttons and the check of an answer. *)

(** [handleSelectionAnswer] on the stored options of one question:
    a stored option is taken out; a new one is appended, and the oldest
    is dropped ([shift]) when that makes more than [maxSelect]. *)
Definition toggleOption (current : list Z) (optionIdx maxSelect : Z) : list Z :=
  if existsb (Z.eqb optionIdx) current
  then filter (fun i => negb (i =? optionIdx)%Z) current
  else
    let next := current ++ [optionIdx] in
    if (maxSelect <? Z.of_nat (List.length next))%Z then tl next else next.

(** [handleSelectionAnswer]; [userAnswers] holds the arrays stored for
    the selection questions under the property names of their ids. *)
Definition handleSelectionAnswer (userAnswers : list (string * list Z))
  (qId : string) (optionIdx maxSelect : Z) : list (string * list Z) :=
  let current := match lookup qId userAnswers with Some c => c | None => [] end in
  assign qId (toggleOption current optionIdx maxSelect) userAnswers.

(** The answer stored for a structure question: the state that the
    editor reports, of which the check reads [atoms] and [bonds]. *)
Record Drawing := mkDrawing {
  s_atoms : option (list AtomData);
  s_bonds : list BondData
}.

(** The default [sort] of an array of numbers: by the strings of the
    elements, compared code unit by code unit; equal keys keep their
    order. *)
Fixpoint insertSorted (x : Z) (l : list Z) : list Z :=
  match l with
  | [] => [x]
  | y :: r => if String.ltb (numberText x) (numberText y) then x :: l
              else y :: insertSorted x r
  end.

Definition defaultSort (l : list Z) : list Z :=
  fold_left (fun acc x => insertSorted x acc) l [].

(** [arr.join(',')] on numbers. *)
Definition joinNumbers (l : list Z) : string :=
  String.concat "," (map numberText l).

(** A question together with the answer stored under its id: the
    handlers store an array of option indices for a selection question,
    the text of the input for a numeric one and the state of the editor
    for a structure one; [None] is [undefined]. *)
Inductive Submission :=
| SelectionSub (answers : list Z) (answer : option (list Z))
| NumericSub (correctValue tolerance : R) (answer : option string)
| StructureSub (targetFormula : list string) (answer : option Drawing).

Section CheckAnswer.

(** [parseFloat], a built-in of the host language; [None] is [NaN]. *)
Variable parseFloat : string -> option R.

Definition checkAnswer (sub : Submission) : bool :=
  match sub with
  | SelectionSub answers answer =>
      match answer with
      | None => false
      | Some a => String.eqb (joinNumbers (defaultSort a)) (joinNumbers (defaultSort answers))
      end
  | NumericSub correctValue tolerance answer =>
      match truthy answer with
      | None => false
      | Some text =>
          match parseFloat text with
          | None => false
          | Some val => if Rle_dec (Rabs (val - correctValue)) tolerance then true else false
          end
      end
  | StructureSub targetFormula answer =>
      match answer with
      | None => false
      | Some d =>
          match s_atoms d with
          | None | Some [] => false
          | Some ats => existsb (String.eqb (generateSmiles ats (s_bonds d))) targetFormula
          end
      end
  end.

End CheckAnswer.

(** The [targetFormula] of the structure question of the question
    store. *)
Definition question301 : list string :=
  ["CC(C)O"; "CCCO"; "C(CC)O"; "C(C)(C)O"]%string.

(** ** Events *)

(** What the user can do to the mounted component: the pointer and
    wheel events of the canvas and the buttons of the toolbar.  The ids
    that a handler draws from [Math.random] travel with the event. *)
Inductive Event :=
| PointerDown (e : PointerEvent) (rid : string)
| PointerMove (e : PointerEvent)
| PointerUp (e : PointerEvent) (rid bid : string)
| Wheel (e : WheelEvent)
| UndoClick
| RedoClick
| ClearClick
| ToolClick (t : ToolType)
| ElementClick (el : string).

(** A handler that throws leaves the state of the last render. *)
Definition settle (st : Editor) (o : outcome) : Editor :=
  match o with Done st' => st' | TypeError => st end.

(** The toolbar is rendered only when the editor is not read-only. *)
Definition step (env : Env) (st : Editor) (ev : Event) : Editor :=
  match ev with
  | PointerDown e rid => handlePointerDown env st e rid
  | PointerMove e => handlePointerMove env st e
  | PointerUp e rid bid => handlePointerUp env st e rid bid
  | Wheel e => handleWheel env st e
  | UndoClick => if isReadOnly env then st else settle st (undo st)
  | RedoClick => if isReadOnly env then st else settle st (redo st)
  | ClearClick => clearCanvas env st
  | ToolClick t => if isReadOnly env then st else handleSetTool t st
  | ElementClick el => if isReadOnly env then st else handleSetElement el st
  end.

(** The state after a sequence of events, each handled to completion
    before the next. *)
Definition run (env : Env) (st : Editor) (evs : list Event) : Editor :=
  fold_left (step env) evs st.

(** ** The view and the draw gesture in binary64

    The numbers of the source are binary64 floating-point numbers.  The
    definitions above read its arithmetic as exact; this module embeds
    the handler of the wheel, the pointer-move handler and the helpers
    they call once more, operation by operation, in the arithmetic of
    the source: [float] is binary64 with round-to-nearest, the
    infinities, the signed zeros and [NaN]; [<?] and [=?] are [<] and
    [===] on numbers. *)

Module B64.

Local Open Scope float_scope.

(** [Math.PI]. *)
Definition Math_PI : float := 3.141592653589793.

(** [Math.max(a, b)]: [NaN] when an argument is [NaN]; [+0] is larger
    than [-0]. *)
Definition Math_max (a b : float) : float :=
  if is_nan a || is_nan b then nan
  else if a <? b then b
  else if b <? a then a
  else if get_sign a then b else a.

(** [Math.min(a, b)]. *)
Definition Math_min (a b : float) : float :=
  if is_nan a || is_nan b then nan
  else if a <? b then a
  else if b <? a then b
  else if get_sign a then a else b.

(** [Math.round(x)]: the integer nearest to [x], halves rounded up;
    [-0] for [x] from [-0.5] up to [-0]; [x] itself when it is an
    integer, an infinity or [NaN].  A finite [x] is [num / den] with
    [den] a power of two, and the result is the floor of
    [(2 * num + den) / (2 * den)]. *)
Definition Math_round (x : float) : float :=
  match Prim2SF x with
  | S754_finite s m e =>
      if (0 <=? e)%Z then x
      else
        let num := if s then Z.neg m else Z.pos m in
        let den := Z.pow 2 (- e) in
        let r := Z.div (2 * num + den) (2 * den) in
        if (r =? 0)%Z then (if s then PrimFloat.neg_zero else PrimFloat.zero)
        else if (r <? 0)%Z then - of_uint63 (Uint63.of_Z (- r))
        else of_uint63 (Uint63.of_Z r)
  | _ => x
  end.

(** The functions of [Math] whose results the language leaves to the
    engine ("implementation-approximated"). *)
Record Engine := mkEngine {
  Math_atan2 : float -> float -> float;
  Math_cos : float -> float;
  Math_sin : float -> float
}.

Record Vec2 := mkVec { vx : float; vy : float }.

Record AtomData := mkAtom {
  a_id : string;
  a_x : float;
  a_y : float;
  a_element : string
}.

Record HistoryState := mkHist {
  h_atoms : list AtomData;
  h_bonds : list BondData
}.

Record View := mkView { view_x : float; view_y : float; view_k : float }.

Record DragStart := mkDrag { d_id : string; d_x : float; d_y : float }.

Definition pos (a : AtomData) : Vec2 := mkVec (a_x a) (a_y a).

Definition BOND_SNAP_DIST : float := 20.

Module vec.

Definition sub (v1 v2 : Vec2) : Vec2 := mkVec (vx v1 - vx v2) (vy v1 - vy v2).

(** [Math.sqrt] is the correctly rounded square root. *)
Definition len (v : Vec2) : float := PrimFloat.sqrt (vx v * vx v + vy v * vy v).

End vec.

Definition distance (a b : Vec2) : float := vec.len (vec.sub a b).

Definition snapToAngle (M : Engine) (x1 y1 x2 y2 : float) : Vec2 :=
  let angle := Math_atan2 M (y2 - y1) (x2 - x1) in
  let snap := Math_PI / 6 in
  let snappedAngle := Math_round (angle / snap) * snap in
  let standardLen := 40 * 1.5 in
  mkVec (x1 + Math_cos M snappedAngle * standardLen)
        (y1 + Math_sin M snappedAngle * standardLen).

(** The [useState] cells of the component. *)
Record Editor := mkEditor {
  atoms : list AtomData;
  bonds : list BondData;
  view : View;
  history : list HistoryState;
  historyIndex : Z;
  tool : ToolType;
  activeElement : string;
  dragStart : option DragStart;
  pointerPos : option Vec2;
  hoveredAtom : option string;
  isDragging : bool;
  snapTargetId : option string;
  isPanning : bool;
  panStart : option Vec2
}.

Record Env := mkEnv { isReadOnly : bool; svgRect : option Vec2 }.

Definition initialEditor : Editor :=
  mkEditor [] [] (mkView 0 0 1) [mkHist [] []] 0%Z draw "C"%string
           None None None false None false None.

Definition setAtoms (v : list AtomData) (st : Editor) : Editor :=
  mkEditor v (bonds st) (view st) (history st) (historyIndex st) (tool st)
    (activeElement st) (dragStart st) (pointerPos st) (hoveredAtom st)
    (isDragging st) (snapTargetId st) (isPanning st) (panStart st).
Definition setBonds (v : list BondData) (st : Editor) : Editor :=
  mkEditor (atoms st) v (view st) (history st) (historyIndex st) (tool st)
    (activeElement st) (dragStart st) (pointerPos st) (hoveredAtom st)
    (isDragging st) (snapTargetId st) (isPanning st) (panStart st).
Definition setView (v : View) (st : Editor) : Editor :=
  mkEditor (atoms st) (bonds st) v (history st) (historyIndex st) (tool st)
    (activeElement st) (dragStart st) (pointerPos st) (hoveredAtom st)
    (isDragging st) (snapTargetId st) (isPanning st) (panStart st).
Definition setHistory (v : list HistoryState) (st : Editor) : Editor :=
  mkEditor (atoms st) (bonds st) (view st) v (historyIndex st) (tool st)
    (activeElement st) (dragStart st) (pointerPos st) (hoveredAtom st)
    (isDragging st) (snapTargetId st) (isPanning st) (panStart st).
Definition setHistoryIndex (v : Z) (st : Editor) : Editor :=
  mkEditor (atoms st) (bonds st) (view st) (history st) v (tool st)
    (activeElement st) (dragStart st) (pointerPos st) (hoveredAtom st)
    (isDragging st) (snapTargetId st) (isPanning st) (panStart st).
Definition setIsPanning (v : bool) (st : Editor) : Editor :=
  mkEditor (atoms st) (bonds st) (view st) (history st) (historyIndex st) (tool st)
    (activeElement st) (dragStart st) (pointerPos st) (hoveredAtom st)
    (isDragging st) (snapTargetId st) v (panStart st).
Definition setDragStart (v : option DragStart) (st : Editor) : Editor :=
  mkEditor (atoms st) (bonds st) (view st) (history st) (historyIndex st) (tool st)
    (activeElement st) v (pointerPos st) (hoveredAtom st)
    (isDragging st) (snapTargetId st) (isPanning st) (panStart st).
Definition setPointerPos (v : option Vec2) (st : Editor) : Editor :=
  mkEditor (atoms st) (bonds st) (view st) (history st) (historyIndex st) (tool st)
    (activeElement st) (dragStart st) v (hoveredAtom st)
    (isDragging st) (snapTargetId st) (isPanning st) (panStart st).
Definition setHoveredAtom (v : option string) (st : Editor) : Editor :=
  mkEditor (atoms st) (bonds st) (view st) (history st) (historyIndex st) (tool st)
    (activeElement st) (dragStart st) (pointerPos st) v
    (isDragging st) (snapTargetId st) (isPanning st) (panStart st).
Definition setIsDragging (v : bool) (st : Editor) : Editor :=
  mkEditor (atoms st) (bonds st) (view st) (history st) (historyIndex st) (tool st)
    (activeElement st) (dragStart st) (pointerPos st) (hoveredAtom st)
    v (snapTargetId st) (isPanning st) (panStart st).
Definition setSnapTargetId (v : option string) (st : Editor) : Editor :=
  mkEditor (atoms st) (bonds st) (view st) (history st) (historyIndex st) (tool st)
    (activeElement st) (dragStart st) (pointerPos st) (hoveredAtom st)
    (isDragging st) v (isPanning st) (panStart st).
Definition setPanStart (v : option Vec2) (st : Editor) : Editor :=
  mkEditor (atoms st) (bonds st) (view st) (history st) (historyIndex st) (tool st)
    (activeElement st) (dragStart st) (pointerPos st) (hoveredAtom st)
    (isDragging st) (snapTargetId st) (isPanning st) v.

Record PointerEvent := mkPointer { clientX : float; clientY : float }.

Record WheelEvent := mkWheel { w_clientX : float; w_clientY : float; deltaY : float }.

Definition getPointerCoords (env : Env) (st : Editor) (cx cy : float) : Vec2 :=
  match svgRect env with
  | None => mkVec 0 0
  | Some rect =>
      let relX := cx - vx rect in
      let relY := cy - vy rect in
      mkVec ((relX - view_x (view st)) / view_k (view st))
            ((relY - view_y (view st)) / view_k (view st))
  end.

Definition handleWheel (env : Env) (st : Editor) (e : WheelEvent) : Editor :=
  if isReadOnly env then st else
  let scaleFactor := 1 - deltaY e * 0.001 in
  let newK := Math_max 0.1 (Math_min 5 (view_k (view st) * scaleFactor)) in
  match svgRect env with
  | None => st
  | Some rect =>
      let mouseX := w_clientX e - vx rect in
      let mouseY := w_clientY e - vy rect in
      let worldX := (mouseX - view_x (view st)) / view_k (view st) in
      let worldY := (mouseY - view_y (view st)) / view_k (view st) in
      let newX := mouseX - worldX * newK in
      let newY := mouseY - worldY * newK in
      st |> setView (mkView newX newY newK)
  end.

Definition commitToHistory (newAtoms : list AtomData) (newBonds : list BondData)
  (st : Editor) : Editor :=
  let newHistory := slice0 (history st) (historyIndex st + 1) ++ [mkHist newAtoms newBonds] in
  st |> setHistory newHistory
     |> setHistoryIndex (Z.of_nat (List.length newHistory) - 1)
     |> setAtoms newAtoms
     |> setBonds newBonds.

Definition addAtom (id : string) (x y : float) (element : string) : AtomData :=
  mkAtom id x y element.

Definition hasId (i : string) (a : AtomData) : bool := String.eqb (a_id a) i.

(** The hit test of a bond in [handlePointerDown]. *)
Definition bondHit (ats : list AtomData) (x y : float) (b : BondData) : bool :=
  match find (hasId (b_source b)) ats, find (hasId (b_target b)) ats with
  | Some s, Some t =>
      let A := x - a_x s in let B := y - a_y s in
      let C := a_x t - a_x s in let D := a_y t - a_y s in
      let dot := A * C + B * D in
      let lenSq := C * C + D * D in
      let param := if lenSq =? 0 then -1 else dot / lenSq in
      let xx := if param <? 0 then a_x s
                else if 1 <? param then a_x t else a_x s + param * C in
      let yy := if param <? 0 then a_y s
                else if 1 <? param then a_y t else a_y s + param * D in
      PrimFloat.sqrt ((x - xx) * (x - xx) + (y - yy) * (y - yy)) <? 8
  | _, _ => false
  end.

(** [handlePointerDown]; [rid] is the id drawn by [addAtom]. *)
Definition handlePointerDown (env : Env) (st : Editor) (e : PointerEvent)
  (rid : string) : Editor :=
  if isReadOnly env then st else
  let p := getPointerCoords env st (clientX e) (clientY e) in
  let clickedAtom := find (fun a => distance (pos a) p <? 15) (atoms st) in
  let clickedBond :=
    match clickedAtom with
    | None => find (bondHit (atoms st) (vx p) (vy p)) (bonds st)
    | Some _ => None
    end in
  if negb (tool_eqb (tool st) draw) && negb (isSome clickedAtom) && negb (isSome clickedBond)
  then st |> setIsPanning true |> setPanStart (Some (mkVec (clientX e) (clientY e)))
  else
  match tool st with
  | erase =>
      match clickedAtom, clickedBond with
      | Some ca, _ =>
          let newAtoms := filter (fun a => negb (String.eqb (a_id a) (a_id ca))) (atoms st) in
          let newBonds := filter (fun b => negb (String.eqb (b_source b) (a_id ca))
                                           && negb (String.eqb (b_target b) (a_id ca))) (bonds st) in
          commitToHistory newAtoms newBonds st
      | None, Some cb =>
          let newBonds := filter (fun b => negb (String.eqb (b_id b) (b_id cb))) (bonds st) in
          commitToHistory (atoms st) newBonds st
      | None, None => st
      end
  | select =>
      (match clickedAtom with
       | Some ca => st |> setDragStart (Some (mkDrag (a_id ca) (a_x ca) (a_y ca)))
                       |> setIsDragging true
       | None => st
       end) |> setPointerPos (Some p)
  | draw =>
      (match clickedAtom, clickedBond with
       | Some ca, _ => st |> setDragStart (Some (mkDrag (a_id ca) (a_x ca) (a_y ca)))
       | None, Some cb =>
           let newBonds := map (fun b => if String.eqb (b_id b) (b_id cb)
                                         then withType b (nextType (b_type b)) else b) (bonds st) in
           commitToHistory (atoms st) newBonds st
       | None, None =>
           let atom := addAtom rid (vx p) (vy p) (activeElement st) in
           st |> setAtoms (atoms st ++ [atom])
              |> setDragStart (Some (mkDrag rid (vx p) (vy p)))
       end) |> setIsDragging true |> setPointerPos (Some p)
  end.

Definition handlePointerMove (M : Engine) (env : Env) (st : Editor) (e : PointerEvent)
  : Editor :=
  if isReadOnly env then st else
  match isPanning st, panStart st with
  | true, Some ps =>
      let dx := clientX e - vx ps in
      let dy := clientY e - vy ps in
      st |> setView (mkView (view_x (view st) + dx) (view_y (view st) + dy) (view_k (view st)))
         |> setPanStart (Some (mkVec (clientX e) (clientY e)))
  | _, _ =>
      let coords := getPointerCoords env st (clientX e) (clientY e) in
      match tool st, isDragging st, dragStart st with
      | select, true, Some ds =>
          st |> setAtoms (map (fun a => if String.eqb (a_id a) (d_id ds)
                                        then mkAtom (a_id a) (vx coords) (vy coords) (a_element a)
                                        else a) (atoms st))
             |> setPointerPos (Some coords)
      | draw, true, Some ds =>
          (* 1. the snapped angle position *)
          let snappedPos := snapToAngle M (d_x ds) (d_y ds) (vx coords) (vy coords) in
          (* 2. an existing atom close to the snapped position or to the cursor *)
          let snapTarget :=
            find (fun a => negb (String.eqb (a_id a) (d_id ds))
                           && ((distance (pos a) coords <? BOND_SNAP_DIST)
                               || (distance (pos a) snappedPos <? BOND_SNAP_DIST)))
                 (atoms st) in
          match snapTarget with
          | Some a => st |> setPointerPos (Some (mkVec (a_x a) (a_y a)))
                         |> setSnapTargetId (Some (a_id a))
          | None => st |> setPointerPos (Some snappedPos) |> setSnapTargetId None
          end
      | draw, _, _ =>
          let hovered := find (fun a => distance (pos a) coords <? 15) (atoms st) in
          st |> setHoveredAtom (option_map a_id hovered)
      | _, _, _ => st
      end
  end.

(** The drag branch of [handlePointerUp]: the atoms and bonds it commits.
    [rid] is the id drawn by [addAtom], [bid] the id drawn for a new bond. *)
Definition dragResult (st : Editor) (ds : DragStart) (pp : Vec2) (rid bid : string)
  : list AtomData * list BondData :=
  let '(targetId, newAtoms) :=
    match truthy (snapTargetId st) with
    | Some t => (t, atoms st)
    | None => (rid, atoms st ++ [addAtom rid (vx pp) (vy pp) (activeElement st)])
    end in
  if negb (String.eqb targetId EmptyString) && negb (String.eqb targetId (d_id ds)) then
    match findIndex (joins (d_id ds) targetId) (bonds st) with
    | Some existingBondIndex =>
        match nth_error (bonds st) existingBondIndex with
        | Some b => (newAtoms, setAt (bonds st) existingBondIndex (withType b (nextType (b_type b))))
        | None => (newAtoms, bonds st)
        end
    | None =>
        (newAtoms, bonds st ++ [mkBond bid (d_id ds) targetId 1%Z])
    end
  else
    (newAtoms, bonds st).

(** [handlePointerUp]; the handler reads no field of its event. *)
Definition handlePointerUp (env : Env) (st : Editor) (e : PointerEvent)
  (rid bid : string) : Editor :=
  if isReadOnly env then st else
  if isPanning st then st |> setIsPanning false |> setPanStart None
  else if tool_eqb (tool st) select && isDragging st then
    commitToHistory (atoms st) (bonds st) st |> setIsDragging false |> setDragStart None
  else
    (match tool st, isDragging st, dragStart st, pointerPos st with
     | draw, true, Some ds, Some pp =>
         let dist := distance (mkVec (d_x ds) (d_y ds)) pp in
         if dist <? 5 then
           match find (hasId (d_id ds)) (atoms st) with
           | Some targetAtom =>
               let newAtoms := map (fun a => if String.eqb (a_id a) (a_id targetAtom)
                                             then mkAtom (a_id a) (a_x a) (a_y a) (activeElement st)
                                             else a) (atoms st) in
               commitToHistory newAtoms (bonds st) st
           | None => st
           end
         else
           let '(newAtoms, newBonds) := dragResult st ds pp rid bid in
           commitToHistory newAtoms newBonds st
     | _, _, _, _ => st
     end)
    |> setDragStart None |> setIsDragging false |> setHoveredAtom None
    |> setSnapTargetId None |> setPointerPos None.

(** *** Vocabulary of the statements *)

(** One drag of the draw tool: pointer down, one pointer move, pointer
    up. *)
Definition dragGesture (M : Engine) (env : Env) (st : Editor)
  (down move up : PointerEvent) (rid0 rid1 bid : string) : Editor :=
  handlePointerUp env (handlePointerMove M env (handlePointerDown env st down rid0) move)
                  up rid1 bid.

(** The end of a gesture: the five resets at the bottom of
    [handlePointerUp]. *)
Definition endGesture (st : Editor) : Editor :=
  st |> setDragStart None |> setIsDragging false |> setHoveredAtom None
     |> setSnapTargetId None |> setPointerPos None.

(** A draw-tool state at rest in which a press at [down] hits the atom
    [A] and a move to [move] snaps on the atom [B], far enough from [A]
    for a drag: the tests of the three handlers, as the program
    evaluates them. *)
Definition dragsBetween (M : Engine) (env : Env) (st : Editor) (down move : PointerEvent)
  (A B : AtomData) : Prop :=
  isReadOnly env = false /\ tool st = draw /\ isPanning st = false
  /\ find (fun a => distance (pos a)
                      (getPointerCoords env st (clientX down) (clientY down)) <? 15)
          (atoms st) = Some A
  /\ find (fun a => negb (String.eqb (a_id a) (a_id A))
                    && ((distance (pos a)
                           (getPointerCoords env st (clientX move) (clientY move)) <? 20)
                        || (distance (pos a)
                              (snapToAngle M (a_x A) (a_y A)
                                 (vx (getPointerCoords env st (clientX move) (clientY move)))
                                 (vy (getPointerCoords env st (clientX move) (clientY move))))
                            <? 20)))
          (atoms st) = Some B
  /\ (distance (pos A) (pos B) <? 5) = false
  /\ a_id B <> EmptyString.

(** [x] brought into the interval from [lo] to [hi]; [NaN] stays [NaN]. *)
Definition clamp (x lo hi : float) : float :=
  if x <? lo then lo else if hi <? x then hi else x.

(** The scale after a wheel event with the delta [d] on the scale [k]. *)
Definition zoomScale (k d : float) : float := clamp (k * (1 - d * 0.001)) 0.1 5.

(** The direction from the anchor [ds] to the pointer [raw], rounded to
    a multiple of 30 degrees. *)
Definition snappedAngle (M : Engine) (ds : DragStart) (raw : Vec2) : float :=
  Math_round (Math_atan2 M (vy raw - d_y ds) (vx raw - d_x ds) / (Math_PI / 6))
  * (Math_PI / 6).

(** The candidate end point: 60 times the cosine and the sine of the
    rounded direction, added to the anchor. *)
Definition candidate (M : Engine) (ds : DragStart) (raw : Vec2) : Vec2 :=
  mkVec (d_x ds + Math_cos M (snappedAngle M ds raw) * 60)
        (d_y ds + Math_sin M (snappedAngle M ds raw) * 60).

(** An atom other than the anchor [ds] within the snap radius of the raw
    pointer position [raw] or of the candidate [cand], by the distances
    that the program computes. *)
Definition near (ds : DragStart) (raw cand : Vec2) (a : AtomData) : Prop :=
  a_id a <> d_id ds
  /\ ((distance (pos a) raw <? 20) = true \/ (distance (pos a) cand <? 20) = true).

(** *** A scene for the examples *)

(** An engine for the examples below: at the arguments that the
    examples reach it returns what the engines return,
    [Math.atan2(-10, 0) = -1.5707963267948966],
    [Math.cos(-1.5707963267948966) = 6.123233995736766e-17] and
    [Math.sin(-1.5707963267948966) = -1], and for the direction of the
    positive x axis [Math.atan2(0, 60) = 0], [Math.cos(0) = 1] and
    [Math.sin(0) = 0]. *)
Definition exampleEngine : Engine :=
  mkEngine
    (fun y x => if (y =? -10) && (x =? 0) then -1.5707963267948966 else 0)
    (fun a => if a =? -1.5707963267948966 then 6.123233995736766e-17 else 1)
    (fun a => if a =? -1.5707963267948966 then -1 else 0).

Definition exEnv : Env := mkEnv false (Some (mkVec 0 0)).

(** Two carbons 60 apart, joined by a single bond that is stored from
    [b] to [a]. *)
Definition pairA : AtomData := mkAtom "a" 0 0 "C".
Definition pairB : AtomData := mkAtom "b" 60 0 "C".
Definition pairState : Editor :=
  mkEditor [pairA; pairB] [mkBond "ba" "b" "a" 1] (mkView 0 0 1)
    [mkHist [] []; mkHist [pairA; pairB] [mkBond "ba" "b" "a" 1]] 1%Z draw "C"%string
    None None None false None false None.

(** A draw gesture anchored on the atom [a] at the origin, next to an
    atom [c] at (20, -60). *)
Definition snapState : Editor :=
  initialEditor |> setAtoms [mkAtom "a" 0 0 "C"; mkAtom "c" 20 (-60) "C"]
                |> setDragStart (Some (mkDrag "a" 0 0))
                |> setIsDragging true.

End B64.

(** ** Vocabulary of the statements *)

(** *** View transform *)

(** [x] brought into the interval from [lo] to [hi]. *)
Definition clamp (x lo hi : R) : R :=
  if Rlt_dec x lo then lo else if Rlt_dec hi x then hi else x.

(** *** Prop synchronisation *)

(** A field of the host's value holds an array. *)
Definition holdsArray {A} (f : arrayField A) : bool :=
  match f with isArray _ => true | _ => false end.

(** A serialiser that keeps the keys of an object only; an instance of
    [JSON_stringify] for examples. *)
Definition keysOf (o : JsObject) : string := String.concat "," (map fst o).

(** *** Implicit hydrogens *)

(** The sum of the orders of a list of bonds. *)
Fixpoint orderSum (l : list BondData) : Z :=
  match l with
  | [] => 0%Z
  | b :: r => (b_type b + orderSum r)%Z
  end.

(** The valence table in the words of the specification. *)
Definition specValence : list (string * Z) :=
  [("C", 4); ("N", 3); ("O", 2); ("H", 1); ("S", 2);
   ("Cl", 1); ("F", 1); ("P", 5); ("Br", 1); ("I", 1)]%string%Z.

(** A bond is incident to the atom with the id [i]: one of its two ends
    is [i]. *)
Definition touches (i : string) (b : BondData) : Prop :=
  b_source b = i \/ b_target b = i.

(** The sum of the orders of the bonds of [l] that are incident to [i],
    each bond counted once. *)
Fixpoint incidentOrderSum (i : string) (l : list BondData) : Z :=
  match l with
  | [] => 0%Z
  | b :: r =>
      ((if string_dec (b_source b) i then b_type b
        else if string_dec (b_target b) i then b_type b
        else 0)
       + incidentOrderSum i r)%Z
  end.

(** The label of an atom without bonds, element by element. *)
Definition isolatedLabel (el : string) : string :=
  (if String.eqb el "C" then "CH₄"
   else if String.eqb el "N" then "NH₃"
   else if String.eqb el "O" then "H₂O"
   else if String.eqb el "H" then "H₂"
   else if String.eqb el "S" then "H₂S"
   else if String.eqb el "Cl" then "HCl"
   else if String.eqb el "F" then "HF"
   else if String.eqb el "P" then "H₅P"
   else if String.eqb el "Br" then "HBr"
   else if String.eqb el "I" then "HI"
   else el)%string.

(** *** Gestures *)

(** One drag of the draw tool: pointer down, one pointer move, pointer
    up.  [rid0], [rid1] and [bid] are the ids that the handlers draw. *)
Definition dragGesture (env : Env) (st : Editor) (down move up : PointerEvent)
  (rid0 rid1 bid : string) : Editor :=
  handlePointerUp env (handlePointerMove env (handlePointerDown env st down rid0) move)
                  up rid1 bid.

(** The other end of the bond that [handlePointerUp] resolves: the snap
    target, or else the atom it creates. *)
Definition resolvedTarget (st : Editor) (rid : string) : string :=
  match truthy (snapTargetId st) with Some t => t | None => rid end.

(** The end of a gesture: the five resets at the bottom of
    [handlePointerUp]. *)
Definition endGesture (st : Editor) : Editor :=
  st |> setDragStart None |> setIsDragging false |> setHoveredAtom None
     |> setSnapTargetId None |> setPointerPos None.

(** A bond between the atoms with the ids [i] and [j]: its two ends are
    the two ids, stored in one order or in the other. *)
Definition connects (i j : string) (b : BondData) : Prop :=
  (b_source b = i /\ b_target b = j) \/ (b_source b = j /\ b_target b = i).

(** A press and a release at the same place, without a move in
    between. *)
Definition clickGesture (env : Env) (st : Editor) (e : PointerEvent)
  (rid0 rid1 bid : string) : Editor :=
  handlePointerUp env (handlePointerDown env st e rid0) e rid1 bid.

(** The atoms with the id [i] given the element [el]. *)
Definition withElement (i el : string) (ats : list AtomData) : list AtomData :=
  map (fun a => if String.eqb (a_id a) i then mkAtom (a_id a) (a_x a) (a_y a) el else a) ats.

(** The atoms with the id [i] moved to the point [c]. *)
Definition movedTo (i : string) (c : Vec2) (ats : list AtomData) : list AtomData :=
  map (fun a => if String.eqb (a_id a) i then mkAtom (a_id a) (vx c) (vy c) (a_element a) else a)
      ats.

(** A gesture with any number of moves: a press, the moves in order,
    and the release. *)
Definition gesture (env : Env) (st : Editor) (down : PointerEvent)
  (moves : list PointerEvent) (up : PointerEvent) (rid0 rid1 bid : string) : Editor :=
  handlePointerUp env
    (fold_left (handlePointerMove env) moves (handlePointerDown env st down rid0))
    up rid1 bid.

(** The screen point of the last of the moves, [start] if there is
    none. *)
Definition lastPoint (moves : list PointerEvent) (start : Vec2) : Vec2 :=
  fold_left (fun _ m => mkVec (clientX m) (clientY m)) moves start.

(** The offset of the view after a pan: every move adds the step of the
    pointer since the event before it, in the order of the moves. *)
Fixpoint panAlong (offset prev : R) (points : list R) : R :=
  match points with
  | [] => offset
  | p :: r => panAlong (offset + (p - prev)) p r
  end.

(** The bonds with the id [i] taken to the next order of the cycle. *)
Definition cycleId (i : string) (bds : list BondData) : list BondData :=
  map (fun b => if String.eqb (b_id b) i then withType b (nextType (b_type b)) else b) bds.

(** The draw tool at rest with the pointer of [e] on the bond [cb]: no
    atom within 15 of the pointer, [cb] the first bond hit. *)
Definition onBond (env : Env) (st : Editor) (e : PointerEvent) (cb : BondData) : Prop :=
  isReadOnly env = false /\ tool st = draw /\ isPanning st = false
  /\ dragStart st = None
  /\ find (fun a => num_lt (distance (pos a)
                      (getPointerCoords env st (clientX e) (clientY e))) 15)
          (atoms st) = None
  /\ find (bondHit (atoms st)
            (vx (getPointerCoords env st (clientX e) (clientY e)))
            (vy (getPointerCoords env st (clientX e) (clientY e))))
          (bonds st) = Some cb.

(** *** Bond geometry *)

(** The point of the segment from [s] to [t] at the parameter [lam]. *)
Definition along (s t : AtomData) (lam : R) : Vec2 :=
  mkVec (a_x s + lam * (a_x t - a_x s)) (a_y s + lam * (a_y t - a_y s)).

(** The parameter that the hit test of a bond settles on: the projection
    of the pointer on the line through [s] and [t], brought into the
    segment. *)
Definition nearestParam (s t : AtomData) (x y : R) : R :=
  let A := x - a_x s in let B := y - a_y s in
  let C := a_x t - a_x s in let D := a_y t - a_y s in
  let lenSq := C * C + D * D in
  let param := if Req_dec_T lenSq 0 then -1 else (A * C + B * D) / lenSq in
  if Rlt_dec param 0 then 0 else if Rlt_dec 1 param then 1 else param.

(** The least element of a list of numbers, if it has one. *)
Fixpoint minimum (l : list R) : option R :=
  match l with
  | [] => None
  | a :: r => Some (match minimum r with Some m => Rmin a m | None => a end)
  end.

(** The running minimum [cur] joined with the least element of a list. *)
Definition joinMin (cur : R) (o : option R) : R :=
  match o with Some m => Rmin cur m | None => cur end.

(** A neighbour vector lies to the right of the axis when its cross
    product with the axis is positive, and to the left otherwise. *)
Definition onSide (axis : Vec2) (right : bool) (nb : Vec2) : bool :=
  Bool.eqb (num_lt 0 (vec.cross axis nb)) right.

(** The angles between [myAxis] and the neighbours on one side. *)
Definition anglesOnSide (axis myAxis : Vec2) (right : bool) (nbs : list Vec2) : list R :=
  map (vec.angle myAxis) (filter (onSide axis right) nbs).

(** The axis as seen from an end of the bond: towards the other end. *)
Definition axisFrom (atomId : string) (s : AtomData) (axis : Vec2) : Vec2 :=
  if String.eqb atomId (a_id s) then axis else vec.scale axis (-1).

(** An offset line that starts [cutS] after the source end and stops
    [cutT] before the target end, on the right or on the left. *)
Definition trimmedLine (s t : AtomData) (n perp : Vec2) (offset : R) (right : bool)
  (cutS cutT : R) : Line :=
  let shift := if right then offset else - offset in
  mkLine (a_x s + vx perp * shift + vx n * cutS) (a_y s + vy perp * shift + vy n * cutS)
         (a_x t + vx perp * shift - vx n * cutT) (a_y t + vy perp * shift - vy n * cutT).

(** The trim distance for the least angle [theta]: the smaller of half
    the bond length and [offset * tan (PI / 2 - theta / 2)]; at
    [theta = 0], where the tangent is unbounded, the tangent of the
    program is 16331239353195370, which gives half the bond length for
    a bond shorter than 2 * 6 * 16331239353195370. *)
Definition trimAmount (len offset theta : R) : R :=
  Rmin (len / 2)
    (offset * (if Req_dec_T theta 0 then 16331239353195370
               else tan (PI / 2 - theta / 2))).

(** The trim distance of the rendering: nothing without a neighbour on
    the side of the line; otherwise computed from the least angle among
    all the neighbours of that end. *)
Definition trim (len offset : R) (sameSide allSides : list R) : R :=
  match minimum sameSide, minimum allSides with
  | Some _, Some theta => trimAmount len offset theta
  | _, _ => 0
  end.



(** The offset line of a bond from [s] to [t] on one side, with the trim
    distance of each end computed by [cut] from the bond length, the
    offset, the angles of the neighbours on the side of the line and the
    angles of all the neighbours of that end. *)
Definition offsetLineWith (cut : R -> R -> list R -> list R -> R)
  (st : Editor) (b : BondData) (s t : AtomData) (right : bool) : Line :=
  let v := vec.sub (pos t) (pos s) in
  let n := vec.norm v in
  let perp := mkVec (- vy n) (vx n) in
  let nbS := neighborVectors st (a_id s) s t b in
  let nbT := neighborVectors st (a_id t) s t b in
  let axS := axisFrom (a_id s) s v in
  let axT := axisFrom (a_id t) s v in
  trimmedLine s t n perp 6 right
    (cut (vec.len v) 6 (anglesOnSide v axS right nbS) (map (vec.angle axS) nbS))
    (cut (vec.len v) 6 (anglesOnSide v axT right nbT) (map (vec.angle axT) nbT)).








(** *** Graph invariant *)

(** The atom list holds an atom with this id. *)
Definition hasAtom (ats : list AtomData) (i : string) : Prop :=
  exists a, In a ats /\ a_id a = i.

(** No bond of the graph has an end outside the atom list. *)
Definition noDangling (ats : list AtomData) (bds : list BondData) : Prop :=
  forall b, In b bds -> hasAtom ats (b_source b) /\ hasAtom ats (b_target b).

Definition snapshotOk (h : HistoryState) : Prop := noDangling (h_atoms h) (h_bonds h).

(** The part of the state that the graph invariant reads: the live
    graph and every history entry have no dangling bond, the anchor and
    the snap target of a gesture are atoms of the live graph, and the
    erase tool has no gesture. *)
Definition graphInvariant (ats : list AtomData) (bds : list BondData)
  (hist : list HistoryState) (ds : option DragStart) (snap : option string)
  (tl : ToolType) : Prop :=
  noDangling ats bds
  /\ (forall h, In h hist -> snapshotOk h)
  /\ (forall d, ds = Some d -> hasAtom ats (d_id d))
  /\ (forall t, snap = Some t -> hasAtom ats t)
  /\ (tl = erase -> ds = None /\ snap = None).

Definition wellFormed (st : Editor) : Prop :=
  graphInvariant (atoms st) (bonds st) (history st) (dragStart st)
                 (snapTargetId st) (tool st).

(** No gesture is under way. *)
Definition atRest (st : Editor) : Prop :=
  dragStart st = None /\ snapTargetId st = None.

Definition isToolbar (ev : Event) : bool :=
  match ev with
  | UndoClick | RedoClick | ClearClick | ToolClick _ | ElementClick _ => true
  | _ => false
  end.

(** Along the trace, the toolbar is used between gestures only. *)
Fixpoint toolbarAtRest (env : Env) (st : Editor) (evs : list Event) : Prop :=
  match evs with
  | [] => True
  | ev :: r => (isToolbar ev = true -> atRest st) /\ toolbarAtRest env (step env st ev) r
  end.

(** *** Invariants of the traces *)

(** The history index points at an entry of the history. *)
Definition indexInRange (st : Editor) : Prop :=
  (0 <= historyIndex st < Z.of_nat (List.length (history st)))%Z.

(** The entry under the history index is the live graph. *)
Definition synced (st : Editor) : Prop :=
  at_index (history st) (historyIndex st) = Some (mkHist (atoms st) (bonds st)).

(** The scale of the view is within the bounds of the zoom. *)
Definition scaleInRange (st : Editor) : Prop := 0.1 <= view_k (view st) <= 5.

(** *** SMILES generator *)

(** Every id that the traversal can meet: the atom ids and the two ends
    of every bond. *)
Definition universe (ats : list AtomData) (bds : list BondData) : list string :=
  map a_id ats ++ flat_map (fun b => [b_source b; b_target b]) bds.

(** The property names that every plain object inherits from
    [Object.prototype]. *)
Definition objectPrototypeKeys : list string :=
  ["constructor"; "__defineGetter__"; "__defineSetter__"; "hasOwnProperty";
   "__lookupGetter__"; "__lookupSetter__"; "isPrototypeOf"; "propertyIsEnumerable";
   "toString"; "valueOf"; "__proto__"; "toLocaleString"]%string.

(** No id of the graph names an inherited property: [adj[id]] and
    [rings[id]] read what the traversal has stored and nothing else.
    (The ids that the editor draws, at most nine lower-case letters and
    digits, are of this kind.) *)
Definition ordinaryIds (ats : list AtomData) (bds : list BondData) : Prop :=
  Forall (fun i => ~ In i objectPrototypeKeys) (universe ats bds).

(** How many ids of [U] the traversal has not visited yet. *)
Definition unvisited (U vis : list string) : nat :=
  List.length (filter (fun i => negb (has i vis)) U).

(** The visited set only grows from [s1] to [s2]. *)
Definition grows (s1 s2 : SmilesState) : Prop :=
  forall i, has i (visited s1) = true -> has i (visited s2) = true.

(** The far ends of the bonds at the id [k], in bond order: what the
    adjacency list of [k] holds. *)
Definition edgesOf (k : string) (bds : list BondData) : list Edge :=
  flat_map (fun b =>
              (if String.eqb (b_source b) k then [mkEdge (b_target b) (b_type b)] else [])
              ++ (if String.eqb (b_target b) k then [mkEdge (b_source b) (b_type b)] else []))
           bds.

(** The atoms form a chain: each bond joins an atom to the next one of
    the list, in either orientation. *)
Inductive isChain : list AtomData -> list BondData -> Prop :=
| chain_one (a : AtomData) : isChain [a] []
| chain_cons (a a' : AtomData) (r : list AtomData) (b : BondData) (bs : list BondData) :
    joins (a_id a) (a_id a') b = true ->
    isChain (a' :: r) bs ->
    isChain (a :: a' :: r) (b :: bs).

(** The elements of a chain with the symbols of the bonds between them. *)
Fixpoint chainText (ats : list AtomData) (bds : list BondData) : string :=
  match ats with
  | [] => EmptyString
  | a :: r =>
      match bds with
      | b :: bs => (a_element a ++ bondSymbol (b_type b) ++ chainText r bs)%string
      | [] => a_element a
      end
  end.

(** The atoms [leaves] hang on the centre [c]: the i-th bond joins [c]
    to the i-th leaf, in either orientation. *)
Definition isStar (c : AtomData) (leaves : list AtomData) (bds : list BondData) : Prop :=
  Forall2 (fun n b => joins (a_id c) (a_id n) b = true) leaves bds.

(** What a branch of a star reads: the symbol of its bond and the element
    of its leaf. *)
Definition branchText (nb : AtomData * BondData) : string :=
  (bondSymbol (b_type (snd nb)) ++ a_element (fst nb))%string.

(** The branches of a star in order, each but the last in parentheses. *)
Fixpoint starText (branches : list string) : string :=
  match branches with
  | [] => EmptyString
  | [last] => last
  | b :: r => ("(" ++ b ++ ")" ++ starText r)%string
  end.

(** The text of a chain whose last atom carries [tail] (a ring closure)
    after its element. *)
Fixpoint chainTextEnding (tail : string) (ats : list AtomData) (bds : list BondData) : string :=
  match ats with
  | [] => EmptyString
  | a :: r =>
      match bds with
      | b :: bs => (a_element a ++ bondSymbol (b_type b) ++ chainTextEnding tail r bs)%string
      | [] => (a_element a ++ tail)%string
      end
  end.

(** *** Quiz shell *)

(** No comma in a string. *)
Fixpoint commaFree (s : string) : Prop :=
  match s with
  | EmptyString => True
  | String c r => c <> ","%char /\ commaFree r
  end.

(** The options stored for the question [qId]. *)
Definition selectionOf (qId : string) (userAnswers : list (string * list Z)) : list Z :=
  match lookup qId userAnswers with Some c => c | None => [] end.

(** The answers after a sequence of clicks on the options of the
    question [qId]. *)
Definition clickOptions (qId : string) (maxSelect : Z) (clicks : list Z)
  (userAnswers : list (string * list Z)) : list (string * list Z) :=
  fold_left (fun ua i => handleSelectionAnswer ua qId i maxSelect) clicks userAnswers.

(** *** Scenes for the examples *)

(** A small scene for examples: two carbons 60 apart joined by a single
    bond, the canvas at the origin of the screen, the view untouched. *)
Definition exA : AtomData := mkAtom "a" 0 0 "C".
Definition exB : AtomData := mkAtom "b" 60 0 "C".
Definition exBond : BondData := mkBond "ab" "a" "b" 1.
Definition exEnv : Env := mkEnv false (Some (mkVec 0 0)).
Definition exState : Editor :=
  mkEditor [exA; exB] [exBond] (mkView 0 0 1)
    [mkHist [] []; mkHist [exA; exB] [exBond]] 1%Z draw "C"%string
    None None None false None false None.

(** A scene for the trim distances: a triple bond from a phosphorus [s]
    at the origin to a carbon [t] at (60, 0); at [s] one neighbour at a
    right angle on the right of the axis and one at the angle
    [acos (3/5)] on the left. *)
Definition c1S : AtomData := mkAtom "s" 0 0 "P".
Definition c1T : AtomData := mkAtom "t" 60 0 "C".
Definition c1R : AtomData := mkAtom "r" 0 60 "C".
Definition c1L : AtomData := mkAtom "l" 30 (-40) "C".
Definition c1Bond : BondData := mkBond "st" "s" "t" 3.
Definition c1State : Editor :=
  initialEditor |> setAtoms [c1S; c1T; c1R; c1L]
                |> setBonds [c1Bond; mkBond "sr" "s" "r" 1; mkBond "sl" "s" "l" 1].

(** A scene with a neighbour along the axis: the triple bond from [s] to
    [t] of the scene above and a single bond from [s] to an atom [u] at
    (120, 0), beyond [t] on the line through [s] and [t]. *)
Definition flatState : Editor :=
  initialEditor |> setAtoms [c1S; c1T; mkAtom "u" 120 0 "C"]
                |> setBonds [c1Bond; mkBond "su" "s" "u" 1].


(** A draw gesture anchored on the atom [a] at the origin, next to an
    atom [c] at (20, -60). *)
Definition snapState : Editor :=
  initialEditor |> setAtoms [mkAtom "a" 0 0 "C"; mkAtom "c" 20 (-60) "C"]
                |> setDragStart (Some (mkDrag "a" 0 0))
                |> setIsDragging true.

(** A scene without carbon: a nitrogen and an oxygen 60 apart, joined by
    a double bond. *)
Definition hetN : AtomData := mkAtom "n" 0 0 "N".
Definition hetO : AtomData := mkAtom "o" 60 0 "O".
Definition hetBond : BondData := mkBond "no" "n" "o" 2.
Definition hetState : Editor :=
  initialEditor |> setAtoms [hetN; hetO] |> setBonds [hetBond].

(** A trace on a fresh editor: press on the empty canvas with the draw
    tool, clear the drawing while the pointer is still down, move, and
    release. *)
Definition c7Trace : list Event :=
  [PointerDown (mkPointer 100 100) "x"; ClearClick;
   PointerMove (mkPointer 160 100); PointerUp (mkPointer 160 100) "y" "xy"].

(** * Verification *)

Ltac split_and := repeat match goal with |- _ /\ _ => split end.

(** Reads a field through the setters of the state. *)
Ltac simpl_state :=
  cbn [atoms bonds view history historyIndex tool activeElement dragStart
       pointerPos hoveredAtom isDragging snapTargetId isPanning panStart
       setAtoms setBonds setView setHistory setHistoryIndex setTool
       setActiveElement setDragStart setPointerPos setHoveredAtom
       setIsDragging setSnapTargetId setIsPanning setPanStart
       commitToHistory endGesture].

(** Two states with the same fields are the same state. *)
Lemma editor_ext (a b : Editor) :
  atoms a = atoms b -> bonds a = bonds b -> view a = view b ->
  history a = history b -> historyIndex a = historyIndex b ->
  tool a = tool b -> activeElement a = activeElement b ->
  dragStart a = dragStart b -> pointerPos a = pointerPos b ->
  hoveredAtom a = hoveredAtom b -> isDragging a = isDragging b ->
  snapTargetId a = snapTargetId b -> isPanning a = isPanning b ->
  panStart a = panStart b -> a = b.
Proof.
  destruct a, b. cbn. intros. subst. reflexivity.
Qed.

Ltac state_eq := apply editor_ext; simpl_state; try reflexivity.

(** ** History stack *)

Lemma slice0_in_range {A} (l : list A) (i : Z) :
  (0 <= i < Z.of_nat (List.length l))%Z ->
  slice0 l (i + 1) = firstn (S (Z.to_nat i)) l.
Proof.
  intros H. unfold slice0.
  destruct (Z.ltb_spec (i + 1) 0); [lia|].
  f_equal. lia.
Qed.

Lemma at_index_app_last {A} (l : list A) (x : A) :
  at_index (l ++ [x]) (Z.of_nat (List.length l)) = Some x.
Proof.
  unfold at_index.
  destruct (Z.ltb_spec (Z.of_nat (List.length l)) 0); [lia|].
  rewrite Nat2Z.id, nth_error_app2 by lia.
  now rewrite Nat.sub_diag.
Qed.

Lemma at_index_firstn {A} (l : list A) (n : nat) (i : Z) (x : A) :
  (0 <= i < Z.of_nat n)%Z -> (i < Z.of_nat (List.length l))%Z ->
  at_index (firstn n l ++ [x]) i = at_index l i.
Proof.
  intros H Hl. unfold at_index.
  destruct (Z.ltb_spec i 0); [lia|].
  rewrite nth_error_app1 by (rewrite length_firstn; lia).
  rewrite nth_error_firstn.
  destruct (Nat.ltb_spec (Z.to_nat i) n); [reflexivity|lia].
Qed.

Lemma at_index_in_range {A} (l : list A) (i : Z) :
  (0 <= i < Z.of_nat (List.length l))%Z -> exists x, at_index l i = Some x.
Proof.
  intros H. unfold at_index.
  destruct (Z.ltb_spec i 0); [lia|].
  destruct (nth_error l (Z.to_nat i)) eqn:E; [eauto|].
  apply nth_error_None in E. lia.
Qed.

Lemma commit_history (a : list AtomData) (b : list BondData) (st : Editor) :
  (0 <= historyIndex st < Z.of_nat (List.length (history st)))%Z ->
  history (commitToHistory a b st)
    = firstn (S (Z.to_nat (historyIndex st))) (history st) ++ [mkHist a b]
  /\ historyIndex (commitToHistory a b st) = (historyIndex st + 1)%Z.
Proof.
  intros H. unfold commitToHistory. simpl.
  rewrite slice0_in_range by assumption.
  split; [reflexivity|].
  rewrite length_app, length_firstn. cbn [List.length]. lia.
Qed.

(** [C3] On a history with entries and an index inside it: a commit keeps
    the entries up to the index, appends the snapshot as the new last
    entry, points the index at it and makes it the live graph; undo above
    index 0 and redo below the last index load the neighbouring entry and
    move the index by one; undo at 0 and redo at the last index return the
    state as it is; undo after a commit loads the entry the commit started
    from, and redo after an undo loads the entry that was left. *)
Theorem C3_history_stack (st : Editor) :
  (0 <= historyIndex st < Z.of_nat (List.length (history st)))%Z ->
  let i := historyIndex st in
  let last := (Z.of_nat (List.length (history st)) - 1)%Z in
  (forall a b, let st' := commitToHistory a b st in
     history st' = firstn (S (Z.to_nat i)) (history st) ++ [mkHist a b]
     /\ (forall j, (0 <= j <= i)%Z -> at_index (history st') j = at_index (history st) j)
     /\ historyIndex st' = (Z.of_nat (List.length (history st')) - 1)%Z
     /\ historyIndex st' = (i + 1)%Z
     /\ at_index (history st') (historyIndex st') = Some (mkHist a b)
     /\ atoms st' = a /\ bonds st' = b)
  /\ ((0 < i)%Z -> exists prev,
        at_index (history st) (i - 1) = Some prev
        /\ undo st = Done (st |> setAtoms (h_atoms prev) |> setBonds (h_bonds prev)
                              |> setHistoryIndex (i - 1)))
  /\ ((i < last)%Z -> exists next,
        at_index (history st) (i + 1) = Some next
        /\ redo st = Done (st |> setAtoms (h_atoms next) |> setBonds (h_bonds next)
                              |> setHistoryIndex (i + 1)))
  /\ (i = 0%Z -> undo st = Done st)
  /\ (i = last -> redo st = Done st)
  /\ (forall a b cur, at_index (history st) i = Some cur ->
        exists st1 st2,
          undo (commitToHistory a b st) = Done st1
          /\ atoms st1 = h_atoms cur /\ bonds st1 = h_bonds cur /\ historyIndex st1 = i
          /\ redo st1 = Done st2
          /\ atoms st2 = a /\ bonds st2 = b /\ historyIndex st2 = (i + 1)%Z)
  /\ (forall cur st1, (0 < i)%Z -> at_index (history st) i = Some cur ->
        undo st = Done st1 ->
        exists st2, redo st1 = Done st2
          /\ atoms st2 = h_atoms cur /\ bonds st2 = h_bonds cur /\ historyIndex st2 = i).
Proof.
  intros Hr i last.
  split_and.
  - intros a b st'. destruct (commit_history a b st Hr) as [E1 E2].
    split_and.
    + exact E1.
    + intros j Hj. fold st' in E1. rewrite E1. apply at_index_firstn; lia.
    + reflexivity.
    + exact E2.
    + fold st' in E1, E2. rewrite E1, E2.
      replace (historyIndex st + 1)%Z
        with (Z.of_nat (List.length (firstn (S (Z.to_nat (historyIndex st))) (history st))))
        by (rewrite length_firstn; lia).
      apply at_index_app_last.
    + reflexivity.
    + reflexivity.
  - intros Hi. destruct (at_index_in_range (history st) (i - 1)) as [prev Hp]; [lia|].
    exists prev. split; [assumption|]. unfold undo. fold i.
    destruct (Z.ltb_spec 0 i); [|lia]. now rewrite Hp.
  - intros Hi. destruct (at_index_in_range (history st) (i + 1)) as [next Hn]; [lia|].
    exists next. split; [assumption|]. unfold redo. fold i. fold last.
    destruct (Z.ltb_spec i last); [|lia]. now rewrite Hn.
  - intros Hi. unfold undo. fold i. rewrite Hi. reflexivity.
  - intros Hi. unfold redo. fold i. fold last.
    destruct (Z.ltb_spec i last); [lia|reflexivity].
  - intros a b cur Hcur.
    destruct (commit_history a b st Hr) as [E1 E2].
    remember (commitToHistory a b st) as st' eqn:Est'.
    assert (Hprev : at_index (history st') (historyIndex st' - 1) = Some cur).
    { rewrite E1, E2. replace (historyIndex st + 1 - 1)%Z with i by (unfold i; lia).
      rewrite at_index_firstn by lia. exact Hcur. }
    eexists. eexists. split.
    { unfold undo. destruct (Z.ltb_spec 0 (historyIndex st')); [|lia].
      rewrite Hprev. reflexivity. }
    split; [reflexivity|]. split; [reflexivity|]. split; [simpl; unfold i; lia|].
    split.
    { unfold redo. simpl historyIndex. simpl history.
      rewrite E1 at 1. rewrite length_app, length_firstn. simpl List.length.
      destruct (Z.ltb_spec (historyIndex st' - 1)
                  (Z.of_nat (Nat.min (S (Z.to_nat (historyIndex st))) (List.length (history st)) + 1) - 1)); [|lia].
      replace (historyIndex st' - 1 + 1)%Z with (historyIndex st') by lia.
      assert (Hlast : at_index (history st') (historyIndex st') = Some (mkHist a b)).
      { rewrite E1, E2.
        replace (historyIndex st + 1)%Z
          with (Z.of_nat (List.length (firstn (S (Z.to_nat (historyIndex st))) (history st))))
          by (rewrite length_firstn; lia).
        apply at_index_app_last. }
      rewrite Hlast. reflexivity. }
    simpl. split_and; try reflexivity; unfold i; lia.
  - intros cur st1 Hi Hcur Hu.
    unfold undo in Hu. fold i in Hu.
    destruct (Z.ltb_spec 0 i); [|lia].
    destruct (at_index (history st) (i - 1)) as [prev|] eqn:Hp; [|discriminate].
    injection Hu as <-.
    eexists. split.
    { unfold redo. simpl historyIndex. simpl history.
      destruct (Z.ltb_spec (i - 1) (Z.of_nat (List.length (history st)) - 1)); [|unfold i in *; lia].
      replace (i - 1 + 1)%Z with i by lia. rewrite Hcur. reflexivity. }
    simpl. split_and; try reflexivity; lia.
Qed.

Lemma C3_history_stack_witness :
  (0 <= historyIndex initialEditor
     < Z.of_nat (List.length (history initialEditor)))%Z
  /\ undo initialEditor = Done initialEditor
  /\ redo initialEditor = Done initialEditor.
Proof.
  assert (H : (0 <= historyIndex initialEditor
                 < Z.of_nat (List.length (history initialEditor)))%Z)
    by (simpl; lia).
  split; [exact H|].
  destruct (C3_history_stack initialEditor H) as (_ & _ & _ & Hu & Hr & _).
  split; [apply Hu; reflexivity | apply Hr; reflexivity].
Defined.

(** ** Implicit hydrogens and labels *)

Lemma fold_left_orderSum (l : list BondData) (acc : Z) :
  fold_left (fun sum b => (sum + b_type b)%Z) l acc = (acc + orderSum l)%Z.
Proof.
  revert acc. induction l as [|b l IH]; intros acc; simpl.
  - lia.
  - rewrite IH. lia.
Qed.

Lemma currentValence_orderSum (atom : AtomData) (bonds : list BondData) :
  currentValence atom bonds = orderSum (filter (incident (a_id atom)) bonds).
Proof.
  unfold currentValence, connectedBonds. now rewrite fold_left_orderSum.
Qed.

(** The test of [connectedBonds] holds exactly for the bonds with an end
    at the atom. *)
Lemma incident_touches (i : string) (b : BondData) :
  incident i b = true <-> touches i b.
Proof.
  unfold incident, touches.
  rewrite orb_true_iff, !String.eqb_eq. reflexivity.
Qed.

(** The sum that [getAtomLabel] folds over the filtered bonds is the sum
    of the orders of the incident bonds. *)
Lemma currentValence_incident (atom : AtomData) (bonds : list BondData) :
  currentValence atom bonds = incidentOrderSum (a_id atom) bonds.
Proof.
  rewrite currentValence_orderSum.
  induction bonds as [|b l IH]; [reflexivity|].
  cbn [filter incidentOrderSum]. unfold incident at 1.
  destruct (string_dec (b_source b) (a_id atom)) as [E|E].
  - rewrite (proj2 (String.eqb_eq _ _) E). cbn [orb orderSum]. now rewrite IH.
  - rewrite (proj2 (String.eqb_neq _ _) E). cbn [orb].
    destruct (string_dec (b_target b) (a_id atom)) as [E'|E'].
    + rewrite (proj2 (String.eqb_eq _ _) E'). cbn [orderSum]. now rewrite IH.
    + rewrite (proj2 (String.eqb_neq _ _) E'). rewrite IH. lia.
Qed.

Lemma incidentOrderSum_none (i : string) (l : list BondData) :
  (forall b, In b l -> ~ touches i b) -> incidentOrderSum i l = 0%Z.
Proof.
  induction l as [|b l IH]; intros H; [reflexivity|].
  cbn [incidentOrderSum].
  assert (Hb : ~ touches i b) by (apply H; now left).
  destruct (string_dec (b_source b) i) as [E|_]; [exfalso; apply Hb; now left|].
  destruct (string_dec (b_target b) i) as [E|_]; [exfalso; apply Hb; now right|].
  rewrite IH; [reflexivity|]. intros c Hc. apply H. now right.
Qed.

Lemma valenceOf_table (el : string) (v : Z) :
  In (el, v) specValence -> valenceOf el = v.
Proof.
  unfold specValence. cbn [In]. intros H.
  repeat (destruct H as [H|H]; [injection H as <- <-; reflexivity|]).
  contradiction.
Qed.

(** [C4] For an atom whose element the valence table lists with the
    valence [v], and any bond list: the implicit hydrogen count is
    [max(0, v - s)], where [s] adds the orders of the bonds that have an
    end at the atom, each bond once; an atom that no bond of the list
    touches gets [v]. *)
Theorem C4_implicit_hydrogens (atom : AtomData) (bonds : list BondData) (v : Z) :
  In (a_element atom, v) specValence ->
  implicitH atom bonds = Z.max 0 (v - incidentOrderSum (a_id atom) bonds)
  /\ ((forall b, In b bonds -> ~ touches (a_id atom) b) -> implicitH atom bonds = v).
Proof.
  intros Hv.
  assert (Hshape : implicitH atom bonds = Z.max 0 (v - incidentOrderSum (a_id atom) bonds)).
  { unfold implicitH. now rewrite currentValence_incident, (valenceOf_table _ _ Hv). }
  split; [exact Hshape|].
  intros Hnone. rewrite Hshape, incidentOrderSum_none by assumption.
  assert (0 < v)%Z; [|lia].
  unfold specValence in Hv. cbn [In] in Hv.
  repeat (destruct Hv as [Hv|Hv]; [injection Hv as _ <-; lia|]).
  contradiction.
Qed.

(** A nitrogen with a single bond stored towards it and a double bond
    stored away from it, next to a bond that does not touch it: no
    implicit hydrogen is left. *)
Lemma C4_implicit_hydrogens_witness :
  let bonds := [mkBond "b1" "c1" "n1" 1; mkBond "b2" "c1" "c2" 1;
                mkBond "b3" "n1" "c3" 2] in
  In ("N"%string, 3%Z) specValence
  /\ incidentOrderSum "n1" bonds = 3%Z
  /\ implicitH (mkAtom "n1" 0 0 "N") bonds = Z.max 0 (3 - 3).
Proof.
  intros bonds.
  assert (Hv : In (a_element (mkAtom "n1" 0 0 "N"), 3%Z) specValence)
    by (cbn; tauto).
  split; [exact Hv|]. split; [reflexivity|].
  exact (proj1 (C4_implicit_hydrogens (mkAtom "n1" 0 0 "N") bonds 3 Hv)).
Defined.




(** ** View transform *)

Lemma clamp_max_min (x lo hi : R) : lo <= hi -> Rmax lo (Rmin hi x) = clamp x lo hi.
Proof.
  intros H. unfold clamp, Rmax, Rmin.
  destruct (Rle_dec hi x), (Rlt_dec x lo), (Rlt_dec hi x);
    try destruct (Rle_dec lo hi); try destruct (Rle_dec lo x); lra.
Qed.

(** With exact arithmetic the zoom keeps the world point under the
    pointer. *)
Lemma zoom_exact (env : Env) (st : Editor) (e : WheelEvent) (rect : Vec2) :
  isReadOnly env = false ->
  svgRect env = Some rect ->
  view_k (view st) <> 0 ->
  let px := w_clientX e - vx rect in
  let py := w_clientY e - vy rect in
  let k := view_k (view st) in
  let w := getPointerCoords env st (w_clientX e) (w_clientY e) in
  let k' := clamp (k * (1 - deltaY e * 0.001)) 0.1 5 in
  let st' := handleWheel env st e in
  w = mkVec ((px - view_x (view st)) / k) ((py - view_y (view st)) / k)
  /\ view st' = mkView (px - vx w * k') (py - vy w * k') k'
  /\ 0.1 <= view_k (view st') <= 5
  /\ getPointerCoords env st' (w_clientX e) (w_clientY e) = w
  /\ st' = setView (view st') st.
Proof.
  intros Hro Hrect _ px py k w k' st'.
  assert (Hw : w = mkVec ((px - view_x (view st)) / k) ((py - view_y (view st)) / k)).
  { unfold w, getPointerCoords. rewrite Hrect. reflexivity. }
  assert (Hv : view st' = mkView (px - vx w * k') (py - vy w * k') k').
  { unfold st', handleWheel. rewrite Hro, Hrect. cbn [view setView].
    rewrite clamp_max_min by lra. rewrite Hw. reflexivity. }
  assert (Hk : 0.1 <= k' <= 5).
  { unfold k', clamp.
    destruct (Rlt_dec _ 0.1); [lra|]. destruct (Rlt_dec 5 _); lra. }
  split_and.
  - exact Hw.
  - exact Hv.
  - rewrite Hv. cbn [view_k]. lra.
  - rewrite Hv. cbn [view_k]. lra.
  - unfold getPointerCoords at 1. rewrite Hrect, Hv. cbn [view_x view_y view_k].
    fold px py. destruct w as [wx wy]. cbn [vx vy]. f_equal; field; lra.
  - unfold st', handleWheel. rewrite Hro, Hrect. reflexivity.
Qed.

(** *** The order of binary64 against the bounds of the zoom *)

Lemma SFeqb_refl (f : spec_float) : f <> S754_nan -> SFeqb f f = true.
Proof.
  intros H. unfold SFeqb. destruct f as [[|]|[|]| |[|] m e]; cbn;
    rewrite ?Z.compare_refl, ?Pos.compare_cont_refl; try reflexivity.
  contradiction.
Qed.

Lemma is_nan_nan (x : float) : is_nan x = true -> x = nan.
Proof.
  unfold is_nan. rewrite FloatAxioms.eqb_spec. intros H.
  apply Prim2SF_inj.
  destruct (Prim2SF x) eqn:E; try reflexivity;
    rewrite SFeqb_refl in H by discriminate; discriminate.
Qed.

Section AgainstBounds.

(** Two positive bounds [lo < hi], told apart by their exponents. *)
Variables mlo mhi : positive.
Variables elo ehi : Z.
Hypothesis bounds_apart : (elo < ehi)%Z.
Let lo := S754_finite false mlo elo.
Let hi := S754_finite false mhi ehi.

Lemma above_not_below (f : spec_float) : SFltb hi f = true -> SFltb f lo = false.
Proof.
  unfold SFltb, hi, lo.
  destruct f as [[|]|[|]| |[|] m e]; cbn; try congruence; try discriminate.
  destruct (Z.compare_spec ehi e), (Z.compare_spec e elo); try lia; congruence.
Qed.

Lemma not_both_sides (f : spec_float) : SFltb lo f = true -> SFltb f lo = false.
Proof.
  unfold SFltb, lo.
  destruct f as [[|]|[|]| |[|] m e]; cbn; try congruence; try discriminate.
  destruct (Z.compare_spec elo e), (Z.compare_spec e elo); try lia; try congruence.
  change (PosDef.Pos.compare_cont Eq mlo m) with (Pos.compare mlo m).
  change (PosDef.Pos.compare_cont Eq m mlo) with (Pos.compare m mlo).
  destruct (Pos.compare_spec mlo m), (Pos.compare_spec m mlo); try lia; congruence.
Qed.

Lemma neither_side (f : spec_float) :
  f <> S754_nan -> SFltb lo f = false -> SFltb f lo = false -> f = lo.
Proof.
  unfold SFltb, lo.
  destruct f as [[|]|[|]| |[|] m e]; cbn; try congruence; try discriminate.
  intros _.
  destruct (Z.compare_spec elo e), (Z.compare_spec e elo); try lia; try congruence.
  change (PosDef.Pos.compare_cont Eq mlo m) with (Pos.compare mlo m).
  change (PosDef.Pos.compare_cont Eq m mlo) with (Pos.compare m mlo).
  destruct (Pos.compare_spec mlo m), (Pos.compare_spec m mlo); try lia; congruence.
Qed.

End AgainstBounds.

(** [Math.max(0.1, Math.min(5, x))] brings [x] into the interval from
    0.1 to 5, for every binary64 number [x]; [NaN] stays [NaN]. *)
Lemma clamp_max_min64 (x : float) :
  B64.Math_max 0.1 (B64.Math_min 5 x) = B64.clamp x 0.1 5.
Proof.
  assert (Hlo : Prim2SF 0.1 = S754_finite false 7205759403792794 (-56)) by reflexivity.
  assert (Hhi : Prim2SF 5 = S754_finite false 5629499534213120 (-50)) by reflexivity.
  assert (He : (-56 < -50)%Z) by lia.
  destruct (is_nan x) eqn:Hn.
  - apply is_nan_nan in Hn. subst x. reflexivity.
  - assert (Hx : Prim2SF x <> S754_nan).
    { intros E. unfold is_nan in Hn. rewrite FloatAxioms.eqb_spec, E in Hn. discriminate. }
    unfold B64.clamp, B64.Math_min. rewrite Hn.
    change (is_nan 5) with false. change (get_sign 5) with false. cbn [orb].
    destruct (PrimFloat.ltb 5 x) eqn:H5x.
    + replace (PrimFloat.ltb x 0.1) with false; [reflexivity|].
      symmetry. rewrite FloatAxioms.ltb_spec, Hlo. rewrite FloatAxioms.ltb_spec, Hhi in H5x.
      eapply above_not_below; [exact He|exact H5x].
    + replace (if PrimFloat.ltb x 5 then x else x) with x by now destruct (PrimFloat.ltb x 5).
      unfold B64.Math_max. rewrite Hn.
      change (is_nan 0.1) with false. change (get_sign 0.1) with false. cbn [orb].
      destruct (PrimFloat.ltb 0.1 x) eqn:H1.
      * replace (PrimFloat.ltb x 0.1) with false; [reflexivity|].
        symmetry. rewrite FloatAxioms.ltb_spec, Hlo in *. now apply not_both_sides.
      * destruct (PrimFloat.ltb x 0.1) eqn:H2; [reflexivity|].
        rewrite FloatAxioms.ltb_spec, Hlo in *.
        apply Prim2SF_inj. rewrite Hlo. symmetry. now apply neither_side.
Qed.

(** [C8] In the binary64 arithmetic of the program, with the handlers
    enabled and the canvas mounted, a wheel event with delta [d] at the
    screen point [p] does the following for every view and every event:
    the scale becomes [k' = clamp(k * (1 - d * 0.001), 0.1, 5)], the
    offset becomes [p - w * k'] for the world point [w] under [p] in the
    old view, nothing but the view changes, and the pointer is mapped to
    [(p - (p - w * k')) / k'] afterwards. *)
Theorem C8_wheel_zoom (env : B64.Env) (st : B64.Editor) (e : B64.WheelEvent)
  (rect : B64.Vec2) :
  B64.isReadOnly env = false ->
  B64.svgRect env = Some rect ->
  let px := (B64.w_clientX e - B64.vx rect)%float in
  let py := (B64.w_clientY e - B64.vy rect)%float in
  let w := B64.getPointerCoords env st (B64.w_clientX e) (B64.w_clientY e) in
  let k' := B64.zoomScale (B64.view_k (B64.view st)) (B64.deltaY e) in
  let st' := B64.handleWheel env st e in
  B64.view st' = B64.mkView (px - B64.vx w * k')%float (py - B64.vy w * k')%float k'
  /\ st' = B64.setView (B64.view st') st
  /\ B64.getPointerCoords env st' (B64.w_clientX e) (B64.w_clientY e)
     = B64.mkVec ((px - (px - B64.vx w * k')) / k')%float
                 ((py - (py - B64.vy w * k')) / k')%float.
Proof.
  intros Hro Hrect px py w k' st'.
  assert (Hv : B64.view st'
               = B64.mkView (px - B64.vx w * k')%float (py - B64.vy w * k')%float k').
  { unfold st', B64.handleWheel. rewrite Hro, Hrect. cbn [B64.view B64.setView].
    rewrite clamp_max_min64. unfold w, B64.getPointerCoords. rewrite Hrect.
    reflexivity. }
  split_and.
  - exact Hv.
  - unfold st', B64.handleWheel. rewrite Hro, Hrect. reflexivity.
  - unfold B64.getPointerCoords at 1. rewrite Hrect, Hv. reflexivity.
Qed.

(** A wheel event with the delta 100 at the screen point (767, 0) on a
    fresh view: the scale becomes 0.9 and the offset
    76.69999999999993. *)
Lemma C8_wheel_zoom_witness :
  B64.isReadOnly B64.exEnv = false
  /\ B64.svgRect B64.exEnv = Some (B64.mkVec 0 0)
  /\ B64.zoomScale 1 100 = 0.9%float
  /\ B64.view (B64.handleWheel B64.exEnv B64.initialEditor (B64.mkWheel 767 0 100))
     = B64.mkView 76.69999999999993 0 0.9.
Proof.
  split; [reflexivity|]. split; [reflexivity|]. split; [reflexivity|].
  rewrite (proj1 (C8_wheel_zoom B64.exEnv B64.initialEditor
                    (B64.mkWheel 767 0 100) (B64.mkVec 0 0) eq_refl eq_refl)).
  reflexivity.
Defined.

(** In the program the world point under the pointer is not the same
    before and after the zoom: for the wheel event above the pointer at
    x = 767 lies on the world coordinate 767 before the zoom and on
    767.0000000000001 after it. *)
Lemma C8_counterexample :
  let e := B64.mkWheel 767 0 100 in
  let st' := B64.handleWheel B64.exEnv B64.initialEditor e in
  B64.getPointerCoords B64.exEnv B64.initialEditor 767 0 = B64.mkVec 767 0
  /\ B64.getPointerCoords B64.exEnv st' 767 0 = B64.mkVec 767.0000000000001 0
  /\ PrimFloat.eqb (B64.vx (B64.getPointerCoords B64.exEnv st' 767 0))
                   (B64.vx (B64.getPointerCoords B64.exEnv B64.initialEditor 767 0))
     = false
  /\ B64.getPointerCoords B64.exEnv st' 767 0
     <> B64.getPointerCoords B64.exEnv B64.initialEditor 767 0.
Proof.
  cbv zeta.
  assert (Hne : PrimFloat.eqb
                  (B64.vx (B64.getPointerCoords B64.exEnv
                     (B64.handleWheel B64.exEnv B64.initialEditor (B64.mkWheel 767 0 100))
                     767 0))
                  (B64.vx (B64.getPointerCoords B64.exEnv B64.initialEditor 767 0))
                = false) by reflexivity.
  split; [reflexivity|]. split; [reflexivity|]. split; [exact Hne|].
  intros E. rewrite E in Hne. discriminate Hne.
Qed.

(** ** Prop synchronisation *)

(** The two objects that the effect serialises never have the same
    keys: only the new one has [view]. *)
Lemma propSync_keys_differ (value : Value) (vatoms : list AtomData)
  (vbonds : list BondData) (st : Editor) :
  keysOf (currentObject st) <> keysOf (newObject value vatoms vbonds st).
Proof. cbn. discriminate. Qed.




(** ** Angle snapping and the draw gesture *)

Lemma num_lt_true (a b : R) : num_lt a b = true <-> a < b.
Proof. unfold num_lt. destruct (Rlt_dec a b); split; intros; try easy. Qed.

Lemma num_lt_false (a b : R) : num_lt a b = false <-> ~ a < b.
Proof. unfold num_lt. destruct (Rlt_dec a b); split; intros; try easy. Qed.

Lemma distance_value (a b : Vec2) (d : R) :
  0 <= d ->
  (vx a - vx b) * (vx a - vx b) + (vy a - vy b) * (vy a - vy b) = d * d ->
  distance a b = d.
Proof.
  intros Hd H. unfold distance, vec.len, vec.sub. cbn [vx vy].
  rewrite H. now apply sqrt_square.
Qed.

Lemma Math_round_nearest (v : R) :
  exists k : Z, Math_round v = IZR k /\ - / 2 <= v - IZR k < / 2.
Proof.
  exists (Zfloor (v + / 2)). split; [reflexivity|].
  pose proof (Zfloor_bound (v + / 2)). lra.
Qed.

Lemma len_scaled_unit (a c : R) :
  0 <= c -> sqrt ((cos a * c) * (cos a * c) + (sin a * c) * (sin a * c)) = c.
Proof.
  intros Hc.
  replace ((cos a * c) * (cos a * c) + (sin a * c) * (sin a * c))
    with (c * c * ((sin a)² + (cos a)²)) by (unfold Rsqr; ring).
  rewrite sin2_cos2, Rmult_1_r. now apply sqrt_square.
Qed.

Lemma snapToAngle_shape (ax ay px py : R) :
  exists k : Z,
    snapToAngle ax ay px py
      = vec.add (mkVec ax ay) (mkVec (60 * cos (IZR k * (PI / 6))) (60 * sin (IZR k * (PI / 6))))
    /\ Rabs (Math_atan2 (py - ay) (px - ax) - IZR k * (PI / 6)) <= PI / 12.
Proof.
  pose proof PI_RGT_0 as Hpi.
  destruct (Math_round_nearest (Math_atan2 (py - ay) (px - ax) / (PI / 6))) as (k & Hk & Hb).
  exists k. split.
  - unfold snapToAngle, vec.add. cbn [vx vy]. rewrite Hk. f_equal; lra.
  - set (d := Math_atan2 (py - ay) (px - ax)) in *.
    assert (Hd : d = d / (PI / 6) * (PI / 6)) by (field; lra).
    set (v := d / (PI / 6)) in *.
    apply Rabs_le. rewrite Hd. split; nra.
Qed.

Lemma snapToAngle_distance (ax ay px py : R) :
  distance (mkVec ax ay) (snapToAngle ax ay px py) = 60.
Proof.
  unfold distance, vec.len, vec.sub, snapToAngle. cbn [vx vy].
  set (a := Math_round _ * _).
  replace ((ax - (ax + cos a * (40 * 1.5))) * (ax - (ax + cos a * (40 * 1.5)))
           + (ay - (ay + sin a * (40 * 1.5))) * (ay - (ay + sin a * (40 * 1.5))))
    with ((cos a * 60) * (cos a * 60) + (sin a * 60) * (sin a * 60)) by lra.
  apply len_scaled_unit. lra.
Qed.

Lemma hyp_scaled (x y : R) :
  x <> 0 -> sqrt (x * x + y * y) = Rabs x * sqrt (1 + (y / x)²).
Proof.
  intros Hx.
  replace (x * x + y * y) with ((x * x) * (1 + (y / x)²)) by (unfold Rsqr; field; assumption).
  rewrite sqrt_mult_alt by nra.
  f_equal. replace (x * x) with (x²) by reflexivity. apply sqrt_Rsqr_abs.
Qed.

(** [Math_atan2] is the direction of its argument: a point other than
    the origin is its length times the cosine and sine of that angle. *)
Lemma Math_atan2_direction (x y : R) :
  x <> 0 \/ y <> 0 ->
  x = sqrt (x * x + y * y) * cos (Math_atan2 y x)
  /\ y = sqrt (x * x + y * y) * sin (Math_atan2 y x).
Proof.
  intros Hnz. unfold Math_atan2.
  assert (Hs : forall z, 0 < sqrt (1 + z²)).
  { intros z. apply sqrt_lt_R0. pose proof (Rle_0_sqr z). lra. }
  destruct (Rlt_dec 0 x) as [Hx|Hx].
  - rewrite hyp_scaled by lra. rewrite Rabs_pos_eq by lra.
    rewrite cos_atan, sin_atan. specialize (Hs (y / x)).
    split; field; lra.
  - destruct (Rlt_dec x 0) as [Hx'|Hx'].
    + rewrite hyp_scaled by lra. rewrite Rabs_left by lra.
      specialize (Hs (y / x)).
      destruct (Rlt_dec y 0).
      * unfold Rminus. rewrite cos_plus, sin_plus, cos_neg, sin_neg, cos_PI, sin_PI.
        rewrite cos_atan, sin_atan. split; field; lra.
      * rewrite cos_plus, sin_plus, cos_PI, sin_PI.
        rewrite cos_atan, sin_atan. split; field; lra.
    + assert (x = 0) by lra. subst x.
      replace (0 * 0 + y * y) with (y²) by (unfold Rsqr; ring).
      rewrite sqrt_Rsqr_abs.
      destruct (Rlt_dec 0 y).
      * rewrite cos_PI2, sin_PI2, Rabs_pos_eq by lra. lra.
      * destruct (Rlt_dec y 0).
        -- rewrite cos_neg, sin_neg, cos_PI2, sin_PI2, Rabs_left by lra. lra.
        -- exfalso. destruct Hnz; lra.
Qed.

(** The first element that [find] meets. *)
Lemma find_first {A} (f : A -> bool) (l : list A) (a : A) :
  find f l = Some a ->
  exists l1 l2, l = l1 ++ a :: l2 /\ f a = true /\ forall x, In x l1 -> f x = false.
Proof.
  induction l as [|y l IH]; intros H; [discriminate|].
  cbn [find] in H. destruct (f y) eqn:Hy.
  - injection H as <-. exists [], l. split_and; [reflexivity|assumption|intros x []].
  - destruct (IH H) as (l1 & l2 & -> & Ha & Hl1).
    exists (y :: l1), l2. split_and; [reflexivity|assumption|].
    intros x [<-|Hx]; [assumption|now apply Hl1].
Qed.

(** [C5] In the binary64 arithmetic of the program, with the cosine, the
    sine and [atan2] of any engine, a pointer move of a draw gesture
    (draw tool, dragging, an anchor set, handlers enabled, no pan under
    way) does the following: the candidate is the anchor plus 60 times
    the cosine and the sine of the angle [round(atan2 / 30deg) * 30deg];
    when an atom with another id than the anchor has a computed distance
    below 20 from the raw pointer or from the candidate, the tracked
    position becomes the position of the first such atom of the list and
    its id the snap target; otherwise the tracked position is the
    candidate and the snap target is cleared; nothing else changes. *)
Theorem C5_draw_move_snaps (M : B64.Engine) (env : B64.Env) (st : B64.Editor)
  (e : B64.PointerEvent) (ds : B64.DragStart) :
  B64.isReadOnly env = false ->
  B64.isPanning st = false ->
  B64.tool st = draw ->
  B64.isDragging st = true ->
  B64.dragStart st = Some ds ->
  let raw := B64.getPointerCoords env st (B64.clientX e) (B64.clientY e) in
  let cand := B64.candidate M ds raw in
  let st' := B64.handlePointerMove M env st e in
  B64.snapToAngle M (B64.d_x ds) (B64.d_y ds) (B64.vx raw) (B64.vy raw) = cand
  /\ ((exists a, In a (B64.atoms st) /\ B64.near ds raw cand a) ->
      exists l1 a l2,
        B64.atoms st = l1 ++ a :: l2
        /\ B64.near ds raw cand a
        /\ (forall x, In x l1 -> ~ B64.near ds raw cand x)
        /\ B64.pointerPos st' = Some (B64.pos a)
        /\ B64.snapTargetId st' = Some (B64.a_id a))
  /\ ((forall a, In a (B64.atoms st) -> ~ B64.near ds raw cand a) ->
      B64.pointerPos st' = Some cand /\ B64.snapTargetId st' = None)
  /\ st' = (st |> B64.setPointerPos (B64.pointerPos st')
               |> B64.setSnapTargetId (B64.snapTargetId st')).
Proof.
  intros Hro Hpan Htool Hdrag Hds raw cand st'.
  assert (Hcand : B64.snapToAngle M (B64.d_x ds) (B64.d_y ds) (B64.vx raw) (B64.vy raw)
                  = cand) by reflexivity.
  set (test := fun a => negb (String.eqb (B64.a_id a) (B64.d_id ds))
                 && (PrimFloat.ltb (B64.distance (B64.pos a) raw) B64.BOND_SNAP_DIST
                     || PrimFloat.ltb (B64.distance (B64.pos a) cand) B64.BOND_SNAP_DIST)).
  assert (Htest : forall a, test a = true <-> B64.near ds raw cand a).
  { intros a. unfold test, B64.near, B64.BOND_SNAP_DIST.
    rewrite andb_true_iff, orb_true_iff, negb_true_iff.
    now rewrite String.eqb_neq. }
  assert (Htest' : forall a, test a = false -> ~ B64.near ds raw cand a).
  { intros a Hf Hn. apply Htest in Hn. congruence. }
  assert (Hst' : st' = match find test (B64.atoms st) with
                       | Some a => st |> B64.setPointerPos (Some (B64.pos a))
                                      |> B64.setSnapTargetId (Some (B64.a_id a))
                       | None => st |> B64.setPointerPos (Some cand)
                                    |> B64.setSnapTargetId None
                       end).
  { unfold st', B64.handlePointerMove. rewrite Hro, Hpan, Htool, Hdrag, Hds.
    cbv zeta. fold raw. rewrite Hcand. reflexivity. }
  split_and.
  - exact Hcand.
  - intros [a0 [Hin0 Hnear0]].
    destruct (find test (B64.atoms st)) as [a|] eqn:Hf.
    + destruct (find_first _ _ _ Hf) as (l1 & l2 & Hl & Ha & Hl1).
      exists l1, a, l2. rewrite Hst'. split_and; try reflexivity.
      * exact Hl.
      * now apply Htest.
      * intros x Hx. apply Htest'. now apply Hl1.
    + exfalso. pose proof (find_none _ _ Hf a0 Hin0) as Hn.
      apply Htest in Hnear0. congruence.
  - intros Hnone.
    destruct (find test (B64.atoms st)) as [a|] eqn:Hf.
    + apply find_some in Hf. destruct Hf as [Hin Ht].
      exfalso. apply (Hnone a Hin). now apply Htest.
    + rewrite Hst'. split; reflexivity.
  - rewrite Hst'. destruct (find test (B64.atoms st)); reflexivity.
Qed.

(** The gesture of the scene with the pointer at (0, -10): the atom [c]
    is within 20 of the candidate by the distance that the program
    computes, and the pointer locks on an atom. *)
Lemma C5_draw_move_snaps_witness :
  let env := B64.exEnv in
  let st := B64.snapState in
  let e := B64.mkPointer 0 (-10) in
  let ds := B64.mkDrag "a" 0 0 in
  let raw := B64.getPointerCoords env st (B64.clientX e) (B64.clientY e) in
  let cand := B64.candidate B64.exampleEngine ds raw in
  let st' := B64.handlePointerMove B64.exampleEngine env st e in
  B64.isReadOnly env = false /\ B64.isPanning st = false /\ B64.tool st = draw
  /\ B64.isDragging st = true /\ B64.dragStart st = Some ds
  /\ (exists a, In a (B64.atoms st) /\ B64.near ds raw cand a)
  /\ exists l1 a l2,
       B64.atoms st = l1 ++ a :: l2
       /\ B64.near ds raw cand a
       /\ (forall x, In x l1 -> ~ B64.near ds raw cand x)
       /\ B64.pointerPos st' = Some (B64.pos a)
       /\ B64.snapTargetId st' = Some (B64.a_id a).
Proof.
  intros env st e ds raw cand st'.
  assert (Hnear : exists a, In a (B64.atoms st) /\ B64.near ds raw cand a).
  { exists (B64.mkAtom "c" 20 (-60) "C"). split; [right; left; reflexivity|].
    split; [discriminate|]. right. reflexivity. }
  split; [reflexivity|]. split; [reflexivity|]. split; [reflexivity|].
  split; [reflexivity|]. split; [reflexivity|]. split; [exact Hnear|].
  exact (proj1 (proj2 (C5_draw_move_snaps B64.exampleEngine env st e ds
                         eq_refl eq_refl eq_refl eq_refl eq_refl)) Hnear).
Defined.

(** *** The gesture of the scene in exact arithmetic *)

Lemma snap_straight_up (y : R) : y < 0 -> snapToAngle 0 0 0 y = mkVec 0 (-60).
Proof.
  intros Hy. pose proof PI_RGT_0 as Hpi.
  assert (Ha : Math_atan2 (y - 0) (0 - 0) = - (PI / 2)).
  { unfold Math_atan2.
    destruct (Rlt_dec 0 (0 - 0)); [lra|]. destruct (Rlt_dec (0 - 0) 0); [lra|].
    destruct (Rlt_dec 0 (y - 0)); [lra|]. destruct (Rlt_dec (y - 0) 0); [reflexivity|lra]. }
  assert (Hr : Math_round (- (PI / 2) / (PI / 6)) = -3).
  { unfold Math_round. replace (- (PI / 2) / (PI / 6)) with (-3) by (field; lra).
    rewrite (Zfloor_eq (-3)); [reflexivity|]. cbn. lra. }
  unfold snapToAngle. rewrite Ha, Hr.
  replace (-3 * (PI / 6)) with (- (PI / 2)) by lra.
  rewrite cos_neg, sin_neg, cos_PI2, sin_PI2. f_equal; lra.
Qed.

Lemma snapState_raw :
  getPointerCoords exEnv snapState 0 (-10) = mkVec 0 (-10).
Proof. unfold getPointerCoords. cbn. f_equal; lra. Qed.

(** In exact arithmetic the candidate of the scene is (0, -60), the atom
    [c] lies exactly 20 from it, and the pointer follows the candidate. *)
Lemma snapState_exact :
  let st' := handlePointerMove exEnv snapState (mkPointer 0 (-10)) in
  snapToAngle 0 0 0 (-10) = mkVec 0 (-60)
  /\ distance (mkVec 20 (-60)) (mkVec 0 (-60)) = 20
  /\ pointerPos st' = Some (mkVec 0 (-60))
  /\ snapTargetId st' = None.
Proof.
  assert (Hcand : snapToAngle 0 0 0 (-10) = mkVec 0 (-60)) by (apply snap_straight_up; lra).
  assert (Hd : distance (mkVec 20 (-60)) (mkVec 0 (-60)) = 20)
    by (apply distance_value; cbn; lra).
  assert (Hraw : ~ distance (mkVec 20 (-60)) (mkVec 0 (-10)) < 20).
  { unfold distance, vec.len, vec.sub. cbn [vx vy].
    replace ((20 - 0) * (20 - 0) + (-60 - -10) * (-60 - -10)) with 2900 by lra.
    intros H. assert (H20 : sqrt (20 * 20) = 20) by (apply sqrt_square; lra).
    assert (sqrt (20 * 20) <= sqrt 2900) by (apply sqrt_le_1_alt; lra).
    lra. }
  cbv zeta.
  unfold handlePointerMove. cbn [isReadOnly exEnv].
  change (isPanning snapState) with false.
  change (tool snapState) with draw.
  change (isDragging snapState) with true.
  change (dragStart snapState) with (Some (mkDrag "a" 0 0)).
  change (atoms snapState) with [mkAtom "a" 0 0 "C"; mkAtom "c" 20 (-60) "C"].
  cbv zeta. cbn [clientX clientY d_id d_x d_y].
  rewrite snapState_raw. cbn [vx vy]. rewrite Hcand.
  cbn [find a_id pos a_x a_y].
  change (negb ("a" =? "a")%string) with false. cbn [andb].
  change (negb ("c" =? "a")%string) with true. cbn [andb].
  unfold BOND_SNAP_DIST.
  change (pos (mkAtom "c" 20 (-60) "C")) with (mkVec 20 (-60)).
  rewrite (proj2 (num_lt_false _ _) Hraw).
  replace (num_lt (distance (mkVec 20 (-60)) (mkVec 0 (-60))) 20) with false
    by (symmetry; apply num_lt_false; rewrite Hd; lra).
  cbn [orb]. split_and; [reflexivity|exact Hd|reflexivity|reflexivity].
Qed.

(** On the scene the claim puts the candidate at (0, -60), 60 from the
    anchor in the direction of -90 degrees, and the atom [c], exactly 20
    away from it and further from the raw pointer (also by the distances
    that the program computes), is not locked on.  The program computes
    the candidate (3.67394039744206e-15, -60), finds [c] at the distance
    19.999999999999996 from it, and locks the pointer on [c]. *)
Lemma C5_counterexample :
  let e := B64.mkPointer 0 (-10) in
  let raw := B64.getPointerCoords B64.exEnv B64.snapState 0 (-10) in
  let cand := B64.snapToAngle B64.exampleEngine 0 0 (B64.vx raw) (B64.vy raw) in
  let st' := B64.handlePointerMove B64.exampleEngine B64.exEnv B64.snapState e in
  cand = B64.mkVec 3.67394039744206e-15 (-60)
  /\ cand <> B64.mkVec 0 (-60)
  /\ B64.distance (B64.mkVec 20 (-60)) cand = 19.999999999999996%float
  /\ PrimFloat.ltb (B64.distance (B64.mkVec 20 (-60)) (B64.mkVec 0 (-60))) 20 = false
  /\ PrimFloat.ltb (B64.distance (B64.mkVec 20 (-60)) raw) 20 = false
  /\ B64.pointerPos st' = Some (B64.mkVec 20 (-60))
  /\ B64.snapTargetId st' = Some "c"%string
  /\ snapToAngle 0 0 0 (-10) = mkVec 0 (-60)
  /\ distance (mkVec 20 (-60)) (mkVec 0 (-60)) = 20
  /\ pointerPos (handlePointerMove exEnv snapState (mkPointer 0 (-10)))
     = Some (mkVec 0 (-60))
  /\ snapTargetId (handlePointerMove exEnv snapState (mkPointer 0 (-10))) = None.
Proof.
  cbv zeta. destruct snapState_exact as (E1 & E2 & E3 & E4).
  split_and; try assumption; try reflexivity.
  intros E.
  assert (Hx : PrimFloat.eqb 3.67394039744206e-15 0 = false) by reflexivity.
  apply (f_equal B64.vx) in E.
  change (3.67394039744206e-15%float = 0%float) in E.
  rewrite E in Hx. discriminate Hx.
Qed.

(** ** Bond order cycling by repeated drags *)

Lemma findIndex_Some {A} (f : A -> bool) (l : list A) (i : nat) :
  findIndex f l = Some i ->
  exists b, nth_error l i = Some b /\ f b = true
            /\ forall j c, (j < i)%nat -> nth_error l j = Some c -> f c = false.
Proof.
  revert i. induction l as [|a l IH]; intros i H; simpl in H; [discriminate|].
  destruct (f a) eqn:Ha.
  - injection H as <-. exists a. split_and; auto. intros j c Hj. lia.
  - destruct (findIndex f l) as [k|]; [|discriminate].
    injection H as <-. destruct (IH k eq_refl) as (b & Hb & Hfb & Hfirst).
    exists b. split_and; auto.
    intros [|j] c Hj Hc; simpl in Hc.
    + now injection Hc as <-.
    + apply (Hfirst j c); [lia|assumption].
Qed.

Lemma findIndex_exists {A} (f : A -> bool) (l : list A) :
  (exists b, In b l /\ f b = true) -> exists i, findIndex f l = Some i.
Proof.
  induction l as [|a l IH]; intros (b & Hin & Hb); [contradiction|].
  simpl. destruct (f a) eqn:Ha; [eauto|].
  destruct Hin as [->|Hin]; [congruence|].
  destruct IH as [i Hi]; [eauto|]. rewrite Hi. simpl. eauto.
Qed.

Lemma length_setAt {A} (l : list A) (i : nat) (v : A) :
  List.length (setAt l i v) = List.length l.
Proof.
  revert i. induction l as [|a l IH]; intros [|i]; simpl; auto.
Qed.

Lemma nth_error_setAt {A} (l : list A) (i j : nat) (v : A) :
  nth_error (setAt l i v) j
  = if (j =? i)%nat then option_map (fun _ => v) (nth_error l j) else nth_error l j.
Proof.
  revert i j. induction l as [|a l IH]; intros [|i] [|j]; simpl; auto.
  now destruct (j =? i)%nat.
Qed.

Lemma findIndex_setAt {A} (f : A -> bool) (l : list A) (i : nat) (v : A) :
  findIndex f l = Some i -> f v = true -> findIndex f (setAt l i v) = Some i.
Proof.
  revert i. induction l as [|a l IH]; intros i H Hv; simpl in H; [discriminate|].
  destruct (f a) eqn:Ha.
  - injection H as <-. simpl. now rewrite Hv.
  - destruct (findIndex f l) as [k|] eqn:Hk; [|discriminate].
    injection H as <-. simpl. rewrite Ha, (IH k eq_refl Hv). reflexivity.
Qed.

Lemma nextType_cycle :
  nextType 1 = 2%Z /\ nextType 2 = 3%Z /\ nextType 3 = 1%Z.
Proof. repeat split. Qed.

(** [handlePointerUp] at the end of a drag of the draw tool. *)
Lemma pointerUp_drag (env : Env) (st : Editor) (e : PointerEvent) (rid bid : string)
  (ds : DragStart) (pp : Vec2) :
  isReadOnly env = false -> isPanning st = false -> tool st = draw ->
  isDragging st = true -> dragStart st = Some ds -> pointerPos st = Some pp ->
  ~ distance (dragPos ds) pp < 5 ->
  handlePointerUp env st e rid bid
  = endGesture (commitToHistory (fst (dragResult st ds pp rid bid))
                                (snd (dragResult st ds pp rid bid)) st).
Proof.
  intros Hro Hpan Htool Hdrag Hds Hpp Hfar.
  unfold handlePointerUp. rewrite Hro, Hpan, Htool, Hdrag, Hds, Hpp.
  cbn [tool_eqb andb]. apply num_lt_false in Hfar. rewrite Hfar.
  destruct (dragResult st ds pp rid bid). reflexivity.
Qed.

Lemma setAt_setAt {A} (l : list A) (i : nat) (v w : A) :
  setAt (setAt l i v) i w = setAt l i w.
Proof.
  revert i. induction l as [|a l IH]; intros [|i]; simpl; auto. now rewrite IH.
Qed.

Lemma setAt_same {A} (l : list A) (i : nat) (v : A) :
  nth_error l i = Some v -> setAt l i v = l.
Proof.
  revert i. induction l as [|a l IH]; intros [|i] H; simpl in *; auto.
  - now injection H as ->.
  - now rewrite IH.
Qed.

(** Reads a field through the setters of the binary64 state. *)
Ltac simpl_state64 :=
  cbn [B64.atoms B64.bonds B64.view B64.history B64.historyIndex B64.tool
       B64.activeElement B64.dragStart B64.pointerPos B64.hoveredAtom
       B64.isDragging B64.snapTargetId B64.isPanning B64.panStart
       B64.setAtoms B64.setBonds B64.setView B64.setHistory B64.setHistoryIndex
       B64.setDragStart B64.setPointerPos B64.setHoveredAtom B64.setIsDragging
       B64.setSnapTargetId B64.setIsPanning B64.setPanStart
       B64.commitToHistory B64.endGesture].

(** One drag between two atoms that a bond joins, in binary64: the
    first bond between the two atoms gets the next order, and that graph
    is committed. *)
Lemma dragGesture_existing (M : B64.Engine) (env : B64.Env) (st : B64.Editor)
  (down move up : B64.PointerEvent) (rid0 rid1 bid : string) (A B : B64.AtomData)
  (i : nat) (b : BondData) :
  B64.dragsBetween M env st down move A B ->
  findIndex (joins (B64.a_id A) (B64.a_id B)) (B64.bonds st) = Some i ->
  nth_error (B64.bonds st) i = Some b ->
  B64.dragGesture M env st down move up rid0 rid1 bid
  = B64.endGesture
      (B64.commitToHistory (B64.atoms st)
         (setAt (B64.bonds st) i (withType b (nextType (b_type b)))) st).
Proof.
  intros (Hro & Htool & Hpan & Hdown & Hmove & Hfar & HB) Hi Hb.
  assert (HAB : B64.a_id B <> B64.a_id A).
  { apply find_some in Hmove. destruct Hmove as [_ Ht].
    apply andb_true_iff in Ht. destruct Ht as [Ht _].
    apply negb_true_iff in Ht. now apply String.eqb_neq in Ht. }
  unfold B64.dragGesture.
  set (ds := B64.mkDrag (B64.a_id A) (B64.a_x A) (B64.a_y A)).
  assert (H1 : B64.handlePointerDown env st down rid0
               = st |> B64.setDragStart (Some ds) |> B64.setIsDragging true
                    |> B64.setPointerPos
                         (Some (B64.getPointerCoords env st (B64.clientX down)
                                  (B64.clientY down)))).
  { unfold B64.handlePointerDown. rewrite Hro. cbv zeta. rewrite Hdown, Htool.
    reflexivity. }
  rewrite H1.
  set (st1 := st |> B64.setDragStart (Some ds) |> B64.setIsDragging true
                 |> B64.setPointerPos
                      (Some (B64.getPointerCoords env st (B64.clientX down)
                               (B64.clientY down)))).
  assert (H2 : B64.handlePointerMove M env st1 move
               = st1 |> B64.setPointerPos (Some (B64.pos B))
                     |> B64.setSnapTargetId (Some (B64.a_id B))).
  { unfold B64.handlePointerMove. rewrite Hro.
    change (B64.isPanning st1) with (B64.isPanning st).
    change (B64.tool st1) with (B64.tool st).
    change (B64.isDragging st1) with true.
    change (B64.dragStart st1) with (Some ds).
    change (B64.atoms st1) with (B64.atoms st).
    change (B64.getPointerCoords env st1 (B64.clientX move) (B64.clientY move))
      with (B64.getPointerCoords env st (B64.clientX move) (B64.clientY move)).
    rewrite Hpan, Htool. cbv zeta.
    change (B64.d_x ds) with (B64.a_x A). change (B64.d_y ds) with (B64.a_y A).
    change (B64.d_id ds) with (B64.a_id A).
    unfold B64.BOND_SNAP_DIST. rewrite Hmove. reflexivity. }
  rewrite H2.
  set (st2 := st1 |> B64.setPointerPos (Some (B64.pos B))
                  |> B64.setSnapTargetId (Some (B64.a_id B))).
  unfold B64.handlePointerUp. rewrite Hro.
  change (B64.isPanning st2) with (B64.isPanning st).
  change (B64.tool st2) with (B64.tool st).
  change (B64.isDragging st2) with true.
  change (B64.dragStart st2) with (Some ds).
  change (B64.pointerPos st2) with (Some (B64.pos B)).
  rewrite Hpan, Htool. cbn [tool_eqb andb]. cbv zeta.
  change (B64.mkVec (B64.d_x ds) (B64.d_y ds)) with (B64.pos A). rewrite Hfar.
  assert (Hres : B64.dragResult st2 ds (B64.pos B) rid1 bid
                 = (B64.atoms st,
                    setAt (B64.bonds st) i (withType b (nextType (b_type b))))).
  { unfold B64.dragResult.
    change (B64.snapTargetId st2) with (Some (B64.a_id B)). cbn [truthy].
    apply String.eqb_neq in HB. rewrite HB.
    change (B64.d_id ds) with (B64.a_id A).
    apply String.eqb_neq in HAB. rewrite HB, HAB. cbn [negb andb].
    change (B64.bonds st2) with (B64.bonds st). rewrite Hi, Hb. reflexivity. }
  rewrite Hres. reflexivity.
Qed.

Lemma dragsBetween_transfer (M : B64.Engine) (env : B64.Env) (st st' : B64.Editor)
  (down move : B64.PointerEvent) (A B : B64.AtomData) :
  B64.atoms st' = B64.atoms st -> B64.view st' = B64.view st ->
  B64.tool st' = B64.tool st -> B64.isPanning st' = B64.isPanning st ->
  B64.dragsBetween M env st down move A B -> B64.dragsBetween M env st' down move A B.
Proof.
  intros Ha Hv Ht Hp. unfold B64.dragsBetween, B64.getPointerCoords.
  rewrite Ha, Hv, Ht, Hp. auto.
Qed.

(** The test of [handlePointerUp] holds exactly for the bonds between
    the two atoms, whichever way round they are stored. *)
Lemma joins_connects (i j : string) (b : BondData) :
  joins i j b = true <-> connects i j b.
Proof.
  unfold joins, connects.
  rewrite orb_true_iff, !andb_true_iff, !String.eqb_eq. reflexivity.
Qed.

(** [C6] In the binary64 arithmetic of the program, with the cosine, the
    sine and [atan2] of any engine: in a draw-tool state at rest where a
    press hits the atom [A] and a move snaps on another atom [B], with a
    bond of the graph between the two (its source [A] and its target
    [B], or its source [B] and its target [A]), a drag adds no atom and
    no bond, gives the first such bond of the list the next order of the
    cycle 1, 2, 3, 1, leaves every other bond as it is, and commits that
    graph as the new last history entry; a second and a third drag
    between the same atoms step the same bond again, so an order-1 bond
    becomes order 2, then 3, then 1. *)
Theorem C6_drag_cycles_existing_bond (M : B64.Engine) (env : B64.Env) (st : B64.Editor)
  (down move up : B64.PointerEvent) (A B : B64.AtomData)
  (r0 r1 r2 r3 r4 r5 r6 r7 r8 : string) :
  B64.dragsBetween M env st down move A B ->
  (exists b, In b (B64.bonds st) /\ connects (B64.a_id A) (B64.a_id B) b) ->
  exists i b,
    nth_error (B64.bonds st) i = Some b
    /\ connects (B64.a_id A) (B64.a_id B) b
    /\ (forall j c, (j < i)%nat -> nth_error (B64.bonds st) j = Some c ->
                    ~ connects (B64.a_id A) (B64.a_id B) c)
    /\ let st1 := B64.dragGesture M env st down move up r0 r1 r2 in
       let st2 := B64.dragGesture M env st1 down move up r3 r4 r5 in
       let st3 := B64.dragGesture M env st2 down move up r6 r7 r8 in
       let o1 := nextType (b_type b) in
       let o2 := nextType o1 in
       let o3 := nextType o2 in
       B64.atoms st1 = B64.atoms st
       /\ B64.bonds st1 = setAt (B64.bonds st) i (withType b o1)
       /\ List.length (B64.bonds st1) = List.length (B64.bonds st)
       /\ nth_error (B64.bonds st1) i
          = Some (mkBond (b_id b) (b_source b) (b_target b) o1)
       /\ (forall j, j <> i -> nth_error (B64.bonds st1) j = nth_error (B64.bonds st) j)
       /\ B64.history st1 = slice0 (B64.history st) (B64.historyIndex st + 1)
                              ++ [B64.mkHist (B64.atoms st1) (B64.bonds st1)]
       /\ B64.historyIndex st1 = (Z.of_nat (List.length (B64.history st1)) - 1)%Z
       /\ B64.atoms st2 = B64.atoms st
       /\ B64.bonds st2 = setAt (B64.bonds st) i (withType b o2)
       /\ B64.atoms st3 = B64.atoms st
       /\ B64.bonds st3 = setAt (B64.bonds st) i (withType b o3)
       /\ (b_type b = 1%Z ->
           o1 = 2%Z /\ o2 = 3%Z /\ o3 = 1%Z /\ B64.bonds st3 = B64.bonds st).
Proof.
  intros Hd Hex.
  assert (Hex' : exists b, In b (B64.bonds st)
                           /\ joins (B64.a_id A) (B64.a_id B) b = true).
  { destruct Hex as (b & Hin & Hc). exists b. split; [exact Hin|]. now apply joins_connects. }
  destruct (findIndex_exists _ _ Hex') as [i Hi].
  destruct (findIndex_Some _ _ _ Hi) as (b & Hb & Hj & Hfirst).
  exists i, b. split; [exact Hb|]. split; [now apply joins_connects|].
  split.
  { intros j c Hlt Hc Hcon. apply joins_connects in Hcon.
    rewrite (Hfirst j c Hlt Hc) in Hcon. discriminate. }
  intros st1 st2 st3 o1 o2 o3.
  (* first drag *)
  pose proof (dragGesture_existing M env st down move up r0 r1 r2 A B i b Hd Hi Hb) as E1.
  fold st1 in E1. fold o1 in E1.
  assert (Ha1 : B64.atoms st1 = B64.atoms st) by (rewrite E1; reflexivity).
  assert (Hb1 : B64.bonds st1 = setAt (B64.bonds st) i (withType b o1))
    by (rewrite E1; reflexivity).
  assert (Hd1 : B64.dragsBetween M env st1 down move A B).
  { apply (dragsBetween_transfer M env st); [exact Ha1| | | |exact Hd];
      rewrite E1; reflexivity. }
  assert (Hi1 : findIndex (joins (B64.a_id A) (B64.a_id B)) (B64.bonds st1) = Some i)
    by (rewrite Hb1; apply findIndex_setAt; assumption).
  assert (Hn1 : nth_error (B64.bonds st1) i = Some (withType b o1)).
  { rewrite Hb1, nth_error_setAt, Nat.eqb_refl, Hb. reflexivity. }
  (* second drag *)
  pose proof (dragGesture_existing M env st1 down move up r3 r4 r5 A B i _ Hd1 Hi1 Hn1)
    as E2.
  fold st2 in E2. cbn [b_type withType] in E2. fold o2 in E2.
  assert (Ha2 : B64.atoms st2 = B64.atoms st) by (rewrite E2; simpl_state64; exact Ha1).
  assert (Hb2 : B64.bonds st2 = setAt (B64.bonds st) i (withType b o2)).
  { rewrite E2. simpl_state64. rewrite Hb1, setAt_setAt. reflexivity. }
  assert (Hd2 : B64.dragsBetween M env st2 down move A B).
  { apply (dragsBetween_transfer M env st1); [| | | |exact Hd1];
      rewrite E2; reflexivity. }
  assert (Hi2 : findIndex (joins (B64.a_id A) (B64.a_id B)) (B64.bonds st2) = Some i)
    by (rewrite Hb2; apply findIndex_setAt; assumption).
  assert (Hn2 : nth_error (B64.bonds st2) i = Some (withType b o2)).
  { rewrite Hb2, nth_error_setAt, Nat.eqb_refl, Hb. reflexivity. }
  (* third drag *)
  pose proof (dragGesture_existing M env st2 down move up r6 r7 r8 A B i _ Hd2 Hi2 Hn2)
    as E3.
  fold st3 in E3. cbn [b_type withType] in E3. fold o3 in E3.
  assert (Hb3 : B64.bonds st3 = setAt (B64.bonds st) i (withType b o3)).
  { rewrite E3. simpl_state64. rewrite Hb2, setAt_setAt. reflexivity. }
  split_and.
  - exact Ha1.
  - exact Hb1.
  - rewrite Hb1. apply length_setAt.
  - exact Hn1.
  - intros j Hne. rewrite Hb1, nth_error_setAt.
    destruct (Nat.eqb_spec j i); [contradiction|reflexivity].
  - rewrite E1. reflexivity.
  - rewrite E1. reflexivity.
  - exact Ha2.
  - exact Hb2.
  - rewrite E3. simpl_state64. exact Ha2.
  - exact Hb3.
  - intros Ho. unfold o3, o2, o1. rewrite Ho. split_and; try reflexivity.
    rewrite Hb3. unfold o3, o2, o1. rewrite Ho. cbn [nextType Z.eqb Pos.eqb].
    apply setAt_same. rewrite Hb. f_equal. destruct b. cbn in *. now subst.
Qed.

Lemma pairState_dragsBetween :
  B64.dragsBetween B64.exampleEngine B64.exEnv B64.pairState
    (B64.mkPointer 0 0) (B64.mkPointer 60 0) B64.pairA B64.pairB.
Proof.
  unfold B64.dragsBetween. split_and; try reflexivity. discriminate.
Qed.

(** A drag from [a] to [b] on the scene, where the bond is stored from
    [b] to [a]: the bond is stepped to order 2 and no bond is added. *)
Lemma C6_drag_cycles_existing_bond_witness :
  B64.dragsBetween B64.exampleEngine B64.exEnv B64.pairState
    (B64.mkPointer 0 0) (B64.mkPointer 60 0) B64.pairA B64.pairB
  /\ (exists b, In b (B64.bonds B64.pairState)
                /\ connects (B64.a_id B64.pairA) (B64.a_id B64.pairB) b)
  /\ B64.bonds (B64.dragGesture B64.exampleEngine B64.exEnv B64.pairState
                  (B64.mkPointer 0 0) (B64.mkPointer 60 0) (B64.mkPointer 60 0)
                  "r0" "r1" "r2")
     = [mkBond "ba" "b" "a" 2].
Proof.
  assert (Hex : exists b, In b (B64.bonds B64.pairState)
                          /\ connects (B64.a_id B64.pairA) (B64.a_id B64.pairB) b).
  { exists (mkBond "ba" "b" "a" 1). split; [now left|]. right. split; reflexivity. }
  split; [exact pairState_dragsBetween|]. split; [exact Hex|].
  destruct (C6_drag_cycles_existing_bond B64.exampleEngine B64.exEnv B64.pairState
              (B64.mkPointer 0 0) (B64.mkPointer 60 0) (B64.mkPointer 60 0)
              B64.pairA B64.pairB
              "r0" "r1" "r2" "r3" "r4" "r5" "r6" "r7" "r8" pairState_dragsBetween Hex)
    as (i & b & Hb & Hj & _ & H).
  cbv zeta in H. destruct H as (_ & H1 & _).
  rewrite H1. destruct i as [|[|i]]; cbn in Hb; try discriminate.
  injection Hb as <-. reflexivity.
Defined.

(** ** Bond geometry *)

Lemma angle_bound (u w : Vec2) : 0 <= vec.angle u w <= PI.
Proof. unfold vec.angle. apply acos_bound. Qed.

Lemma PI_lt_999 : PI < 999.
Proof. pose proof PI_4. lra. Qed.

Lemma minimum_angles_bound (u : Vec2) (l : list Vec2) (m : R) :
  minimum (map (vec.angle u) l) = Some m -> 0 <= m <= PI.
Proof.
  revert m. induction l as [|a l IH]; intros m H; simpl in H; [discriminate|].
  injection H as <-. pose proof (angle_bound u a).
  destruct (minimum (map (vec.angle u) l)) as [m'|]; [|assumption].
  specialize (IH m' eq_refl). unfold Rmin. destruct (Rle_dec _ _); lra.
Qed.

Lemma onSide_left (axis nb : Vec2) :
  onSide axis false nb = negb (onSide axis true nb).
Proof. unfold onSide. now destruct (num_lt 0 (vec.cross axis nb)). Qed.

Lemma onSide_right (axis nb : Vec2) :
  onSide axis true nb = num_lt 0 (vec.cross axis nb).
Proof. unfold onSide. now destruct (num_lt 0 (vec.cross axis nb)). Qed.

Lemma Rmin_step (cur ang : R) : (if Rlt_dec ang cur then ang else cur) = Rmin cur ang.
Proof. unfold Rmin. destruct (Rlt_dec ang cur), (Rle_dec cur ang); lra. Qed.

(** The loop of [getMinAngle], started from any accumulator. *)
Lemma fold_minAngleStep (axis myAxis : Vec2) (nbs : list Vec2) (acc : MinAngle) :
  let r := fold_left (minAngleStep axis myAxis) nbs acc in
  minRight r = joinMin (minRight acc) (minimum (anglesOnSide axis myAxis true nbs))
  /\ minLeft r = joinMin (minLeft acc) (minimum (anglesOnSide axis myAxis false nbs))
  /\ existsRight r = existsRight acc || isSome (minimum (anglesOnSide axis myAxis true nbs))
  /\ existsLeft r = existsLeft acc || isSome (minimum (anglesOnSide axis myAxis false nbs))
  /\ Rmin (minRight r) (minLeft r)
     = joinMin (Rmin (minRight acc) (minLeft acc)) (minimum (map (vec.angle myAxis) nbs)).
Proof.
  revert acc. induction nbs as [|nb nbs IH]; intros acc; cbn zeta.
  - cbn. rewrite !orb_false_r. split_and; reflexivity.
  - cbn [fold_left]. destruct (IH (minAngleStep axis myAxis acc nb)) as (H1 & H2 & H3 & H4 & H5).
    rewrite H5, H1, H2, H3, H4. clear H1 H2 H3 H4 H5 IH.
    unfold anglesOnSide. cbn [filter map minimum].
    rewrite onSide_left, onSide_right. unfold minAngleStep, num_lt.
    destruct (Rlt_dec 0 (vec.cross axis nb)); cbn [negb map minimum minRight minLeft
      existsRight existsLeft isSome joinMin]; rewrite ?Rmin_step, ?orb_true_r;
      (split_and;
       [ try reflexivity | try reflexivity | try reflexivity | try reflexivity | ]);
      repeat match goal with
             | |- context [minimum ?l] => destruct (minimum l); cbn [joinMin isSome]
             end;
      rewrite ?orb_true_r, ?orb_false_r; try reflexivity;
      unfold Rmin; repeat destruct (Rle_dec _ _); lra.
Qed.

Lemma joinMin_999 (u : Vec2) (l : list Vec2) :
  joinMin 999 (minimum (map (vec.angle u) l))
  = match minimum (map (vec.angle u) l) with Some m => m | None => 999 end.
Proof.
  destruct (minimum (map (vec.angle u) l)) as [m|] eqn:E; [|reflexivity].
  apply minimum_angles_bound in E. pose proof PI_lt_999.
  cbn. unfold Rmin. destruct (Rle_dec 999 m); lra.
Qed.

(** What [getMinAngle] returns, in terms of the least angles. *)
Lemma getMinAngle_spec (st : Editor) (atomId : string) (s t : AtomData)
  (b : BondData) (axis : Vec2) :
  let nbs := neighborVectors st atomId s t b in
  let myAxis := axisFrom atomId s axis in
  let r := getMinAngle st atomId s t b axis in
  existsRight r = isSome (minimum (anglesOnSide axis myAxis true nbs))
  /\ existsLeft r = isSome (minimum (anglesOnSide axis myAxis false nbs))
  /\ minRight r = match minimum (anglesOnSide axis myAxis true nbs) with
                  | Some m => m | None => 999 end
  /\ minLeft r = match minimum (anglesOnSide axis myAxis false nbs) with
                 | Some m => m | None => 999 end
  /\ Rmin (minRight r) (minLeft r)
     = match minimum (map (vec.angle myAxis) nbs) with Some m => m | None => 999 end.
Proof.
  intros nbs myAxis r.
  destruct (fold_minAngleStep axis myAxis nbs (mkMinAngle 999 999 false false))
    as (H1 & H2 & H3 & H4 & H5).
  cbn zeta in *. cbn [minRight minLeft existsRight existsLeft orb] in *.
  change (fold_left (minAngleStep axis myAxis) nbs (mkMinAngle 999 999 false false))
    with r in *.
  unfold anglesOnSide in *.
  rewrite joinMin_999 in H1, H2.
  replace (Rmin 999 999) with 999 in H5 by (unfold Rmin; destruct (Rle_dec _ _); lra).
  rewrite joinMin_999 in H5. auto.
Qed.

Lemma minimum_side_all (u axis : Vec2) (right : bool) (l : list Vec2) :
  minimum (anglesOnSide axis u right l) <> None ->
  minimum (map (vec.angle u) l) <> None.
Proof.
  destruct l; [cbn; congruence|discriminate].
Qed.

Lemma shorten_trimAmount (len offset theta : R) :
  Rmin (len * 0.5) (offset * Math_tan (PI / 2 - theta / 2))
  = trimAmount len offset theta.
Proof.
  unfold Math_tan, trimAmount.
  replace (len * 0.5) with (len / 2) by lra.
  destruct (Req_dec_T (PI / 2 - theta / 2) (PI / 2)), (Req_dec_T theta 0);
    try reflexivity; lra.
Qed.

(** The offset line of the source is the trimmed line with the trim
    distances [trim]. *)
Lemma offsetLine_trim (st : Editor) (b : BondData) (s t : AtomData) (right : bool) :
  let v := vec.sub (pos t) (pos s) in
  let n := vec.norm v in
  offsetLine s t n (mkVec (- vy n) (vx n)) (vec.len v) 6
    (getMinAngle st (a_id s) s t b v) (getMinAngle st (a_id t) s t b v) right
  = offsetLineWith trim st b s t right.
Proof.
  intros v n.
  destruct (getMinAngle_spec st (a_id s) s t b v) as (S1 & S2 & _ & _ & S5).
  destruct (getMinAngle_spec st (a_id t) s t b v) as (T1 & T2 & _ & _ & T5).
  cbn zeta in *.
  unfold offsetLine, offsetLineWith, trimmedLine, trim. fold v. fold n.
  rewrite S5, T5.
  replace (if right then existsRight (getMinAngle st (a_id s) s t b v)
           else existsLeft (getMinAngle st (a_id s) s t b v))
    with (isSome (minimum (anglesOnSide v (axisFrom (a_id s) s v) right
                    (neighborVectors st (a_id s) s t b))))
    by (destruct right; congruence).
  replace (if right then existsRight (getMinAngle st (a_id t) s t b v)
           else existsLeft (getMinAngle st (a_id t) s t b v))
    with (isSome (minimum (anglesOnSide v (axisFrom (a_id t) s v) right
                    (neighborVectors st (a_id t) s t b))))
    by (destruct right; congruence).
  pose proof (minimum_side_all (axisFrom (a_id s) s v) v right
                (neighborVectors st (a_id s) s t b)) as HS.
  pose proof (minimum_side_all (axisFrom (a_id t) s v) v right
                (neighborVectors st (a_id t) s t b)) as HT.
  destruct (minimum (anglesOnSide v (axisFrom (a_id s) s v) right _)) as [ms|];
    destruct (minimum (anglesOnSide v (axisFrom (a_id t) s v) right _)) as [mt|];
    cbn [isSome];
    try (destruct (minimum (map (vec.angle (axisFrom (a_id s) s v)) _)) as [as_|];
         [|exfalso; apply HS; [discriminate|reflexivity]]);
    try (destruct (minimum (map (vec.angle (axisFrom (a_id t) s v)) _)) as [at_|];
         [|exfalso; apply HT; [discriminate|reflexivity]]);
    unfold vec.add, vec.sub, vec.scale; cbn [vx vy];
    rewrite ?shorten_trimAmount;
    f_equal; lra.
Qed.




(** The drawing of a bond of order 3 with a carbon end. *)
Lemma triple_bond_drawing (st : Editor) (b : BondData) (s t : AtomData) :
  find (hasId (b_source b)) (atoms st) = Some s ->
  find (hasId (b_target b)) (atoms st) = Some t ->
  b_type b = 3%Z ->
  isCarbon s || isCarbon t = true ->
  getBondCoords st b = Some [mkLine (a_x s) (a_y s) (a_x t) (a_y t);
                             offsetLineWith trim st b s t true;
                             offsetLineWith trim st b s t false].
Proof.
  intros Hs Ht Hty Hc.
  assert (Hnc : negb (isCarbon s) && negb (isCarbon t) = false)
    by (destruct (isCarbon s), (isCarbon t); try reflexivity; discriminate).
  unfold getBondCoords. rewrite Hs, Ht, Hty.
  cbn [Z.eqb Pos.eqb andb]. rewrite Hnc. cbn [map]. cbv zeta.
  rewrite !(offsetLine_trim st b s t). reflexivity.
Qed.

(** *** The neighbours of an end, read off the graph *)










Section SidesOfAnEnd.

(** The neighbours of an end as the list [nbs] that the code walks and
    as the set [P] of the statements. *)
Variable P : Vec2 -> Prop.
Variable nbs : list Vec2.
Hypothesis nbs_P : forall v, In v nbs <-> P v.
Variables axis ax : Vec2.
Variable right : bool.






End SidesOfAnEnd.





(** *** The trim distances on a concrete scene *)

Lemma len_value (v : Vec2) (l : R) :
  0 <= l -> vx v * vx v + vy v * vy v = l * l -> vec.len v = l.
Proof. intros Hl H. unfold vec.len. rewrite H. now apply sqrt_square. Qed.

Lemma norm_value (v : Vec2) (l : R) :
  0 < l -> vx v * vx v + vy v * vy v = l * l ->
  vec.norm v = mkVec (vx v / l) (vy v / l).
Proof.
  intros Hl H. unfold vec.norm. rewrite H, sqrt_square by lra.
  destruct (Req_dec_T l 0); [lra|reflexivity].
Qed.

Lemma angle_value (u w : Vec2) (lu lw c : R) :
  0 < lu -> vx u * vx u + vy u * vy u = lu * lu ->
  0 < lw -> vx w * vx w + vy w * vy w = lw * lw ->
  (vx u * vx w + vy u * vy w) / (lu * lw) = c -> -1 <= c <= 1 ->
  vec.angle u w = acos c.
Proof.
  intros Hu Eu Hw Ew Hc Hb. unfold vec.angle.
  rewrite (norm_value u lu Hu Eu), (norm_value w lw Hw Ew).
  unfold vec.dot. cbn [vx vy].
  replace (vx u / lu * (vx w / lw) + vy u / lu * (vy w / lw)) with c
    by (rewrite <- Hc; field; lra).
  f_equal. unfold Rmax, Rmin.
  destruct (Rle_dec 1 c); destruct (Rle_dec (-1) _); lra.
Qed.






Lemma c1_axis : vec.sub (pos c1T) (pos c1S) = mkVec 60 0.
Proof. unfold vec.sub, pos. cbn. f_equal; lra. Qed.


Lemma c1_neighbours_t :
  neighborVectors c1State (a_id c1T) c1S c1T c1Bond = [].
Proof. reflexivity. Qed.






(** *** A neighbour along the axis *)

Lemma flat_angle : vec.angle (mkVec 60 0) (mkVec 120 0) = 0.
Proof.
  rewrite (angle_value _ _ 60 120 1); cbn [vx vy]; try lra.
  apply acos_1.
Qed.

(** A neighbouring bond that runs along the axis makes the angle 0 with
    it and counts as a neighbour on the left: the left offset line is
    cut back by half the bond length, the right one is not cut. *)
Lemma flat_scene_trim :
  exists c r l,
    getBondCoords flatState c1Bond = Some [c; r; l]
    /\ x1 r = 0 /\ x1 l = 30.
Proof.
  assert (Hcode : getBondCoords flatState c1Bond
            = Some [mkLine (a_x c1S) (a_y c1S) (a_x c1T) (a_y c1T);
                    offsetLineWith trim flatState c1Bond c1S c1T true;
                    offsetLineWith trim flatState c1Bond c1S c1T false])
    by (apply triple_bond_drawing; reflexivity).
  assert (Hnb : neighborVectors flatState (a_id c1S) c1S c1T c1Bond = [mkVec 120 0]).
  { transitivity [vec.sub (pos (mkAtom "u" 120 0 "C")) (pos c1S)]; [reflexivity|].
    unfold vec.sub, pos. cbn. repeat f_equal; lra. }
  assert (Hstart : forall right,
            x1 (offsetLineWith trim flatState c1Bond c1S c1T right)
            = trim 60 6 (if right then [] else [0]) [0]).
  { intros right. unfold offsetLineWith, trimmedLine. cbn [x1].
    rewrite Hnb, c1_axis.
    change (axisFrom (a_id c1S) c1S (mkVec 60 0)) with (mkVec 60 0).
    rewrite (len_value (mkVec 60 0) 60) by (cbn; lra).
    rewrite (norm_value (mkVec 60 0) 60) by (cbn; lra).
    assert (Hl : num_lt 0 (vec.cross (mkVec 60 0) (mkVec 120 0)) = false)
      by (apply num_lt_false; unfold vec.cross; cbn; lra).
    unfold anglesOnSide, onSide. cbn [filter map vx vy a_x c1S].
    rewrite Hl, flat_angle.
    destruct right; cbn [Bool.eqb map]; rewrite ?flat_angle; lra. }
  do 3 eexists. split; [exact Hcode|].
  rewrite !Hstart. unfold trim, trimAmount. cbn [minimum].
  destruct (Req_dec_T 0 0); [|lra].
  unfold Rmin. destruct (Rle_dec _ _); split; lra.
Qed.


(** *** The side of a double bond on a concrete scene *)






(** ** Dangling bonds *)

(** [C7] The trace [c7Trace] on a fresh editor: the press creates the
    atom "x" and anchors the gesture on it, the clear button empties the
    live graph, and the release commits the graph made of the new atom
    "y" and the bond from "x" to "y".  The committed snapshot is the
    current history entry and its bond has an end, "x", that is not in
    its atom list. *)
Theorem C7_dangling_bond_committed :
  let st := run exEnv initialEditor c7Trace in
  at_index (history st) (historyIndex st) = Some (mkHist (atoms st) (bonds st))
  /\ bonds st = [mkBond "xy" "x" "y" 1]
  /\ (exists x y, atoms st = [mkAtom "y" x y "C"])
  /\ ~ snapshotOk (mkHist (atoms st) (bonds st))
  /\ ~ (forall h, In h (history st) -> snapshotOk h).
Proof.
  set (p := getPointerCoords exEnv initialEditor 100 100).
  set (st1 := handlePointerDown exEnv initialEditor (mkPointer 100 100) "x").
  assert (H1 : st1 = initialEditor |> setAtoms [addAtom "x" (vx p) (vy p) "C"]
                       |> setDragStart (Some (mkDrag "x" (vx p) (vy p)))
                       |> setIsDragging true |> setPointerPos (Some p)) by reflexivity.
  set (st2 := clearCanvas exEnv st1).
  assert (H2 : st2 = mkEditor [] [] (mkView 0 0 1) [mkHist [] []; mkHist [] []] 1%Z
                       draw "C"%string (Some (mkDrag "x" (vx p) (vy p))) (Some p)
                       None true None false None)
    by (unfold st2; rewrite H1; reflexivity).
  set (q := getPointerCoords exEnv st2 160 100).
  set (cand := snapToAngle (vx p) (vy p) (vx q) (vy q)).
  set (st3 := handlePointerMove exEnv st2 (mkPointer 160 100)).
  assert (H3 : st3 = mkEditor [] [] (mkView 0 0 1) [mkHist [] []; mkHist [] []] 1%Z
                       draw "C"%string (Some (mkDrag "x" (vx p) (vy p))) (Some cand)
                       None true None false None)
    by (unfold st3, cand, q; rewrite H2; reflexivity).
  set (st4 := handlePointerUp exEnv st3 (mkPointer 160 100) "y" "xy").
  assert (Hfar : ~ distance (dragPos (mkDrag "x" (vx p) (vy p))) cand < 5).
  { unfold cand, dragPos. cbn [d_x d_y]. rewrite snapToAngle_distance. lra. }
  assert (H4 : st4 = mkEditor [mkAtom "y" (vx cand) (vy cand) "C"] [mkBond "xy" "x" "y" 1]
                       (mkView 0 0 1)
                       [mkHist [] []; mkHist [] [];
                        mkHist [mkAtom "y" (vx cand) (vy cand) "C"] [mkBond "xy" "x" "y" 1]]
                       2%Z draw "C"%string None None None false None false None).
  { unfold st4.
    rewrite (pointerUp_drag exEnv st3 _ "y" "xy" (mkDrag "x" (vx p) (vy p)) cand);
      try exact Hfar; rewrite ?H3; reflexivity. }
  assert (Hbad : ~ snapshotOk (mkHist [mkAtom "y" (vx cand) (vy cand) "C"]
                                      [mkBond "xy" "x" "y" 1])).
  { intros Hok. destruct (Hok (mkBond "xy" "x" "y" 1)) as [[a [Hin Hid]] _]; [now left|].
    cbn in Hin. destruct Hin as [<-|[]]. discriminate. }
  change (run exEnv initialEditor c7Trace) with st4. cbv zeta.
  rewrite H4. simpl_state.
  split_and.
  - reflexivity.
  - reflexivity.
  - eauto.
  - exact Hbad.
  - intros Hall. apply Hbad, Hall. right. right. now left.
Qed.

(** *** Where the invariant holds *)

Lemma hasAtom_map (f : AtomData -> AtomData) (ats : list AtomData) (i : string) :
  (forall a, a_id (f a) = a_id a) -> hasAtom ats i -> hasAtom (map f ats) i.
Proof.
  intros Hf (a & Hin & Hid). exists (f a). split; [now apply in_map|].
  now rewrite Hf.
Qed.

Lemma hasAtom_app (ats extra : list AtomData) (i : string) :
  hasAtom ats i -> hasAtom (ats ++ extra) i.
Proof.
  intros (a & Hin & Hid). exists a. split; [apply in_or_app; now left|assumption].
Qed.

Lemma hasAtom_filter (c : string) (ats : list AtomData) (i : string) :
  i <> c -> hasAtom ats i ->
  hasAtom (filter (fun a => negb (String.eqb (a_id a) c)) ats) i.
Proof.
  intros Hne (a & Hin & Hid). exists a. split; [|assumption].
  apply filter_In. split; [assumption|].
  apply negb_true_iff, String.eqb_neq. congruence.
Qed.

Lemma noDangling_mono (ats ats' : list AtomData) (bds bds' : list BondData) :
  (forall i, hasAtom ats i -> hasAtom ats' i) ->
  (forall b, In b bds' ->
     exists b0, In b0 bds /\ b_source b0 = b_source b /\ b_target b0 = b_target b) ->
  noDangling ats bds -> noDangling ats' bds'.
Proof.
  intros Ha Hb Hok b Hin. destruct (Hb b Hin) as (b0 & Hin0 & <- & <-).
  destruct (Hok b0 Hin0). split; now apply Ha.
Qed.

Lemma In_slice0 {A} (l : list A) (e : Z) (x : A) : In x (slice0 l e) -> In x l.
Proof.
  unfold slice0. intros H.
  rewrite <- (firstn_skipn (Z.to_nat (if (e <? 0)%Z
                                       then Z.max (Z.of_nat (List.length l) + e) 0
                                       else Z.min e (Z.of_nat (List.length l)))) l).
  apply in_or_app. now left.
Qed.

Lemma at_index_In {A} (l : list A) (i : Z) (x : A) : at_index l i = Some x -> In x l.
Proof.
  unfold at_index. destruct (i <? 0)%Z; [discriminate|]. apply nth_error_In.
Qed.

Lemma invariant_commit (ats na : list AtomData) (bds nb : list BondData)
  (hist : list HistoryState) (k : Z) (ds ds' : option DragStart)
  (snap snap' : option string) (tl : ToolType) :
  graphInvariant ats bds hist ds snap tl ->
  noDangling na nb ->
  (forall d, ds' = Some d -> hasAtom na (d_id d)) ->
  (forall t, snap' = Some t -> hasAtom na t) ->
  (tl = erase -> ds' = None /\ snap' = None) ->
  graphInvariant na nb (slice0 hist k ++ [mkHist na nb]) ds' snap' tl.
Proof.
  intros (_ & Hh & _) Hn Hd Hs He. unfold graphInvariant.
  split_and; auto; try (now apply He).
  intros h Hin. apply in_app_or in Hin. destruct Hin as [Hin|[<-|[]]].
  - apply Hh. eapply In_slice0; eassumption.
  - exact Hn.
Qed.

Lemma invariant_anchor (ats : list AtomData) (bds : list BondData)
  (hist : list HistoryState) (ds ds' : option DragStart)
  (snap snap' : option string) (tl : ToolType) :
  graphInvariant ats bds hist ds snap tl ->
  (forall d, ds' = Some d -> hasAtom ats (d_id d)) ->
  (forall t, snap' = Some t -> hasAtom ats t) ->
  (tl = erase -> ds' = None /\ snap' = None) ->
  graphInvariant ats bds hist ds' snap' tl.
Proof.
  intros (Hg & Hh & _) Hd Hs He. unfold graphInvariant.
  split_and; auto; now apply He.
Qed.

Lemma invariant_atoms (ats ats' : list AtomData) (bds : list BondData)
  (hist : list HistoryState) (ds : option DragStart) (snap : option string)
  (tl : ToolType) :
  (forall i, hasAtom ats i -> hasAtom ats' i) ->
  graphInvariant ats bds hist ds snap tl ->
  graphInvariant ats' bds hist ds snap tl.
Proof.
  intros Ha (Hg & Hh & Hd & Hs & He). unfold graphInvariant.
  split_and; auto; try (now apply He).
  apply (noDangling_mono ats ats' bds bds); eauto.
Qed.

Lemma find_hasAtom (f : AtomData -> bool) (ats : list AtomData) (a : AtomData) :
  find f ats = Some a -> hasAtom ats (a_id a).
Proof. intros H. apply find_some in H. exists a. now split. Qed.

Lemma wellFormed_pointerDown (env : Env) (st : Editor) (e : PointerEvent) (rid : string) :
  wellFormed st -> wellFormed (handlePointerDown env st e rid).
Proof.
  intros WF. unfold handlePointerDown.
  destruct (isReadOnly env); [exact WF|]. cbv zeta.
  set (p := getPointerCoords env st (clientX e) (clientY e)).
  unfold wellFormed in *.
  pose proof WF as (Hg & Hh & Hd & Hs & He).
  destruct (find _ (atoms st)) as [ca|] eqn:Hca.
  - (* an atom is hit *)
    apply find_hasAtom in Hca. cbn [isSome negb andb].
    rewrite andb_false_r. cbn [andb].
    destruct (tool st) eqn:Htool; simpl_state; rewrite ?Htool.
    + apply (invariant_anchor _ _ _ _ _ _ _ _ WF); auto; try discriminate.
      intros d [= <-]. exact Hca.
    + apply (invariant_anchor _ _ _ _ _ _ _ _ WF); auto; try discriminate.
      intros d [= <-]. exact Hca.
    + destruct (He eq_refl) as [Hd0 Hs0]. rewrite Hd0, Hs0 in *.
      apply (invariant_commit _ _ _ _ _ _ _ _ _ _ _ WF); auto; try discriminate.
      intros b Hin. apply filter_In in Hin. destruct Hin as [Hin Hb].
      apply andb_true_iff in Hb. destruct Hb as [Hb1 Hb2].
      apply negb_true_iff, String.eqb_neq in Hb1.
      apply negb_true_iff, String.eqb_neq in Hb2.
      destruct (Hg b Hin). split; now apply hasAtom_filter.
  - (* no atom is hit *)
    destruct (find _ (bonds st)) as [cb|] eqn:Hcb; cbn [isSome negb andb];
      destruct (tool st) eqn:Htool; cbn [tool_eqb negb andb]; simpl_state; rewrite ?Htool;
      try exact WF.
    + (* draw tool on a bond: the order cycles *)
      apply (invariant_commit _ _ _ _ _ _ _ _ _ _ _ WF); auto; try discriminate.
      apply (noDangling_mono (atoms st) _ (bonds st)); auto.
      intros b Hin. apply in_map_iff in Hin. destruct Hin as (b0 & <- & Hin0).
      exists b0. destruct (String.eqb _ _); auto.
    + (* erase tool on a bond *)
      apply (invariant_commit _ _ _ _ _ _ _ _ _ _ _ WF); auto.
      apply (noDangling_mono (atoms st) _ (bonds st)); auto.
      intros b Hin. apply filter_In in Hin. exists b. tauto.
    + (* draw tool on the empty canvas: a new atom anchors the gesture *)
      assert (WF' : graphInvariant (atoms st ++ [addAtom rid (vx p) (vy p) (activeElement st)])
                      (bonds st) (history st) (dragStart st) (snapTargetId st) draw).
      { apply (invariant_atoms (atoms st)); [intros; now apply hasAtom_app|exact WF]. }
      apply (invariant_anchor _ _ _ _ _ _ _ _ WF'); try discriminate.
      * intros d [= <-]. eexists. split; [apply in_or_app; right; now left|reflexivity].
      * intros t Ht. apply hasAtom_app. now apply Hs.
Qed.

Lemma wellFormed_moved (st : Editor) (i : string) (x y : R) (pp : option Vec2) :
  wellFormed st ->
  wellFormed (st |> setAtoms (map (fun a => if String.eqb (a_id a) i
                                            then mkAtom (a_id a) x y (a_element a)
                                            else a) (atoms st))
                 |> setPointerPos pp).
Proof.
  intros WF. unfold wellFormed in *. simpl_state.
  apply (invariant_atoms (atoms st)); [|exact WF].
  intros j Hj. apply hasAtom_map; [|assumption].
  intros a. now destruct (String.eqb _ _).
Qed.

Lemma wellFormed_snapped (st : Editor) (f : AtomData -> bool) (cand : Vec2) :
  wellFormed st -> tool st = draw ->
  wellFormed (match find f (atoms st) with
              | Some a => st |> setPointerPos (Some (mkVec (a_x a) (a_y a)))
                             |> setSnapTargetId (Some (a_id a))
              | None => st |> setPointerPos (Some cand) |> setSnapTargetId None
              end).
Proof.
  intros WF Htool. pose proof WF as (Hg & Hh & Hd & Hs & He).
  destruct (find f (atoms st)) as [a|] eqn:Hf; unfold wellFormed in *; simpl_state;
    apply (invariant_anchor _ _ _ _ _ _ _ _ WF); auto;
    try discriminate; try (rewrite Htool; discriminate).
  intros t [= <-]. now apply find_hasAtom in Hf.
Qed.

Lemma wellFormed_pointerMove (env : Env) (st : Editor) (e : PointerEvent) :
  wellFormed st -> wellFormed (handlePointerMove env st e).
Proof.
  intros WF. unfold handlePointerMove.
  destruct (isReadOnly env); [exact WF|].
  destruct (isPanning st), (panStart st); try exact WF; cbv zeta;
    destruct (tool st) eqn:Htool, (isDragging st), (dragStart st) as [ds|];
    try exact WF;
    first [ now apply wellFormed_moved | now apply wellFormed_snapped ].
Qed.

Lemma dragResult_noDangling (st : Editor) (ds : DragStart) (pp : Vec2) (rid bid : string) :
  wellFormed st -> dragStart st = Some ds ->
  noDangling (fst (dragResult st ds pp rid bid)) (snd (dragResult st ds pp rid bid)).
Proof.
  intros (Hg & _ & Hd & Hs & _) Hds. unfold dragResult.
  specialize (Hd ds Hds).
  set (newAtom := addAtom rid (vx pp) (vy pp) (activeElement st)).
  assert (Hcases : exists targetId newAtoms,
            (match truthy (snapTargetId st) with
             | Some t => (t, atoms st)
             | None => (rid, atoms st ++ [newAtom])
             end) = (targetId, newAtoms)
            /\ hasAtom newAtoms targetId
            /\ (forall i, hasAtom (atoms st) i -> hasAtom newAtoms i)).
  { destruct (truthy (snapTargetId st)) as [t|] eqn:Ht.
    - exists t, (atoms st). split_and; auto. apply Hs.
      unfold truthy in Ht. destruct (snapTargetId st) as [s|]; [|discriminate].
      destruct (String.eqb s EmptyString); congruence.
    - exists rid, (atoms st ++ [newAtom]). split_and; auto.
      + exists newAtom. split; [apply in_or_app; right; now left|reflexivity].
      + intros i. apply hasAtom_app. }
  destruct Hcases as (targetId & newAtoms & -> & Htarget & Hincl).
  assert (Hold : noDangling newAtoms (bonds st)).
  { apply (noDangling_mono (atoms st) _ (bonds st)); eauto. }
  destruct (negb (String.eqb targetId EmptyString) && negb (String.eqb targetId (d_id ds)));
    [|exact Hold].
  destruct (findIndex _ (bonds st)) as [i|].
  - destruct (nth_error (bonds st) i) as [b|] eqn:Hb; [|exact Hold]. cbn [fst snd].
    apply (noDangling_mono (atoms st) _ (bonds st)); auto.
    intros c Hc. apply In_nth_error in Hc. destruct Hc as [j Hj].
    rewrite nth_error_setAt in Hj. destruct (j =? i)%nat eqn:Hji.
    + apply Nat.eqb_eq in Hji. subst j. rewrite Hb in Hj. injection Hj as <-.
      exists b. split; [eapply nth_error_In; eassumption|now split].
    + exists c. split; [eapply nth_error_In; eassumption|now split].
  - cbn [fst snd]. intros c Hc. apply in_app_or in Hc. destruct Hc as [Hc|[<-|[]]].
    + now apply Hold.
    + cbn [b_source b_target]. split; [now apply Hincl|exact Htarget].
Qed.

Lemma wellFormed_endGesture (st : Editor) :
  graphInvariant (atoms st) (bonds st) (history st) None None (tool st) ->
  wellFormed (endGesture st).
Proof. intros H. exact H. Qed.

Lemma wellFormed_pointerUp (env : Env) (st : Editor) (e : PointerEvent) (rid bid : string) :
  wellFormed st -> wellFormed (handlePointerUp env st e rid bid).
Proof.
  intros WF. unfold handlePointerUp.
  destruct (isReadOnly env); [exact WF|].
  destruct (isPanning st); [exact WF|].
  pose proof WF as (Hg & Hh & Hd & Hs & He).
  assert (Hend : wellFormed (endGesture st)).
  { apply wellFormed_endGesture.
    apply (invariant_anchor _ _ _ _ _ _ _ _ WF); auto; discriminate. }
  destruct (tool st) eqn:Htool; cbn [tool_eqb andb].
  - (* select *)
    destruct (isDragging st); [|exact Hend].
    unfold wellFormed in *. simpl_state. rewrite Htool in *.
    apply (invariant_commit _ _ _ _ _ _ _ _ _ _ _ WF); auto; discriminate.
  - (* draw *)
    destruct (isDragging st); [|exact Hend].
    destruct (dragStart st) as [ds|] eqn:Hds; [|exact Hend].
    destruct (pointerPos st) as [pp|]; [|exact Hend].
    cbv zeta. apply wellFormed_endGesture.
    destruct (num_lt _ 5).
    + destruct (find _ (atoms st)) as [targetAtom|]; [|exact Hend].
      unfold wellFormed in WF. simpl_state.
      apply (invariant_commit _ _ _ _ _ _ _ _ _ _ _ WF); auto; try discriminate.
      apply (noDangling_mono (atoms st) _ (bonds st)); eauto.
      intros i Hi. apply hasAtom_map; [|assumption].
      intros a; now destruct (String.eqb _ _).
    + pose proof (dragResult_noDangling st ds pp rid bid WF Hds) as Hdr.
      destruct (dragResult st ds pp rid bid) as [newAtoms newBonds]. cbn [fst snd] in Hdr.
      unfold wellFormed in WF. simpl_state.
      apply (invariant_commit _ _ _ _ _ _ _ _ _ _ _ WF); auto; discriminate.
  - (* erase *)
    exact Hend.
Qed.

Lemma wellFormed_step (env : Env) (st : Editor) (ev : Event) :
  wellFormed st -> (isToolbar ev = true -> atRest st) -> wellFormed (step env st ev).
Proof.
  intros WF Hrest. destruct ev; cbn [step].
  - now apply wellFormed_pointerDown.
  - now apply wellFormed_pointerMove.
  - now apply wellFormed_pointerUp.
  - unfold handleWheel. destruct (isReadOnly env); [exact WF|].
    destruct (svgRect env); exact WF.
  - destruct (isReadOnly env); [exact WF|]. destruct (Hrest eq_refl) as [Hd0 Hs0].
    unfold undo. destruct (0 <? historyIndex st)%Z; [|exact WF].
    destruct (at_index _ _) as [prev|] eqn:Hp; [|exact WF]. cbn [settle].
    unfold wellFormed in *. simpl_state. rewrite Hd0, Hs0 in *.
    destruct WF as (Hg & Hh & Hd & Hs & He). unfold graphInvariant.
    split_and; auto; try discriminate.
    apply at_index_In in Hp. exact (Hh prev Hp).
  - destruct (isReadOnly env); [exact WF|]. destruct (Hrest eq_refl) as [Hd0 Hs0].
    unfold redo. destruct (historyIndex st <? _)%Z; [|exact WF].
    destruct (at_index _ _) as [next|] eqn:Hp; [|exact WF]. cbn [settle].
    unfold wellFormed in *. simpl_state. rewrite Hd0, Hs0 in *.
    destruct WF as (Hg & Hh & Hd & Hs & He). unfold graphInvariant.
    split_and; auto; try discriminate.
    apply at_index_In in Hp. exact (Hh next Hp).
  - unfold clearCanvas. destruct (isReadOnly env); [exact WF|].
    destruct (Hrest eq_refl) as [Hd0 Hs0].
    unfold wellFormed in *. simpl_state. rewrite Hd0, Hs0 in *.
    apply (invariant_commit _ _ _ _ _ _ _ _ _ _ _ WF); auto; try discriminate.
    intros b [].
  - destruct (isReadOnly env); [exact WF|]. destruct (Hrest eq_refl) as [Hd0 Hs0].
    unfold handleSetTool, wellFormed in *. simpl_state. rewrite Hd0, Hs0 in *.
    destruct WF as (Hg & Hh & Hd & Hs & He). unfold graphInvariant. split_and; auto.
  - destruct (isReadOnly env); [exact WF|]. destruct (Hrest eq_refl) as [Hd0 Hs0].
    unfold handleSetElement, wellFormed in *. simpl_state. rewrite Hd0, Hs0 in *.
    destruct WF as (Hg & Hh & Hd & Hs & He). unfold graphInvariant. split_and; auto.
Qed.

(** As long as the toolbar is used between gestures only, every state
    reached from a well-formed state is well-formed: no history entry
    has a dangling bond. *)
Lemma wellFormed_run (env : Env) (evs : list Event) (st : Editor) :
  wellFormed st -> toolbarAtRest env st evs -> wellFormed (run env st evs).
Proof.
  revert st. induction evs as [|ev evs IH]; intros st WF Hq; [exact WF|].
  destruct Hq as [Hrest Hq]. cbn [run fold_left].
  apply IH; [now apply wellFormed_step|exact Hq].
Qed.

Lemma wellFormed_initial : wellFormed initialEditor.
Proof.
  unfold wellFormed, graphInvariant. cbn. split_and; try discriminate.
  - intros b [].
  - intros h [<-|[]]. intros b [].
Qed.

Lemma committed_snapshots_ok (env : Env) (evs : list Event) :
  toolbarAtRest env initialEditor evs ->
  forall h, In h (history (run env initialEditor evs)) -> snapshotOk h.
Proof.
  intros Hq. apply (wellFormed_run env evs initialEditor wellFormed_initial Hq).
Qed.

(** * Further properties of the code *)

(** ** SMILES generator: the traversal ends *)

Lemma lookup_assign {V} (k k' : string) (v : V) (m : list (string * V)) :
  lookup k' (assign k v m) = if String.eqb k k' then Some v else lookup k' m.
Proof.
  unfold lookup, assign. cbn [find fst]. now destruct (String.eqb k k').
Qed.

Lemma has_cons (i c : string) (l : list string) :
  has i (c :: l) = String.eqb i c || has i l.
Proof. reflexivity. Qed.

Lemma has_In (i : string) (l : list string) : has i l = true <-> In i l.
Proof.
  unfold has. rewrite existsb_exists. split.
  - intros (x & Hin & Hx). apply String.eqb_eq in Hx. now subst.
  - intros Hin. exists i. split; [assumption|apply String.eqb_refl].
Qed.

Lemma visited_visit (c : string) (sigma : SmilesState) :
  has c (visited sigma) = false -> visited (visit c sigma) = c :: visited sigma.
Proof. intros H. unfold visit. cbn [visited]. now rewrite H. Qed.

Lemma grows_visit (c : string) (sigma : SmilesState) : grows sigma (visit c sigma).
Proof.
  intros i Hi. unfold visit. cbn [visited].
  destruct (has c (visited sigma)); [assumption|].
  rewrite has_cons, Hi. apply orb_true_r.
Qed.

Lemma has_visit_self (c : string) (sigma : SmilesState) :
  has c (visited (visit c sigma)) = true.
Proof.
  unfold visit. cbn [visited]. destruct (has c (visited sigma)) eqn:E; [assumption|].
  rewrite has_cons, String.eqb_refl. reflexivity.
Qed.

Lemma grows_ringFor (i : string) (sigma : SmilesState) : grows sigma (ringFor i sigma).
Proof.
  intros j Hj. unfold ringFor.
  destruct (lookup i (rings sigma)) as [r|]; [destruct (r =? 0)%Z|]; exact Hj.
Qed.

Lemma grows_trans (s1 s2 s3 : SmilesState) : grows s1 s2 -> grows s2 s3 -> grows s1 s3.
Proof. intros H1 H2 i Hi. apply H2, H1, Hi. Qed.

Lemma unvisited_mono (U v1 v2 : list string) :
  (forall i, has i v1 = true -> has i v2 = true) ->
  (unvisited U v2 <= unvisited U v1)%nat.
Proof.
  intros H. unfold unvisited. induction U as [|u U IH]; cbn [filter]; [lia|].
  destruct (has u v2) eqn:E2; destruct (has u v1) eqn:E1; cbn [negb List.length]; try lia.
  apply H in E1. congruence.
Qed.

Lemma unvisited_visit_lt (U vis : list string) (c : string) :
  In c U -> has c vis = false -> (unvisited U (c :: vis) < unvisited U vis)%nat.
Proof.
  intros Hin Hc. unfold unvisited. induction U as [|u U IH]; [contradiction|].
  assert (Hle : (List.length (filter (fun i => negb (has i (c :: vis))) U)
                 <= List.length (filter (fun i => negb (has i vis)) U))%nat).
  { apply (unvisited_mono U vis (c :: vis)). intros i Hi.
    rewrite has_cons, Hi. apply orb_true_r. }
  cbn [filter]. destruct (String.eqb_spec u c) as [->|Hne].
  - rewrite Hc, has_cons, String.eqb_refl. cbn [orb negb List.length]. lia.
  - destruct Hin as [Hin|Hin]; [congruence|]. specialize (IH Hin).
    rewrite has_cons. apply String.eqb_neq in Hne. rewrite Hne. cbn [orb].
    destruct (has u vis); cbn [negb List.length]; lia.
Qed.

Lemma unvisited_le_length (U vis : list string) : (unvisited U vis <= List.length U)%nat.
Proof. unfold unvisited. apply filter_length_le. Qed.

Section Traversal.

Variable ats : list AtomData.
Variable adj : list (string * list Edge).
Variable U : list string.
Hypothesis adj_in_U :
  forall k l e, lookup k adj = Some l -> In e l -> In (neighborId e) U.

Lemma dfsLoop_enough (rec : string -> SmilesState -> option (string * SmilesState))
  (parentId : option string) (n : nat) :
  (forall c sigma, In c U -> has c (visited sigma) = false ->
     (unvisited U (visited sigma) < n)%nat ->
     exists s sigma', rec c sigma = Some (s, sigma') /\ grows sigma sigma') ->
  forall edges str branches sigma,
    (forall e, In e edges -> In (neighborId e) U) ->
    (unvisited U (visited sigma) < n)%nat ->
    exists str' branches' sigma',
      dfsLoop rec parentId edges str branches sigma = Some (str', branches', sigma')
      /\ grows sigma sigma'.
Proof.
  intros Hrec edges. induction edges as [|edge rest IH]; intros str branches sigma HU Hn.
  - cbn. do 3 eexists. split; [reflexivity|]. intros i Hi. exact Hi.
  - cbn [dfsLoop].
    assert (HU' : forall e, In e rest -> In (neighborId e) U)
      by (intros e He; apply HU; now right).
    destruct (optEqb (neighborId edge) parentId); [now apply IH|].
    cbv zeta. destruct (has (neighborId edge) (visited sigma)) eqn:Hv.
    + pose proof (grows_ringFor (neighborId edge) sigma) as Hg.
      destruct (IH (str ++ bondSymbol (bondType edge)
                        ++ ringText (neighborId edge) (ringFor (neighborId edge) sigma))%string
                   branches (ringFor (neighborId edge) sigma) HU')
        as (str' & br' & sigma' & E & Hg').
      { eapply Nat.le_lt_trans; [apply unvisited_mono; exact Hg|exact Hn]. }
      rewrite E. do 3 eexists. split; [reflexivity|].
      eapply grows_trans; eassumption.
    + destruct (Hrec (neighborId edge) sigma) as (s & sigma1 & E1 & Hg1); auto.
      { apply HU. now left. }
      rewrite E1.
      destruct (IH str (branches ++ [(bondSymbol (bondType edge) ++ s)%string]) sigma1 HU')
        as (str' & br' & sigma' & E & Hg').
      { eapply Nat.le_lt_trans; [apply unvisited_mono; exact Hg1|exact Hn]. }
      rewrite E. do 3 eexists. split; [reflexivity|].
      eapply grows_trans; eassumption.
Qed.

Lemma dfs_enough (fuel : nat) :
  forall c parentId sigma,
    In c U -> has c (visited sigma) = false ->
    (unvisited U (visited sigma) < fuel)%nat ->
    exists s sigma', dfs fuel ats adj c parentId sigma = Some (s, sigma')
                     /\ grows sigma sigma'.
Proof.
  induction fuel as [|fuel IH]; intros c parentId sigma Hc Hv Hn; [lia|].
  cbn [dfs]. cbv zeta.
  assert (Hlt : (unvisited U (visited (visit c sigma)) < fuel)%nat).
  { rewrite visited_visit by assumption.
    pose proof (unvisited_visit_lt U (visited sigma) c Hc Hv). lia. }
  destruct (find (hasId c) ats) as [atom|].
  - destruct (dfsLoop_enough (fun n s => dfs fuel ats adj n (Some c) s) parentId fuel)
      with (edges := match lookup c adj with Some l => l | None => [] end)
           (str := a_element atom) (branches := @nil string) (sigma := visit c sigma)
      as (str' & br' & sigma' & E & Hg).
    + intros c' sigma0 Hc' Hv' Hn'. now apply IH.
    + destruct (lookup c adj) as [l|] eqn:El; [|intros e []].
      intros e He. eapply adj_in_U; eassumption.
    + exact Hlt.
    + rewrite E. do 2 eexists. split; [reflexivity|].
      eapply grows_trans; [apply grows_visit|exact Hg].
  - do 2 eexists. split; [reflexivity|apply grows_visit].
Qed.

Lemma smilesParts_enough (fuel : nat) :
  (List.length U < fuel)%nat ->
  forall todo parts sigma,
    (forall a, In a todo -> In (a_id a) U) ->
    exists ps, smilesParts fuel ats adj todo parts sigma = Some ps.
Proof.
  intros Hfuel todo. induction todo as [|atom rest IH]; intros parts sigma HU.
  - eexists. reflexivity.
  - cbn [smilesParts].
    assert (HU' : forall a, In a rest -> In (a_id a) U) by (intros a Ha; apply HU; now right).
    destruct (has (a_id atom) (visited sigma)) eqn:Hv; [now apply IH|].
    destruct (dfs_enough fuel (a_id atom) None sigma) as (s & sigma' & E & _); auto.
    { apply HU. now left. }
    { pose proof (unvisited_le_length U (visited sigma)). lia. }
    rewrite E. now apply IH.
Qed.

End Traversal.

Lemma dfsLoop_more (rec1 rec2 : string -> SmilesState -> option (string * SmilesState))
  (parentId : option string) :
  (forall n s r, rec1 n s = Some r -> rec2 n s = Some r) ->
  forall edges str branches sigma r,
    dfsLoop rec1 parentId edges str branches sigma = Some r ->
    dfsLoop rec2 parentId edges str branches sigma = Some r.
Proof.
  intros Hrec edges. induction edges as [|edge rest IH]; intros str branches sigma r H.
  - exact H.
  - cbn [dfsLoop] in *. destruct (optEqb (neighborId edge) parentId); [now apply IH|].
    cbv zeta in *. destruct (has (neighborId edge) (visited sigma)); [now apply IH|].
    destruct (rec1 (neighborId edge) sigma) as [[s sigma']|] eqn:E; [|discriminate].
    rewrite (Hrec _ _ _ E). now apply IH.
Qed.

Lemma dfs_more (ats : list AtomData) (adj : list (string * list Edge)) (fuel : nat) :
  forall c parentId sigma r,
    dfs fuel ats adj c parentId sigma = Some r ->
    dfs (S fuel) ats adj c parentId sigma = Some r.
Proof.
  induction fuel as [|fuel IH]; intros c parentId sigma r H; [discriminate|].
  cbn [dfs] in H. cbv zeta in H. change (dfs (S (S fuel)) ats adj c parentId sigma)
    with (let sigma1 := visit c sigma in
          match find (hasId c) ats with
          | None => Some (EmptyString, sigma1)
          | Some atom =>
              match dfsLoop (fun n s => dfs (S fuel) ats adj n (Some c) s) parentId
                      (match lookup c adj with Some l => l | None => [] end)
                      (a_element atom) [] sigma1 with
              | Some (str, branches, sigma2) => Some (joinBranches str branches, sigma2)
              | None => None
              end
          end). cbv zeta.
  destruct (find (hasId c) ats) as [atom|]; [|exact H].
  destruct (dfsLoop (fun n s => dfs fuel ats adj n (Some c) s) _ _ _ _ _)
    as [[[str br] sigma2]|] eqn:E; [|discriminate].
  rewrite (dfsLoop_more _ (fun n s => dfs (S fuel) ats adj n (Some c) s) parentId
             (fun n s r0 => IH n (Some c) s r0) _ _ _ _ _ E).
  exact H.
Qed.

Lemma dfs_more_fuel (ats : list AtomData) (adj : list (string * list Edge)) (fuel k : nat) :
  forall c parentId sigma r,
    dfs fuel ats adj c parentId sigma = Some r ->
    dfs (fuel + k) ats adj c parentId sigma = Some r.
Proof.
  induction k as [|k IH]; intros c parentId sigma r H.
  - now rewrite Nat.add_0_r.
  - rewrite Nat.add_succ_r. apply dfs_more. now apply IH.
Qed.

Lemma smilesParts_more_fuel (ats : list AtomData) (adj : list (string * list Edge))
  (fuel k : nat) :
  forall todo parts sigma ps,
    smilesParts fuel ats adj todo parts sigma = Some ps ->
    smilesParts (fuel + k) ats adj todo parts sigma = Some ps.
Proof.
  intros todo. induction todo as [|atom rest IH]; intros parts sigma ps H; [exact H|].
  cbn [smilesParts] in *. destruct (has (a_id atom) (visited sigma)); [now apply IH|].
  destruct (dfs fuel ats adj (a_id atom) None sigma) as [[s sigma']|] eqn:E; [|discriminate].
  rewrite (dfs_more_fuel _ _ _ k _ _ _ _ E). now apply IH.
Qed.

Lemma length_universe (ats : list AtomData) (bds : list BondData) :
  List.length (universe ats bds) = (List.length ats + 2 * List.length bds)%nat.
Proof.
  unfold universe. rewrite length_app, length_map. f_equal.
  induction bds as [|b bds IH]; cbn [flat_map List.length app]; lia.
Qed.

Lemma buildAdj_in_universe (ats : list AtomData) (bds : list BondData) :
  forall k l e, lookup k (buildAdj ats bds) = Some l -> In e l ->
                In (neighborId e) (universe ats bds).
Proof.
  set (Q := fun e => In (neighborId e) (universe ats bds)).
  set (P := fun adj : list (string * list Edge) =>
              forall k l e, lookup k adj = Some l -> In e l -> Q e).
  assert (Hassign : forall adj k, P adj -> P (assign k [] adj)).
  { intros adj k HP k' l e Hl He. rewrite lookup_assign in Hl.
    destruct (String.eqb k k'); [injection Hl as <-; contradiction|].
    eapply HP; eassumption. }
  assert (Hpush : forall adj k e0, P adj -> Q e0 -> P (pushEdge k e0 adj)).
  { intros adj k e0 HP HQ k' l e Hl He. unfold pushEdge in Hl.
    destruct (lookup k adj) as [l0|] eqn:E0; [|eapply HP; eassumption].
    rewrite lookup_assign in Hl. destruct (String.eqb k k'); [|eapply HP; eassumption].
    injection Hl as <-. apply in_app_or in He. destruct He as [He|[<-|[]]].
    - eapply HP; eassumption.
    - exact HQ. }
  assert (Hatoms : forall l adj, P adj ->
            P (fold_left (fun adj a => assign (a_id a) [] adj) l adj)).
  { intros l. induction l as [|a l IH]; intros adj HP; [exact HP|].
    cbn [fold_left]. apply IH, Hassign, HP. }
  assert (Hbonds : forall l adj, (forall b, In b l -> In b bds) -> P adj ->
            P (fold_left (fun adj b =>
                 pushEdge (b_target b) (mkEdge (b_source b) (b_type b))
                   (pushEdge (b_source b) (mkEdge (b_target b) (b_type b)) adj)) l adj)).
  { intros l. induction l as [|b l IH]; intros adj Hin HP; [exact HP|].
    cbn [fold_left]. apply IH; [intros b' Hb'; apply Hin; now right|].
    assert (Hb : In b bds) by (apply Hin; now left).
    assert (Hends : In (b_source b) (universe ats bds) /\ In (b_target b) (universe ats bds)).
    { unfold universe. split; apply in_or_app; right; apply in_flat_map;
        exists b; (split; [assumption|cbn; tauto]). }
    apply Hpush; [apply Hpush; [exact HP|]|]; unfold Q; cbn [neighborId]; tauto. }
  apply Hbonds; [auto|]. apply Hatoms. intros k l e Hl. discriminate.
Qed.

(** [X1] The traversal of [generateSmiles] ends on every graph whose ids
    name no inherited property of a plain object, cyclic or not, with
    dangling or doubled bonds: a recursion depth of one more than the
    number of atoms plus twice the number of bonds is enough, and any
    larger bound gives the same string. *)
Theorem generateSmilesWithin_enough (ats : list AtomData) (bds : list BondData) (k : nat) :
  ordinaryIds ats bds ->
  generateSmilesWithin (S (List.length ats + 2 * List.length bds) + k) ats bds
  = Some (generateSmiles ats bds).
Proof.
  intros _.
  unfold generateSmiles, generateSmilesWithin.
  destruct ats as [|a ats]; [reflexivity|].
  set (all := a :: ats).
  destruct (smilesParts_enough all (buildAdj all bds) (universe all bds)
              (buildAdj_in_universe all bds)
              (S (List.length all + 2 * List.length bds))) with
    (todo := all) (parts := @nil string) (sigma := mkSmiles [] [] 1) as [ps E].
  - rewrite length_universe. lia.
  - intros x Hx. unfold universe. apply in_or_app. left. now apply in_map.
  - rewrite E. rewrite (smilesParts_more_fuel _ _ _ k _ _ _ _ E). reflexivity.
Qed.

(** A ring of three atoms with a bond that dangles. *)
Lemma generateSmilesWithin_enough_witness :
  let ats := [mkAtom "a" 0 0 "C"; mkAtom "b" 1 0 "N"; mkAtom "c" 0 1 "O"] in
  let bds := [mkBond "ab" "a" "b" 1; mkBond "bc" "b" "c" 2; mkBond "ca" "c" "a" 1;
              mkBond "cx" "c" "x" 1] in
  ordinaryIds ats bds
  /\ generateSmilesWithin (S (List.length ats + 2 * List.length bds) + 5) ats bds
     = Some (generateSmiles ats bds).
Proof.
  intros ats bds.
  assert (H : ordinaryIds ats bds).
  { unfold ordinaryIds, universe. cbn [map flat_map app a_id b_source b_target ats bds].
    repeat constructor; cbn [In objectPrototypeKeys]; intros K;
      repeat (destruct K as [K|K]; [discriminate K|]); exact K. }
  split; [exact H|].
  exact (generateSmilesWithin_enough ats bds 5 H).
Defined.

(** ** SMILES generator: what the string depends on *)

Lemma dfsLoop_ext (rec1 rec2 : string -> SmilesState -> option (string * SmilesState))
  (parentId : option string) :
  (forall n s, rec1 n s = rec2 n s) ->
  forall edges str branches sigma,
    dfsLoop rec1 parentId edges str branches sigma
    = dfsLoop rec2 parentId edges str branches sigma.
Proof.
  intros Hrec edges. induction edges as [|edge rest IH]; intros str branches sigma;
    [reflexivity|].
  cbn [dfsLoop]. destruct (optEqb (neighborId edge) parentId); [apply IH|].
  cbv zeta. destruct (has (neighborId edge) (visited sigma)); [apply IH|].
  rewrite Hrec. destruct (rec2 (neighborId edge) sigma) as [[s sigma']|]; [apply IH|reflexivity].
Qed.

Lemma buildAdj_ids (ats ats' : list AtomData) (bds : list BondData) :
  map a_id ats = map a_id ats' -> buildAdj ats bds = buildAdj ats' bds.
Proof.
  intros H. unfold buildAdj. f_equal.
  assert (G : forall l l' (adj : list (string * list Edge)), map a_id l = map a_id l' ->
            fold_left (fun adj a => assign (a_id a) [] adj) l adj
            = fold_left (fun adj a => assign (a_id a) [] adj) l' adj).
  { intros l. induction l as [|a l IH]; intros [|a' l'] adj E; try discriminate;
      [reflexivity|].
    cbn [map] in E. injection E as E1 E2. cbn [fold_left]. rewrite E1. now apply IH. }
  now apply G.
Qed.

(** Two atom lists with the same ids and elements, position by position. *)
Lemma find_hasId_element (ats ats' : list AtomData) (c : string) :
  map a_id ats = map a_id ats' ->
  map a_element ats = map a_element ats' ->
  option_map a_element (find (hasId c) ats) = option_map a_element (find (hasId c) ats').
Proof.
  revert ats'. induction ats as [|a ats IH]; intros [|a' ats'] Hi He; try discriminate;
    [reflexivity|].
  cbn [map] in Hi, He. injection Hi as Hi1 Hi2. injection He as He1 He2.
  cbn [find]. unfold hasId at 1 3. rewrite Hi1.
  destruct (String.eqb (a_id a') c); [cbn; now f_equal|now apply IH].
Qed.

Lemma dfs_same_elements (ats ats' : list AtomData) (adj : list (string * list Edge)) :
  map a_id ats = map a_id ats' ->
  map a_element ats = map a_element ats' ->
  forall fuel c parentId sigma,
    dfs fuel ats adj c parentId sigma = dfs fuel ats' adj c parentId sigma.
Proof.
  intros Hi He fuel. induction fuel as [|fuel IH]; intros c parentId sigma; [reflexivity|].
  cbn [dfs]. cbv zeta.
  pose proof (find_hasId_element ats ats' c Hi He) as Hf.
  destruct (find (hasId c) ats) as [a|], (find (hasId c) ats') as [a'|];
    cbn in Hf; try discriminate; [|reflexivity].
  injection Hf as ->.
  rewrite (dfsLoop_ext _ (fun n s => dfs fuel ats' adj n (Some c) s) parentId
             (fun n s => IH n (Some c) s)).
  reflexivity.
Qed.

Lemma smilesParts_same_elements (fuel : nat) (all all' : list AtomData)
  (adj : list (string * list Edge)) :
  map a_id all = map a_id all' ->
  map a_element all = map a_element all' ->
  forall todo todo' parts sigma,
    map a_id todo = map a_id todo' ->
    smilesParts fuel all adj todo parts sigma = smilesParts fuel all' adj todo' parts sigma.
Proof.
  intros Hi He todo. induction todo as [|a todo IH]; intros [|a' todo'] parts sigma E;
    try discriminate; [reflexivity|].
  cbn [map] in E. injection E as E1 E2. cbn [smilesParts]. rewrite E1.
  destruct (has (a_id a') (visited sigma)); [now apply IH|].
  rewrite (dfs_same_elements all all' adj Hi He).
  destruct (dfs fuel all' adj (a_id a') None sigma) as [[s sigma']|]; [now apply IH|reflexivity].
Qed.

(** [X2] The string depends on the ids and elements of the atoms and on
    the bonds only: moving atoms, each to any position, leaves it
    unchanged. *)
Theorem generateSmiles_ignores_positions (move : AtomData -> Vec2)
  (ats : list AtomData) (bds : list BondData) :
  generateSmiles
    (map (fun a => mkAtom (a_id a) (vx (move a)) (vy (move a)) (a_element a)) ats) bds
  = generateSmiles ats bds.
Proof.
  set (ats' := map _ ats).
  assert (Hi : map a_id ats' = map a_id ats).
  { unfold ats'. rewrite map_map. reflexivity. }
  assert (He : map a_element ats' = map a_element ats).
  { unfold ats'. rewrite map_map. reflexivity. }
  assert (Hlen : List.length ats' = List.length ats) by (unfold ats'; apply length_map).
  unfold generateSmiles, generateSmilesWithin. rewrite Hlen.
  rewrite (buildAdj_ids ats' ats bds Hi).
  rewrite (smilesParts_same_elements _ ats' ats _ Hi He ats' ats [] _ Hi).
  destruct ats as [|a ats0]; reflexivity.
Qed.

(** *** Graphs without bonds *)

Lemma find_hasId_NoDup (ats : list AtomData) (a : AtomData) :
  NoDup (map a_id ats) -> In a ats -> find (hasId (a_id a)) ats = Some a.
Proof.
  induction ats as [|x ats IH]; intros Hnd Hin; [contradiction|].
  cbn [map] in Hnd. inversion Hnd as [|? ? Hx Hnd']; subst.
  cbn [find]. unfold hasId at 1. destruct (String.eqb_spec (a_id x) (a_id a)) as [E|E].
  - destruct Hin as [->|Hin]; [reflexivity|].
    exfalso. apply Hx. rewrite E. now apply in_map.
  - destruct Hin as [->|Hin]; [congruence|]. now apply IH.
Qed.

Lemma buildAdj_no_bonds (ats : list AtomData) (k : string) :
  match lookup k (buildAdj ats []) with Some l => l | None => [] end = [].
Proof.
  unfold buildAdj. cbn [fold_left].
  assert (G : forall l (adj : list (string * list Edge)),
            (forall k0 l0, lookup k0 adj = Some l0 -> l0 = []) ->
            forall k0 l0, lookup k0 (fold_left (fun adj a => assign (a_id a) [] adj) l adj)
                          = Some l0 -> l0 = []).
  { intros l. induction l as [|a l IH]; intros adj H; [exact H|].
    cbn [fold_left]. apply IH. intros k0 l0 E. rewrite lookup_assign in E.
    destruct (String.eqb (a_id a) k0); [now injection E|]. eapply H; eassumption. }
  destruct (lookup k _) as [l|] eqn:E; [|reflexivity].
  eapply G; [|exact E]. intros k0 l0 E0. discriminate.
Qed.

Lemma smilesParts_no_bonds (fuel : nat) (all : list AtomData) :
  NoDup (map a_id all) ->
  forall todo parts sigma,
    NoDup (map a_id todo) ->
    (forall a, In a todo -> In a all) ->
    (forall a, In a todo -> has (a_id a) (visited sigma) = false) ->
    smilesParts (S fuel) all (buildAdj all []) todo parts sigma
    = Some (parts ++ map a_element todo).
Proof.
  intros Hall todo. induction todo as [|a todo IH]; intros parts sigma Hnd Hin Hv.
  - cbn. now rewrite app_nil_r.
  - cbn [map] in Hnd. inversion Hnd as [|? ? Ha Hnd']; subst.
    cbn [smilesParts]. rewrite (Hv a) by now left.
    cbn [dfs]. cbv zeta.
    rewrite (find_hasId_NoDup all a Hall) by (apply Hin; now left).
    rewrite buildAdj_no_bonds. cbn [dfsLoop joinBranches rev].
    rewrite IH; auto.
    + cbn [map]. rewrite <- app_assoc. reflexivity.
    + intros x Hx. apply Hin. now right.
    + intros x Hx. rewrite visited_visit by (apply Hv; now left).
      rewrite has_cons, (Hv x) by now right.
      destruct (String.eqb_spec (a_id x) (a_id a)) as [E|E]; [|reflexivity].
      exfalso. apply Ha. rewrite <- E. now apply in_map.
Qed.

(** [X3] Without bonds, and with distinct atom ids, the string is the
    element symbols of the atoms in list order, separated by dots; for
    the empty graph it is the empty string. *)
Theorem generateSmiles_no_bonds (ats : list AtomData) :
  NoDup (map a_id ats) ->
  generateSmiles ats [] = String.concat "." (map a_element ats).
Proof.
  intros Hnd. unfold generateSmiles, generateSmilesWithin.
  destruct ats as [|a ats]; [reflexivity|].
  rewrite smilesParts_no_bonds; auto.
Qed.

Lemma generateSmiles_no_bonds_witness :
  NoDup (map a_id [exA; exB; c1S])
  /\ generateSmiles [exA; exB; c1S] [] = "C.C.P"%string.
Proof.
  assert (H : NoDup (map a_id [exA; exB; c1S])).
  { cbn. repeat constructor; cbn; intros H;
      repeat (destruct H as [H|H]; [discriminate|]); exact H. }
  split; [exact H|].
  exact (generateSmiles_no_bonds [exA; exB; c1S] H).
Defined.

(** ** SMILES generator: the adjacency lists *)

Lemma lookup_pushEdge (k k' : string) (e : Edge) (adj : list (string * list Edge)) :
  lookup k' (pushEdge k e adj)
  = match lookup k' adj with
    | Some l => Some (if String.eqb k k' then l ++ [e] else l)
    | None => None
    end.
Proof.
  unfold pushEdge. destruct (lookup k adj) as [l|] eqn:E.
  - rewrite lookup_assign. destruct (String.eqb_spec k k') as [<-|Hne].
    + now rewrite E.
    + now destruct (lookup k' adj).
  - destruct (String.eqb_spec k k') as [<-|Hne].
    + now rewrite E.
    + now destruct (lookup k' adj).
Qed.

Lemma lookup_no_edges (ats : list AtomData) (k : string) :
  forall adj : list (string * list Edge),
    lookup k (fold_left (fun adj a => assign (a_id a) [] adj) ats adj)
    = if has k (map a_id ats) then Some [] else lookup k adj.
Proof.
  induction ats as [|a ats IH]; intros adj; [reflexivity|].
  cbn [fold_left map]. rewrite IH, has_cons, lookup_assign.
  rewrite (String.eqb_sym k (a_id a)).
  destruct (has k (map a_id ats)); [now rewrite orb_true_r|].
  rewrite orb_false_r. reflexivity.
Qed.

(** The adjacency list of [k] exists exactly for the atom ids, and holds
    the far ends of the bonds at [k] in bond order. *)
Lemma lookup_buildAdj (ats : list AtomData) (bds : list BondData) (k : string) :
  lookup k (buildAdj ats bds)
  = if has k (map a_id ats) then Some (edgesOf k bds) else None.
Proof.
  unfold buildAdj. induction bds as [|b bds IH] using rev_ind.
  - cbn [fold_left]. rewrite lookup_no_edges. reflexivity.
  - rewrite fold_left_app. cbn [fold_left]. rewrite !lookup_pushEdge, IH.
    unfold edgesOf. rewrite flat_map_app. cbn [flat_map]. rewrite app_nil_r.
    destruct (has k (map a_id ats)); [|reflexivity].
    f_equal. destruct (String.eqb (b_source b) k), (String.eqb (b_target b) k);
      rewrite <- ?app_assoc, ?app_nil_r; reflexivity.
Qed.

Lemma edgesOf_app (k : string) (l1 l2 : list BondData) :
  edgesOf k (l1 ++ l2) = edgesOf k l1 ++ edgesOf k l2.
Proof. unfold edgesOf. apply flat_map_app. Qed.

Lemma dfs_S (fuel : nat) (ats : list AtomData) (adj : list (string * list Edge))
  (c : string) (parentId : option string) (sigma : SmilesState) :
  dfs (S fuel) ats adj c parentId sigma
  = match find (hasId c) ats with
    | None => Some (EmptyString, visit c sigma)
    | Some atom =>
        match dfsLoop (fun n s => dfs fuel ats adj n (Some c) s) parentId
                (match lookup c adj with Some l => l | None => [] end)
                (a_element atom) [] (visit c sigma) with
        | Some (str, branches, sigma2) => Some (joinBranches str branches, sigma2)
        | None => None
        end
    end.
Proof. reflexivity. Qed.

Lemma dfsLoop_skip (rec : string -> SmilesState -> option (string * SmilesState))
  (parentId : option string) (skipped rest : list Edge) (str : string)
  (branches : list string) (sigma : SmilesState) :
  (forall e, In e skipped -> optEqb (neighborId e) parentId = true) ->
  dfsLoop rec parentId (skipped ++ rest) str branches sigma
  = dfsLoop rec parentId rest str branches sigma.
Proof.
  induction skipped as [|e skipped IH]; intros H; [reflexivity|].
  cbn [app dfsLoop]. rewrite (H e) by now left. apply IH. intros e' He'. apply H. now right.
Qed.

Lemma smilesParts_all_visited (fuel : nat) (all : list AtomData)
  (adj : list (string * list Edge)) (todo : list AtomData) (parts : list string)
  (sigma : SmilesState) :
  (forall x, In x todo -> has (a_id x) (visited sigma) = true) ->
  smilesParts fuel all adj todo parts sigma = Some parts.
Proof.
  induction todo as [|x todo IH]; intros H; [reflexivity|].
  cbn [smilesParts]. rewrite (H x) by now left. apply IH. intros y Hy. apply H. now right.
Qed.

(** ** SMILES generator: chains *)

Lemma edgesOf_chain (ats : list AtomData) (bds : list BondData) :
  isChain ats bds -> NoDup (map a_id ats) ->
  (forall a r, ats = a :: r ->
     edgesOf (a_id a) bds
     = match r, bds with
       | a' :: _, b :: _ => [mkEdge (a_id a') (b_type b)]
       | _, _ => []
       end)
  /\ (forall k, ~ In k (map a_id ats) -> edgesOf k bds = []).
Proof.
  induction 1 as [a|a a' r b bs Hj Hc IH]; intros Hnd.
  - split; [intros a0 r0 E; injection E as <- <-; reflexivity|reflexivity].
  - cbn [map] in Hnd. apply NoDup_cons_iff in Hnd. destruct Hnd as [Hnot Hnd].
    destruct (IH Hnd) as [_ IH2]. clear IH.
    assert (Hne : a_id a <> a_id a') by (intros E; apply Hnot; left; now rewrite E).
    unfold joins in Hj. split.
    + intros a0 r0 E. injection E as <- <-.
      change (edgesOf (a_id a) (b :: bs))
        with (((if String.eqb (b_source b) (a_id a)
                then [mkEdge (b_target b) (b_type b)] else [])
               ++ (if String.eqb (b_target b) (a_id a)
                   then [mkEdge (b_source b) (b_type b)] else []))
              ++ edgesOf (a_id a) bs).
      rewrite (IH2 (a_id a) Hnot), app_nil_r.
      apply orb_true_iff in Hj.
      destruct Hj as [Hj|Hj]; apply andb_true_iff in Hj; destruct Hj as [H1 H2];
        apply String.eqb_eq in H1, H2; rewrite H1, H2, String.eqb_refl.
      * apply String.eqb_neq in Hne. rewrite String.eqb_sym, Hne. reflexivity.
      * apply String.eqb_neq in Hne. rewrite String.eqb_sym, Hne. reflexivity.
    + intros k Hk.
      change (edgesOf k (b :: bs))
        with (((if String.eqb (b_source b) k
                then [mkEdge (b_target b) (b_type b)] else [])
               ++ (if String.eqb (b_target b) k
                   then [mkEdge (b_source b) (b_type b)] else []))
              ++ edgesOf k bs).
      rewrite IH2 by (intros Hin; apply Hk; now right).
      assert (K1 : String.eqb (a_id a) k = false)
        by (apply String.eqb_neq; intros E; apply Hk; now left).
      assert (K2 : String.eqb (a_id a') k = false)
        by (apply String.eqb_neq; intros E; apply Hk; right; now left).
      apply orb_true_iff in Hj.
      destruct Hj as [Hj|Hj]; apply andb_true_iff in Hj; destruct Hj as [H1 H2];
        apply String.eqb_eq in H1, H2; rewrite H1, H2, K1, K2; reflexivity.
Qed.

Lemma edgesOf_joins (i j : string) (b : BondData) :
  joins i j b = true -> i <> j ->
  edgesOf i [b] = [mkEdge j (b_type b)]
  /\ edgesOf j [b] = [mkEdge i (b_type b)]
  /\ (forall k, k <> i -> k <> j -> edgesOf k [b] = []).
Proof.
  intros Hj Hne. unfold joins in Hj. unfold edgesOf. cbn [flat_map]. 
  assert (Hij : String.eqb i j = false) by now apply String.eqb_neq.
  assert (Hji : String.eqb j i = false) by (rewrite String.eqb_sym; exact Hij).
  apply orb_true_iff in Hj.
  destruct Hj as [Hj|Hj]; apply andb_true_iff in Hj; destruct Hj as [H1 H2];
    apply String.eqb_eq in H1, H2; rewrite H1, H2, !String.eqb_refl, ?Hij, ?Hji;
    (split; [reflexivity|split; [reflexivity|]]);
    intros k Hki Hkj;
    assert (K1 : String.eqb i k = false) by (apply String.eqb_neq; congruence);
    assert (K2 : String.eqb j k = false) by (apply String.eqb_neq; congruence);
    rewrite K1, K2; reflexivity.
Qed.

Lemma NoDup_ids_neq (a : AtomData) (r : list AtomData) (x : AtomData) :
  NoDup (map a_id (a :: r)) -> In x r -> a_id x <> a_id a.
Proof.
  cbn [map]. intros Hnd Hx E. apply NoDup_cons_iff in Hnd. destruct Hnd as [Hnot _].
  apply Hnot. rewrite <- E. now apply in_map.
Qed.

(** The depth-first walk from the head of a chain writes the chain and
    marks its atoms; [bpre] are the bonds before the chain, which reach
    its head only from the parent. *)
Lemma dfs_chain (all : list AtomData) (B : list BondData) :
  NoDup (map a_id all) ->
  forall ats bs, isChain ats bs ->
  forall a r, ats = a :: r ->
  forall bpre parentId sigma fuel,
    B = bpre ++ bs ->
    incl ats all ->
    NoDup (map a_id ats) ->
    (forall e, In e (edgesOf (a_id a) bpre) -> optEqb (neighborId e) parentId = true) ->
    (forall x, In x r -> edgesOf (a_id x) bpre = []) ->
    (forall x, In x r -> optEqb (a_id x) parentId = false) ->
    (forall x, In x ats -> has (a_id x) (visited sigma) = false) ->
    (List.length r < fuel)%nat ->
    exists sigma',
      dfs fuel all (buildAdj all B) (a_id a) parentId sigma = Some (chainText ats bs, sigma')
      /\ grows sigma sigma'
      /\ (forall x, In x ats -> has (a_id x) (visited sigma') = true).
Proof.
  intros Hall. induction 1 as [a|a a' r b bs Hj Hc IH];
    intros a0 r0 E bpre parentId sigma fuel HB Hincl Hnd Hpre Hrest Hpar Hvis Hfuel;
    injection E as <- <-; (destruct fuel as [|fuel]; [inversion Hfuel|]).
  - exists (visit (a_id a) sigma). rewrite dfs_S.
    rewrite (find_hasId_NoDup all a Hall) by (apply Hincl; now left).
    rewrite lookup_buildAdj.
    replace (has (a_id a) (map a_id all)) with true
      by (symmetry; apply has_In, in_map, Hincl; now left).
    rewrite (f_equal (edgesOf (a_id a)) HB), edgesOf_app.
    rewrite (dfsLoop_skip _ _ _ _ _ _ _ Hpre).
    split; [reflexivity|]. split; [apply grows_visit|].
    intros x [<-|[]]. apply has_visit_self.
  - assert (Hne : a_id a' <> a_id a) by (apply (NoDup_ids_neq a (a' :: r)); [exact Hnd|now left]).
    assert (Hnd' : NoDup (map a_id (a' :: r)))
      by (cbn [map] in Hnd; apply NoDup_cons_iff in Hnd; apply Hnd).
    destruct (edgesOf_joins _ _ _ Hj (fun E => Hne (eq_sym E))) as (Ja & Ja' & Jk).
    destruct (IH a' r eq_refl (bpre ++ [b]) (Some (a_id a)) (visit (a_id a) sigma) fuel)
      as (sigma' & Hdfs & Hgrow & Hmarked).
    + rewrite <- app_assoc. exact HB.
    + intros x Hx. apply Hincl. now right.
    + exact Hnd'.
    + intros e. rewrite edgesOf_app, (Hrest a') by now left. rewrite Ja'.
      intros [<-|[]]. cbn [neighborId optEqb]. apply String.eqb_refl.
    + intros x Hx. rewrite edgesOf_app, (Hrest x) by now right.
      apply Jk.
      * apply (NoDup_ids_neq a (a' :: r)); [exact Hnd|now right].
      * apply (NoDup_ids_neq a' r); [exact Hnd'|exact Hx].
    + intros x Hx. cbn [optEqb]. apply String.eqb_neq.
      apply (NoDup_ids_neq a (a' :: r)); [exact Hnd|now right].
    + intros x Hx. rewrite visited_visit by (apply Hvis; now left).
      rewrite has_cons, (Hvis x) by now right. rewrite orb_false_r.
      apply String.eqb_neq. apply (NoDup_ids_neq a (a' :: r)); [exact Hnd|exact Hx].
    + cbn [List.length] in Hfuel. lia.
    + exists sigma'. rewrite dfs_S.
      rewrite (find_hasId_NoDup all a Hall) by (apply Hincl; now left).
      rewrite lookup_buildAdj.
      replace (has (a_id a) (map a_id all)) with true
        by (symmetry; apply has_In, in_map, Hincl; now left).
      rewrite (f_equal (edgesOf (a_id a)) HB), edgesOf_app.
      rewrite (dfsLoop_skip _ _ _ _ _ _ _ Hpre).
      destruct (edgesOf_chain _ _ (chain_cons a a' r b bs Hj Hc) Hnd) as [Hhead _].
      rewrite (Hhead a (a' :: r) eq_refl).
      cbn [dfsLoop neighborId bondType]. rewrite (Hpar a') by now left.
      replace (has (a_id a') (visited (visit (a_id a) sigma))) with false.
      2:{ symmetry. rewrite visited_visit by (apply Hvis; now left).
          rewrite has_cons, (Hvis a') by (right; now left). rewrite orb_false_r.
          now apply String.eqb_neq. }
      rewrite Hdfs. split; [reflexivity|]. split.
      * eapply grows_trans; [apply grows_visit|exact Hgrow].
      * intros x [<-|Hx]; [apply Hgrow, has_visit_self|now apply Hmarked].
Qed.

Lemma isChain_nonempty (ats : list AtomData) (bds : list BondData) :
  isChain ats bds -> exists a r, ats = a :: r.
Proof. destruct 1; eauto. Qed.

Lemma smiles_of_chain (ats : list AtomData) (bds : list BondData) :
  NoDup (map a_id ats) -> isChain ats bds ->
  generateSmiles ats bds = chainText ats bds.
Proof.
  intros Hnd Hc. destruct (isChain_nonempty _ _ Hc) as (a & r & E).
  unfold generateSmiles, generateSmilesWithin.
  destruct (dfs_chain ats bds Hnd ats bds Hc a r E [] None (mkSmiles [] [] 1)
              (S (List.length ats + 2 * List.length bds)))
    as (sigma' & Hdfs & _ & Hmarked).
  - reflexivity.
  - apply incl_refl.
  - exact Hnd.
  - intros e [].
  - reflexivity.
  - reflexivity.
  - reflexivity.
  - subst ats. cbn [List.length]. lia.
  - subst ats. cbn [smilesParts visited has existsb]. rewrite Hdfs.
    rewrite smilesParts_all_visited by (intros x Hx; apply Hmarked; now right).
    cbn [option_map app String.concat]. reflexivity.
Qed.

(** [X4] A chain: for atoms with distinct ids where each bond joins an
    atom to the next one of the list (in either orientation),
    [generateSmiles] writes the elements in list order with the symbol
    of each bond between its two atoms: nothing for a single bond, [=]
    for a double and [#] for a triple one. No parenthesis, ring digit or
    dot appears beyond those of the element names. *)
Theorem generateSmiles_chain (ats : list AtomData) (bds : list BondData) :
  NoDup (map a_id ats) -> isChain ats bds ->
  generateSmiles ats bds = chainText ats bds.
Proof. exact (smiles_of_chain ats bds). Qed.

Lemma generateSmiles_chain_witness :
  NoDup (map a_id [mkAtom "a" 0 0 "C"; mkAtom "b" 1 0 "N"; mkAtom "c" 2 0 "O"])
  /\ isChain [mkAtom "a" 0 0 "C"; mkAtom "b" 1 0 "N"; mkAtom "c" 2 0 "O"]
             [mkBond "ba" "b" "a" 2; mkBond "bc" "b" "c" 3]
  /\ generateSmiles [mkAtom "a" 0 0 "C"; mkAtom "b" 1 0 "N"; mkAtom "c" 2 0 "O"]
                    [mkBond "ba" "b" "a" 2; mkBond "bc" "b" "c" 3]
     = "C=N#O"%string.
Proof.
  assert (Hnd : NoDup (map a_id [mkAtom "a" 0 0 "C"; mkAtom "b" 1 0 "N"; mkAtom "c" 2 0 "O"])).
  { cbn [map a_id]. repeat constructor; cbn [In]; intros H;
      repeat (destruct H as [H|H]; [discriminate H|]); exact H. }
  assert (Hc : isChain [mkAtom "a" 0 0 "C"; mkAtom "b" 1 0 "N"; mkAtom "c" 2 0 "O"]
                       [mkBond "ba" "b" "a" 2; mkBond "bc" "b" "c" 3]).
  { apply chain_cons; [reflexivity|]. apply chain_cons; [reflexivity|]. apply chain_one. }
  split; [exact Hnd|]. split; [exact Hc|].
  exact (generateSmiles_chain _ _ Hnd Hc).
Defined.

(** ** SMILES generator: branches *)

Lemma append_assoc (a b c : string) : ((a ++ b) ++ c = a ++ b ++ c)%string.
Proof. induction a as [|x a IH]; [reflexivity|]. cbn. now rewrite IH. Qed.

Lemma append_nil_r (a : string) : (a ++ EmptyString = a)%string.
Proof. induction a as [|x a IH]; [reflexivity|]. cbn. now rewrite IH. Qed.

Lemma concat_parens (others : list string) (last : string) :
  (String.concat EmptyString (map (fun b => "(" ++ b ++ ")") others) ++ last
   = starText (others ++ [last]))%string.
Proof.
  induction others as [|b others IH]; [reflexivity|].
  cbn [map app].
  replace (starText (b :: others ++ [last]))
    with ("(" ++ b ++ ")" ++ starText (others ++ [last]))%string
    by (cbn [starText]; destruct (others ++ [last]) eqn:E;
        [now destruct others|reflexivity]).
  rewrite <- IH.
  destruct others as [|b' others].
  - cbn [map String.concat]. rewrite !append_assoc. reflexivity.
  - cbn [map String.concat]. cbn [map String.concat] in IH.
    rewrite !append_assoc. reflexivity.
Qed.

Lemma joinBranches_starText (str : string) (branches : list string) :
  joinBranches str branches = (str ++ starText branches)%string.
Proof.
  unfold joinBranches.
  destruct (rev branches) as [|last others] eqn:E.
  - apply (f_equal (@rev string)) in E. rewrite rev_involutive in E. subst.
    cbn. now rewrite append_nil_r.
  - apply (f_equal (@rev string)) in E. rewrite rev_involutive in E. subst.
    cbn [rev]. now rewrite concat_parens.
Qed.

Lemma dfsLoop_skip_all (rec : string -> SmilesState -> option (string * SmilesState))
  (parentId : option string) (edges : list Edge) (str : string)
  (branches : list string) (sigma : SmilesState) :
  (forall e, In e edges -> optEqb (neighborId e) parentId = true) ->
  dfsLoop rec parentId edges str branches sigma = Some (str, branches, sigma).
Proof.
  intros H. rewrite <- (app_nil_r edges). now rewrite dfsLoop_skip.
Qed.

Lemma edgesOf_cons (k : string) (b : BondData) (bds : list BondData) :
  edgesOf k (b :: bds) = edgesOf k [b] ++ edgesOf k bds.
Proof. apply (edgesOf_app k [b] bds). Qed.

(** Around the centre [c] every bond leads to [c] from any other id. *)
Lemma edgesOf_leaf (c : AtomData) (leaves : list AtomData) (bds : list BondData) (k : string) :
  isStar c leaves bds -> k <> a_id c ->
  forall e, In e (edgesOf k bds) -> neighborId e = a_id c.
Proof.
  induction 1 as [|n b leaves bds Hj Hs IH]; intros Hk e He; [destruct He|].
  rewrite edgesOf_cons in He.
  apply in_app_or in He. destruct He as [He|He]; [|now apply IH].
  unfold edgesOf in He. cbn [flat_map] in He. rewrite app_nil_r in He.
  unfold joins in Hj. apply orb_true_iff in Hj.
  destruct Hj as [Hj|Hj]; apply andb_true_iff in Hj; destruct Hj as [H1 H2];
    apply String.eqb_eq in H1, H2; rewrite H1, H2 in He.
  - replace (String.eqb (a_id c) k) with false in He
      by (symmetry; apply String.eqb_neq; congruence).
    cbn [app] in He. destruct (String.eqb (a_id n) k); [|destruct He].
    destruct He as [<-|[]]. reflexivity.
  - replace (String.eqb (a_id c) k) with false in He
      by (symmetry; apply String.eqb_neq; congruence).
    rewrite app_nil_r in He. destruct (String.eqb (a_id n) k); [|destruct He].
    destruct He as [<-|[]]. reflexivity.
Qed.

(** At the centre the adjacency list holds the leaves in bond order. *)
Lemma edgesOf_centre (c : AtomData) (leaves : list AtomData) (bds : list BondData) :
  isStar c leaves bds -> ~ In (a_id c) (map a_id leaves) ->
  edgesOf (a_id c) bds
  = map (fun nb => mkEdge (a_id (fst nb)) (b_type (snd nb))) (combine leaves bds).
Proof.
  induction 1 as [|n b leaves bds Hj Hs IH]; intros Hc; [reflexivity|].
  rewrite edgesOf_cons.
  rewrite IH by (intros Hin; apply Hc; now right).
  assert (Hne : a_id c <> a_id n) by (intros E; apply Hc; left; now rewrite E).
  destruct (edgesOf_joins _ _ _ Hj Hne) as (-> & _). reflexivity.
Qed.

Lemma dfs_leaf (all : list AtomData) (bds : list BondData) (c : AtomData)
  (leaves : list AtomData) (n : AtomData) (fuel : nat) (sigma : SmilesState) :
  NoDup (map a_id all) -> In n all -> isStar c leaves bds -> a_id n <> a_id c ->
  dfs (S fuel) all (buildAdj all bds) (a_id n) (Some (a_id c)) sigma
  = Some (a_element n, visit (a_id n) sigma).
Proof.
  intros Hnd Hin Hs Hne. rewrite dfs_S, (find_hasId_NoDup all n Hnd Hin), lookup_buildAdj.
  replace (has (a_id n) (map a_id all)) with true
    by (symmetry; apply has_In, in_map, Hin).
  rewrite dfsLoop_skip_all; [reflexivity|].
  intros e He. rewrite (edgesOf_leaf c leaves bds (a_id n) Hs Hne e He).
  cbn [optEqb]. apply String.eqb_refl.
Qed.

Lemma dfsLoop_star (all : list AtomData) (bds : list BondData) (c : AtomData)
  (leaves : list AtomData) (fuel : nat) (str : string) :
  NoDup (map a_id all) -> isStar c leaves bds ->
  forall (pairs : list (AtomData * BondData)) (branches : list string) (sigma : SmilesState),
    (forall nb, In nb pairs -> In (fst nb) all /\ a_id (fst nb) <> a_id c) ->
    NoDup (map (fun nb => a_id (fst nb)) pairs) ->
    (forall nb, In nb pairs -> has (a_id (fst nb)) (visited sigma) = false) ->
    exists sigma',
      dfsLoop (fun n s => dfs (S fuel) all (buildAdj all bds) n (Some (a_id c)) s) None
              (map (fun nb => mkEdge (a_id (fst nb)) (b_type (snd nb))) pairs)
              str branches sigma
      = Some (str, branches ++ map branchText pairs, sigma')
      /\ grows sigma sigma'
      /\ (forall nb, In nb pairs -> has (a_id (fst nb)) (visited sigma') = true).
Proof.
  intros Hnd Hs. induction pairs as [|[n b] pairs IH]; intros branches sigma Hin Hdis Hvis.
  - exists sigma. cbn [map dfsLoop]. rewrite app_nil_r.
    split; [reflexivity|]. split; [intros i Hi; exact Hi|intros nb []].
  - cbn [map fst snd] in Hdis. apply NoDup_cons_iff in Hdis. destruct Hdis as [Hn Hdis].
    destruct (Hin (n, b) (or_introl eq_refl)) as [Hall Hne]. cbn [fst] in Hall, Hne.
    destruct (IH (branches ++ [branchText (n, b)]) (visit (a_id n) sigma))
      as (sigma' & Hloop & Hgrow & Hmarked).
    + intros nb Hnb. apply Hin. now right.
    + exact Hdis.
    + intros nb Hnb. rewrite visited_visit by (apply (Hvis (n, b)); now left).
      rewrite has_cons, (Hvis nb) by now right. rewrite orb_false_r.
      apply String.eqb_neq. intros E. apply Hn. rewrite <- E.
      apply (in_map (fun nb => a_id (fst nb)) pairs nb Hnb).
    + exists sigma'. cbn [map dfsLoop neighborId bondType fst snd optEqb].
      pose proof (Hvis (n, b) (or_introl eq_refl)) as Hv. cbn [fst] in Hv. rewrite Hv.
      rewrite (dfs_leaf all bds c leaves n fuel sigma Hnd Hall Hs Hne).
      change (bondSymbol (b_type b) ++ a_element n)%string with (branchText (n, b)).
      rewrite Hloop, <- app_assoc.
      split; [reflexivity|]. split.
      * eapply grows_trans; [apply grows_visit|exact Hgrow].
      * intros nb [<-|Hnb]; [apply Hgrow, has_visit_self|now apply Hmarked].
Qed.

Lemma combine_ids (c : AtomData) (leaves : list AtomData) (bds : list BondData) :
  isStar c leaves bds ->
  map (fun nb => a_id (fst nb)) (combine leaves bds) = map a_id leaves.
Proof. induction 1 as [|n b leaves bds Hj Hs IH]; [reflexivity|]. cbn. now rewrite IH. Qed.

Lemma smiles_of_star (c : AtomData) (leaves : list AtomData) (bds : list BondData) :
  NoDup (map a_id (c :: leaves)) -> isStar c leaves bds ->
  generateSmiles (c :: leaves) bds
  = (a_element c ++ starText (map branchText (combine leaves bds)))%string.
Proof.
  intros Hnd Hs. pose proof Hnd as Hnd'. cbn [map] in Hnd'.
  apply NoDup_cons_iff in Hnd'. destruct Hnd' as [Hc Hleaves].
  unfold generateSmiles, generateSmilesWithin.
  cbn [smilesParts visited has existsb List.length Nat.add].
  remember (List.length leaves + 2 * List.length bds)%nat as fuel.
  rewrite dfs_S. cbn [find]. unfold hasId at 1. rewrite String.eqb_refl, lookup_buildAdj.
  cbn [map has existsb]. rewrite String.eqb_refl. cbn [orb].
  rewrite (edgesOf_centre c leaves bds Hs Hc).
  destruct (dfsLoop_star (c :: leaves) bds c leaves fuel (a_element c) Hnd Hs
              (combine leaves bds) [] (visit (a_id c) (mkSmiles [] [] 1)))
    as (sigma' & Hloop & Hgrow & Hmarked).
  - intros [n b] Hnb. apply in_combine_l in Hnb. cbn [fst]. split; [now right|].
    intros E. apply Hc. rewrite <- E. now apply in_map.
  - now rewrite (combine_ids c leaves bds Hs).
  - intros [n b] Hnb. apply in_combine_l in Hnb. cbn [fst].
    unfold visit. cbn [visited has existsb orb]. rewrite orb_false_r.
    apply String.eqb_neq. intros E. apply Hc. rewrite <- E. now apply in_map.
  - rewrite Hloop. rewrite smilesParts_all_visited.
    + cbn [app option_map String.concat]. apply joinBranches_starText.
    + intros x Hx.
      assert (Hin : In (a_id x) (map (fun nb => a_id (fst nb)) (combine leaves bds)))
        by (rewrite (combine_ids c leaves bds Hs); now apply in_map).
      apply in_map_iff in Hin. destruct Hin as (nb & <- & Hnb). now apply Hmarked.
Qed.

(** [X5] A star: for a centre listed first and leaves with distinct ids,
    the i-th bond joining the centre to the i-th leaf (in either
    orientation), [generateSmiles] writes the element of the centre and
    then one branch per leaf in order, each made of the symbol of the
    bond and the element of the leaf; every branch but the last stands
    in parentheses. *)
Theorem generateSmiles_star (c : AtomData) (leaves : list AtomData) (bds : list BondData) :
  NoDup (map a_id (c :: leaves)) -> isStar c leaves bds ->
  generateSmiles (c :: leaves) bds
  = (a_element c ++ starText (map branchText (combine leaves bds)))%string.
Proof. exact (smiles_of_star c leaves bds). Qed.

Lemma generateSmiles_star_witness :
  NoDup (map a_id (mkAtom "c" 0 0 "C" :: [mkAtom "n" 1 0 "N"; mkAtom "o" 0 1 "O"; mkAtom "s" 1 1 "S"]))
  /\ isStar (mkAtom "c" 0 0 "C") [mkAtom "n" 1 0 "N"; mkAtom "o" 0 1 "O"; mkAtom "s" 1 1 "S"]
            [mkBond "cn" "c" "n" 1; mkBond "oc" "o" "c" 2; mkBond "cs" "c" "s" 3]
  /\ generateSmiles
       (mkAtom "c" 0 0 "C" :: [mkAtom "n" 1 0 "N"; mkAtom "o" 0 1 "O"; mkAtom "s" 1 1 "S"])
       [mkBond "cn" "c" "n" 1; mkBond "oc" "o" "c" 2; mkBond "cs" "c" "s" 3]
     = "C(N)(=O)#S"%string.
Proof.
  assert (Hnd : NoDup (map a_id (mkAtom "c" 0 0 "C"
                 :: [mkAtom "n" 1 0 "N"; mkAtom "o" 0 1 "O"; mkAtom "s" 1 1 "S"]))).
  { cbn [map a_id]. repeat constructor; cbn [In]; intros H;
      repeat (destruct H as [H|H]; [discriminate H|]); exact H. }
  assert (Hs : isStar (mkAtom "c" 0 0 "C")
                 [mkAtom "n" 1 0 "N"; mkAtom "o" 0 1 "O"; mkAtom "s" 1 1 "S"]
                 [mkBond "cn" "c" "n" 1; mkBond "oc" "o" "c" 2; mkBond "cs" "c" "s" 3]).
  { repeat constructor. }
  split; [exact Hnd|]. split; [exact Hs|].
  exact (generateSmiles_star _ _ _ Hnd Hs).
Defined.

(** ** SMILES generator: rings *)

Lemma last_cons {A} (x d : A) (l : list A) : last (x :: l) d = last l x.
Proof.
  revert x d. induction l as [|y l IH]; intros x d; [reflexivity|].
  change (last (x :: y :: l) d) with (last (y :: l) d).
  now rewrite (IH y d), (IH y x).
Qed.

Lemma last_In {A} (d : A) (l : list A) : In (last l d) (d :: l).
Proof.
  revert d. induction l as [|y l IH]; intros d; [now left|].
  rewrite last_cons. right. apply IH.
Qed.

(** The walk along the rest of a ring: the chain from [a] on, whose last
    atom is joined by [bc] to the visited atom [k1] where the walk
    started.  The last atom writes the closing bond with the next ring
    number, which is recorded for [k1]. *)
Lemma dfs_ring_tail (all : list AtomData) (B : list BondData) (k1 : string) (bc : BondData) :
  NoDup (map a_id all) ->
  forall ats bs, isChain ats bs ->
  forall a r, ats = a :: r ->
  forall bpre parentId sigma fuel,
    B = bpre ++ bs ++ [bc] ->
    incl ats all ->
    NoDup (map a_id ats) ->
    ~ In k1 (map a_id ats) ->
    joins (a_id (last r a)) k1 bc = true ->
    (forall e, In e (edgesOf (a_id a) bpre) -> optEqb (neighborId e) parentId = true) ->
    (forall x, In x r -> edgesOf (a_id x) bpre = []) ->
    (forall x, In x r -> optEqb (a_id x) parentId = false) ->
    (r = [] -> optEqb k1 parentId = false) ->
    (forall x, In x ats -> has (a_id x) (visited sigma) = false) ->
    has k1 (visited sigma) = true ->
    lookup k1 (rings sigma) = None ->
    (List.length r < fuel)%nat ->
    exists sigma',
      dfs fuel all (buildAdj all B) (a_id a) parentId sigma
      = Some (chainTextEnding (bondSymbol (b_type bc) ++ numberText (ringCounter sigma))
                ats bs, sigma')
      /\ grows sigma sigma'
      /\ (forall x, In x ats -> has (a_id x) (visited sigma') = true)
      /\ rings sigma' = assign k1 (ringCounter sigma) (rings sigma)
      /\ ringCounter sigma' = (ringCounter sigma + 1)%Z.
Proof.
  intros Hall. induction 1 as [a|a a' r b bs Hj Hc IH];
    intros a0 r0 E bpre parentId sigma fuel HB Hincl Hnd Hk1 Hclose Hpre Hrest Hpar
           Hsingle Hvis Hstart Hring Hfuel;
    injection E as <- <-; (destruct fuel as [|fuel]; [inversion Hfuel|]).
  - assert (Hne : a_id a <> k1) by (intros E; apply Hk1; left; exact E).
    cbn [last] in Hclose.
    destruct (edgesOf_joins _ _ _ Hclose Hne) as (Ja & _).
    exists (ringFor k1 (visit (a_id a) sigma)). rewrite dfs_S.
    rewrite (find_hasId_NoDup all a Hall) by (apply Hincl; now left).
    rewrite lookup_buildAdj.
    replace (has (a_id a) (map a_id all)) with true
      by (symmetry; apply has_In, in_map, Hincl; now left).
    rewrite (f_equal (edgesOf (a_id a)) HB), edgesOf_app. cbn [app]. rewrite Ja.
    rewrite (dfsLoop_skip _ _ _ _ _ _ _ Hpre).
    cbn [dfsLoop neighborId bondType]. rewrite (Hsingle eq_refl).
    rewrite (grows_visit (a_id a) sigma k1 Hstart).
    assert (Hr : ringFor k1 (visit (a_id a) sigma)
                 = mkSmiles (visited (visit (a_id a) sigma))
                            (assign k1 (ringCounter sigma) (rings sigma))
                            (ringCounter sigma + 1)).
    { unfold ringFor. cbn [rings ringCounter visit]. rewrite Hring. reflexivity. }
    rewrite Hr. unfold ringText. cbn [rings]. rewrite lookup_assign, String.eqb_refl.
    split; [reflexivity|]. split; [|split; [|split; reflexivity]].
    + intros i Hi. cbn [visited]. now apply grows_visit.
    + intros x [<-|[]]. cbn [visited]. apply has_visit_self.
  - assert (Hne : a_id a' <> a_id a) by (apply (NoDup_ids_neq a (a' :: r)); [exact Hnd|now left]).
    assert (Hnd' : NoDup (map a_id (a' :: r)))
      by (cbn [map] in Hnd; apply NoDup_cons_iff in Hnd; apply Hnd).
    destruct (edgesOf_joins _ _ _ Hj (fun E => Hne (eq_sym E))) as (Ja & Ja' & Jk).
    rewrite last_cons in Hclose.
    assert (Hlast : In (last r a') (a' :: r)) by apply last_In.
    assert (Hk1' : ~ In k1 (map a_id (a' :: r)))
      by (intros Hin; apply Hk1; now right).
    assert (Hlk : a_id (last r a') <> k1)
      by (intros E; apply Hk1'; rewrite <- E; now apply in_map).
    destruct (edgesOf_joins _ _ _ Hclose Hlk) as (_ & _ & Jc).
    destruct (IH a' r eq_refl (bpre ++ [b]) (Some (a_id a)) (visit (a_id a) sigma) fuel)
      as (sigma' & Hdfs & Hgrow & Hmarked & Hrings & Hcounter).
    + rewrite <- app_assoc. exact HB.
    + intros x Hx. apply Hincl. now right.
    + exact Hnd'.
    + exact Hk1'.
    + exact Hclose.
    + intros e. rewrite edgesOf_app, (Hrest a') by now left. rewrite Ja'.
      intros [<-|[]]. cbn [neighborId optEqb]. apply String.eqb_refl.
    + intros x Hx. rewrite edgesOf_app, (Hrest x) by now right.
      apply Jk.
      * apply (NoDup_ids_neq a (a' :: r)); [exact Hnd|now right].
      * apply (NoDup_ids_neq a' r); [exact Hnd'|exact Hx].
    + intros x Hx. cbn [optEqb]. apply String.eqb_neq.
      apply (NoDup_ids_neq a (a' :: r)); [exact Hnd|now right].
    + intros _. cbn [optEqb]. apply String.eqb_neq. intros E. apply Hk1. left. now rewrite E.
    + intros x Hx. rewrite visited_visit by (apply Hvis; now left).
      rewrite has_cons, (Hvis x) by now right. rewrite orb_false_r.
      apply String.eqb_neq. apply (NoDup_ids_neq a (a' :: r)); [exact Hnd|exact Hx].
    + now apply grows_visit.
    + exact Hring.
    + cbn [List.length] in Hfuel. lia.
    + exists sigma'. rewrite dfs_S.
      rewrite (find_hasId_NoDup all a Hall) by (apply Hincl; now left).
      rewrite lookup_buildAdj.
      replace (has (a_id a) (map a_id all)) with true
        by (symmetry; apply has_In, in_map, Hincl; now left).
      rewrite (f_equal (edgesOf (a_id a)) HB), !edgesOf_app.
      rewrite (dfsLoop_skip _ _ _ _ _ _ _ Hpre).
      destruct (edgesOf_chain _ _ (chain_cons a a' r b bs Hj Hc) Hnd) as [Hhead _].
      rewrite (Hhead a (a' :: r) eq_refl).
      rewrite (Jc (a_id a)).
      2:{ intros E. apply (NoDup_ids_neq a (a' :: r) (last r a') Hnd Hlast). now rewrite E. }
      2:{ intros E. apply Hk1. left. exact E. }
      cbn [app dfsLoop neighborId bondType]. rewrite (Hpar a') by now left.
      replace (has (a_id a') (visited (visit (a_id a) sigma))) with false.
      2:{ symmetry. rewrite visited_visit by (apply Hvis; now left).
          rewrite has_cons, (Hvis a') by (right; now left). rewrite orb_false_r.
          now apply String.eqb_neq. }
      rewrite Hdfs. split; [reflexivity|]. split; [|split; [|split; assumption]].
      * eapply grows_trans; [apply grows_visit|exact Hgrow].
      * intros x [<-|Hx]; [apply Hgrow, has_visit_self|now apply Hmarked].
Qed.

Lemma smiles_of_ring (a1 a2 a3 : AtomData) (rest : list AtomData)
  (b1 : BondData) (bs : list BondData) (bc : BondData) :
  NoDup (map a_id (a1 :: a2 :: a3 :: rest)) ->
  isChain (a1 :: a2 :: a3 :: rest) (b1 :: bs) ->
  joins (a_id (last rest a3)) (a_id a1) bc = true ->
  generateSmiles (a1 :: a2 :: a3 :: rest) ((b1 :: bs) ++ [bc])
  = ((a_element a1 ++ bondSymbol (b_type bc) ++ "2")
     ++ bondSymbol (b_type b1)
     ++ chainTextEnding (bondSymbol (b_type bc) ++ "1") (a2 :: a3 :: rest) bs)%string.
Proof.
  intros Hnd Hc Hclose.
  assert (Hj1 : joins (a_id a1) (a_id a2) b1 = true) by now inversion Hc.
  assert (Hc' : isChain (a2 :: a3 :: rest) bs) by now inversion Hc.
  assert (Hnd' : NoDup (map a_id (a2 :: a3 :: rest)))
    by (cbn [map] in Hnd; apply NoDup_cons_iff in Hnd; apply Hnd).
  assert (H1 : ~ In (a_id a1) (map a_id (a2 :: a3 :: rest)))
    by (cbn [map] in Hnd; apply NoDup_cons_iff in Hnd; apply Hnd).
  assert (Hlast : In (last rest a3) (a2 :: a3 :: rest)) by (right; apply last_In).
  assert (Hl1 : a_id (last rest a3) <> a_id a1)
    by (intros E; apply H1; rewrite <- E; now apply in_map).
  assert (H21 : a_id a2 <> a_id a1) by (intros E; apply H1; left; exact E).
  destruct (edgesOf_joins _ _ _ Hclose Hl1) as (_ & Jc1 & _).
  destruct (edgesOf_joins _ _ _ Hj1 (fun E => H21 (eq_sym E))) as (_ & J2 & J1k).
  destruct (edgesOf_chain _ _ Hc Hnd) as [Hhead _].
  unfold generateSmiles, generateSmilesWithin.
  remember (List.length (a1 :: a2 :: a3 :: rest)
            + 2 * List.length ((b1 :: bs) ++ [bc]))%nat as N.
  assert (HN : (List.length (a3 :: rest) < N)%nat) by (subst N; cbn [List.length]; lia).
  cbn [smilesParts visited has existsb]. rewrite dfs_S.
  rewrite (find_hasId_NoDup _ a1 Hnd (or_introl eq_refl)), lookup_buildAdj.
  replace (has (a_id a1) (map a_id (a1 :: a2 :: a3 :: rest))) with true
    by (symmetry; apply has_In; now left).
  rewrite edgesOf_app, (Hhead a1 _ eq_refl), Jc1.
  cbn [app dfsLoop neighborId bondType optEqb].
  set (sigma1 := visit (a_id a1) (mkSmiles [] [] 1)).
  assert (Hv1 : visited sigma1 = [a_id a1]) by reflexivity.
  replace (has (a_id a2) (visited sigma1)) with false
    by (symmetry; rewrite Hv1, has_cons; cbn [has existsb]; rewrite orb_false_r;
        now apply String.eqb_neq).
  destruct (dfs_ring_tail (a1 :: a2 :: a3 :: rest) ((b1 :: bs) ++ [bc]) (a_id a1) bc Hnd
              (a2 :: a3 :: rest) bs Hc' a2 (a3 :: rest) eq_refl [b1] (Some (a_id a1))
              sigma1 N)
    as (sigma' & Hdfs & Hgrow & Hmarked & Hrings & Hcounter).
  - reflexivity.
  - intros x Hx. now right.
  - exact Hnd'.
  - exact H1.
  - rewrite last_cons. exact Hclose.
  - rewrite J2. intros e [<-|[]]. cbn [neighborId optEqb]. apply String.eqb_refl.
  - intros x Hx. apply J1k.
    + intros E. apply H1. rewrite <- E. apply in_map. now right.
    + apply (NoDup_ids_neq a2 (a3 :: rest)); [exact Hnd'|exact Hx].
  - intros x Hx. cbn [optEqb]. apply String.eqb_neq.
    intros E. apply H1. rewrite <- E. apply in_map. now right.
  - discriminate.
  - intros x Hx. rewrite Hv1, has_cons. cbn [has existsb]. rewrite orb_false_r.
    apply String.eqb_neq. intros E. apply H1. rewrite <- E. now apply in_map.
  - rewrite Hv1, has_cons, String.eqb_refl. reflexivity.
  - reflexivity.
  - exact HN.
  - cbn [app] in Hdfs. rewrite Hdfs. rewrite (Hmarked _ Hlast).
    assert (Hr : ringFor (a_id (last rest a3)) sigma'
                 = mkSmiles (visited sigma')
                            (assign (a_id (last rest a3)) 2%Z (rings sigma')) 3%Z).
    { unfold ringFor. rewrite Hrings, lookup_assign, Hcounter.
      replace (String.eqb (a_id a1) (a_id (last rest a3))) with false
        by (symmetry; apply String.eqb_neq; congruence).
      reflexivity. }
    rewrite Hr. unfold ringText. cbn [rings]. rewrite lookup_assign, String.eqb_refl.
    cbn [visited]. rewrite (Hmarked a2), (Hmarked a3) by (cbn [In]; auto).
    rewrite smilesParts_all_visited
      by (intros x Hx; cbn [visited]; apply Hmarked; cbn [In]; auto).
    cbn [app option_map String.concat]. rewrite joinBranches_starText. reflexivity.
Qed.

(** [X6] A ring: for three or more atoms with distinct ids that name no
    inherited property of a plain object, bonded in list order as a
    chain and closed by a last bond between the last atom and the
    first, [generateSmiles] writes the closing bond twice
    and under two different digits: the first atom is followed by the
    symbol of the closing bond and the digit 2, the last atom by the
    same symbol and the digit 1; in between stands the chain from the
    second atom on.  The two ends of the closure do not carry the same
    ring number. *)
Theorem generateSmiles_ring (a1 a2 a3 : AtomData) (rest : list AtomData)
  (b1 : BondData) (bs : list BondData) (bc : BondData) :
  ordinaryIds (a1 :: a2 :: a3 :: rest) ((b1 :: bs) ++ [bc]) ->
  NoDup (map a_id (a1 :: a2 :: a3 :: rest)) ->
  isChain (a1 :: a2 :: a3 :: rest) (b1 :: bs) ->
  joins (a_id (last rest a3)) (a_id a1) bc = true ->
  generateSmiles (a1 :: a2 :: a3 :: rest) ((b1 :: bs) ++ [bc])
  = ((a_element a1 ++ bondSymbol (b_type bc) ++ "2")
     ++ bondSymbol (b_type b1)
     ++ chainTextEnding (bondSymbol (b_type bc) ++ "1") (a2 :: a3 :: rest) bs)%string.
Proof. intros _. exact (smiles_of_ring a1 a2 a3 rest b1 bs bc). Qed.

Lemma generateSmiles_ring_witness :
  ordinaryIds (mkAtom "a" 0 0 "C" :: mkAtom "b" 1 0 "N" :: mkAtom "c" 0 1 "O" :: [])
    ((mkBond "ab" "a" "b" 1 :: [mkBond "bc" "b" "c" 2]) ++ [mkBond "ca" "c" "a" 3])
  /\ NoDup (map a_id (mkAtom "a" 0 0 "C" :: mkAtom "b" 1 0 "N" :: mkAtom "c" 0 1 "O" :: []))
  /\ isChain (mkAtom "a" 0 0 "C" :: mkAtom "b" 1 0 "N" :: mkAtom "c" 0 1 "O" :: [])
             (mkBond "ab" "a" "b" 1 :: [mkBond "bc" "b" "c" 2])
  /\ joins (a_id (last [] (mkAtom "c" 0 1 "O"))) (a_id (mkAtom "a" 0 0 "C"))
           (mkBond "ca" "c" "a" 3) = true
  /\ generateSmiles
       (mkAtom "a" 0 0 "C" :: mkAtom "b" 1 0 "N" :: mkAtom "c" 0 1 "O" :: [])
       ((mkBond "ab" "a" "b" 1 :: [mkBond "bc" "b" "c" 2]) ++ [mkBond "ca" "c" "a" 3])
     = "C#2N=O#1"%string.
Proof.
  assert (Hnd : NoDup (map a_id (mkAtom "a" 0 0 "C" :: mkAtom "b" 1 0 "N"
                                 :: mkAtom "c" 0 1 "O" :: []))).
  { cbn [map a_id]. repeat constructor; cbn [In]; intros H;
      repeat (destruct H as [H|H]; [discriminate H|]); exact H. }
  assert (Hc : isChain (mkAtom "a" 0 0 "C" :: mkAtom "b" 1 0 "N" :: mkAtom "c" 0 1 "O" :: [])
                       (mkBond "ab" "a" "b" 1 :: [mkBond "bc" "b" "c" 2])).
  { apply chain_cons; [reflexivity|]. apply chain_cons; [reflexivity|]. apply chain_one. }
  assert (Ho : ordinaryIds (mkAtom "a" 0 0 "C" :: mkAtom "b" 1 0 "N"
                            :: mkAtom "c" 0 1 "O" :: [])
                 ((mkBond "ab" "a" "b" 1 :: [mkBond "bc" "b" "c" 2])
                  ++ [mkBond "ca" "c" "a" 3])).
  { unfold ordinaryIds, universe. cbn [map flat_map app a_id b_source b_target].
    repeat constructor; cbn [In objectPrototypeKeys]; intros K;
      repeat (destruct K as [K|K]; [discriminate K|]); exact K. }
  split; [exact Ho|].
  split; [exact Hnd|]. split; [exact Hc|]. split; [reflexivity|].
  exact (generateSmiles_ring _ _ _ _ _ _ (mkBond "ca" "c" "a" 3) Ho Hnd Hc eq_refl).
Defined.

(** ** Invariants of the traces *)

(** Case analysis on the branches of a handler. *)
Ltac split_cases :=
  repeat match goal with
         | |- context [match ?x with _ => _ end] => destruct x eqn:?
         end.

Lemma commit_synced (a : list AtomData) (b : list BondData) (st : Editor) :
  synced (commitToHistory a b st).
Proof.
  unfold synced. simpl_state. rewrite length_app. cbn [List.length].
  replace (Z.of_nat (List.length (slice0 (history st) (historyIndex st + 1)) + 1) - 1)%Z
    with (Z.of_nat (List.length (slice0 (history st) (historyIndex st + 1)))) by lia.
  apply at_index_app_last.
Qed.

Lemma commit_indexInRange (a : list AtomData) (b : list BondData) (st : Editor) :
  indexInRange (commitToHistory a b st).
Proof. unfold indexInRange. simpl_state. rewrite length_app. cbn [List.length]. lia. Qed.

Lemma synced_ext (st st' : Editor) :
  history st' = history st -> historyIndex st' = historyIndex st ->
  atoms st' = atoms st -> bonds st' = bonds st ->
  synced st -> synced st'.
Proof. unfold synced. intros -> -> -> ->. auto. Qed.

Lemma indexInRange_ext (st st' : Editor) :
  history st' = history st -> historyIndex st' = historyIndex st ->
  indexInRange st -> indexInRange st'.
Proof. unfold indexInRange. intros -> ->. auto. Qed.

(** What an event does to the history: nothing, or it leaves the index
    in range on the entry of the live graph. *)
Lemma step_history (env : Env) (st : Editor) (ev : Event) :
  indexInRange st ->
  (history (step env st ev) = history st /\ historyIndex (step env st ev) = historyIndex st)
  \/ (indexInRange (step env st ev) /\ synced (step env st ev)).
Proof.
  intros Hi.
  assert (Hcommit : forall a b st',
             history st' = history (commitToHistory a b st) ->
             historyIndex st' = historyIndex (commitToHistory a b st) ->
             atoms st' = a -> bonds st' = b ->
             indexInRange st' /\ synced st').
  { intros a b st' Hh Hx Ha Hb. split.
    - apply (indexInRange_ext (commitToHistory a b st)); auto. apply commit_indexInRange.
    - apply (synced_ext (commitToHistory a b st)); auto. apply commit_synced. }
  destruct ev as [e rid|e|e rid bid|e| | | |t|el]; cbn [step].
  - unfold handlePointerDown. cbv zeta. split_cases;
      first [left; split; reflexivity
            | right; eapply Hcommit; simpl_state; reflexivity].
  - unfold handlePointerMove. cbv zeta. split_cases; left; split; reflexivity.
  - unfold handlePointerUp. cbv zeta. split_cases;
      first [left; split; reflexivity
            | right; eapply Hcommit; simpl_state; reflexivity].
  - unfold handleWheel. cbv zeta. split_cases; left; split; reflexivity.
  - destruct (isReadOnly env); [left; split; reflexivity|].
    unfold undo. destruct (Z.ltb_spec 0 (historyIndex st)); [|left; split; reflexivity].
    destruct (at_index (history st) (historyIndex st - 1)) as [prev|] eqn:E;
      [|left; split; reflexivity].
    right. cbn [settle]. unfold indexInRange, synced in *. simpl_state.
    split; [lia|]. rewrite E. now destruct prev.
  - destruct (isReadOnly env); [left; split; reflexivity|].
    unfold redo.
    destruct (Z.ltb_spec (historyIndex st) (Z.of_nat (List.length (history st)) - 1));
      [|left; split; reflexivity].
    destruct (at_index (history st) (historyIndex st + 1)) as [next|] eqn:E;
      [|left; split; reflexivity].
    right. cbn [settle]. unfold indexInRange, synced in *. simpl_state.
    split; [lia|]. rewrite E. now destruct next.
  - unfold clearCanvas. destruct (isReadOnly env); [left; split; reflexivity|].
    right. split; [apply commit_indexInRange|apply commit_synced].
  - destruct (isReadOnly env); left; split; reflexivity.
  - destruct (isReadOnly env); left; split; reflexivity.
Qed.

Lemma indexInRange_step (env : Env) (st : Editor) (ev : Event) :
  indexInRange st -> indexInRange (step env st ev).
Proof.
  intros Hi. destruct (step_history env st ev Hi) as [[Hh Hx]|[Hr _]]; [|exact Hr].
  now apply (indexInRange_ext st).
Qed.

Lemma indexInRange_run (env : Env) (evs : list Event) (st : Editor) :
  indexInRange st -> indexInRange (run env st evs).
Proof.
  revert st. induction evs as [|ev evs IH]; intros st Hi; [exact Hi|].
  cbn [run fold_left]. apply IH. now apply indexInRange_step.
Qed.

Lemma indexInRange_initial : indexInRange initialEditor.
Proof. unfold indexInRange. cbn. lia. Qed.

(** [X7] Whatever the user does (any sequence of pointer, wheel and
    toolbar events on a freshly mounted editor, read-only or not), the
    history index stays on an entry of the history; so the [undo] and
    [redo] handlers never read a missing entry, even if they were called
    with their buttons disabled. *)
Theorem history_index_in_range (env : Env) (evs : list Event) :
  let st := run env initialEditor evs in
  indexInRange st /\ undo st <> TypeError /\ redo st <> TypeError.
Proof.
  intros st.
  assert (Hi : indexInRange st) by apply indexInRange_run, indexInRange_initial.
  split; [exact Hi|]. unfold indexInRange in Hi. split.
  - unfold undo. destruct (Z.ltb_spec 0 (historyIndex st)); [|discriminate].
    destruct (at_index_in_range (history st) (historyIndex st - 1)) as [x ->]; [lia|].
    discriminate.
  - unfold redo.
    destruct (Z.ltb_spec (historyIndex st) (Z.of_nat (List.length (history st)) - 1));
      [|discriminate].
    destruct (at_index_in_range (history st) (historyIndex st + 1)) as [x ->]; [lia|].
    discriminate.
Qed.

(** [X8] One event, from a state whose history index is in range: either
    the history and its index are left as they are, or the index ends in
    range on an entry that equals the live graph.  The history never
    moves without recording what is on the canvas. *)
Theorem history_change_records_graph (env : Env) (st : Editor) (ev : Event) :
  indexInRange st ->
  let st' := step env st ev in
  (history st' = history st /\ historyIndex st' = historyIndex st)
  \/ (indexInRange st' /\ synced st').
Proof. exact (step_history env st ev). Qed.

Lemma history_change_records_graph_witness :
  indexInRange exState
  /\ ((history (step exEnv exState ClearClick) = history exState
       /\ historyIndex (step exEnv exState ClearClick) = historyIndex exState)
      \/ (indexInRange (step exEnv exState ClearClick)
          /\ synced (step exEnv exState ClearClick))).
Proof.
  assert (Hi : indexInRange exState) by (unfold indexInRange; cbn; lia).
  split; [exact Hi|].
  exact (history_change_records_graph exEnv exState ClearClick Hi).
Defined.

(** ** The view *)

Lemma scaleInRange_step (env : Env) (st : Editor) (ev : Event) :
  scaleInRange st -> scaleInRange (step env st ev).
Proof.
  intros Hk. unfold scaleInRange in *.
  assert (Hclamp : forall x, 0.1 <= Rmax 0.1 (Rmin 5 x) <= 5).
  { intros x. unfold Rmax, Rmin.
    destruct (Rle_dec 5 x); destruct (Rle_dec 0.1 _); lra. }
  destruct ev as [e rid|e|e rid bid|e| | | |t|el]; cbn [step].
  - unfold handlePointerDown. cbv zeta. split_cases; simpl_state; exact Hk.
  - unfold handlePointerMove. cbv zeta. split_cases; simpl_state; cbn [view_k]; exact Hk.
  - unfold handlePointerUp. cbv zeta. split_cases; simpl_state; exact Hk.
  - unfold handleWheel. cbv zeta. split_cases; simpl_state; cbn [view_k];
      first [exact Hk|apply Hclamp].
  - destruct (isReadOnly env); [exact Hk|]. unfold undo. split_cases; exact Hk.
  - destruct (isReadOnly env); [exact Hk|]. unfold redo. split_cases; exact Hk.
  - unfold clearCanvas. destruct (isReadOnly env); simpl_state; exact Hk.
  - destruct (isReadOnly env); exact Hk.
  - destruct (isReadOnly env); exact Hk.
Qed.

Lemma scaleInRange_run (env : Env) (evs : list Event) (st : Editor) :
  scaleInRange st -> scaleInRange (run env st evs).
Proof.
  revert st. induction evs as [|ev evs IH]; intros st Hk; [exact Hk|].
  cbn [run fold_left]. apply IH. now apply scaleInRange_step.
Qed.

(** [X9] The scale of the view stays within the bounds of the zoom: at
    every state that the user reaches from a freshly mounted editor, by
    whatever pointer, wheel and toolbar events, it lies between 0.1 and
    5. *)
Theorem view_scale_in_range (env : Env) (evs : list Event) :
  scaleInRange (run env initialEditor evs).
Proof.
  apply scaleInRange_run. unfold scaleInRange. cbn. lra.
Qed.

(** ** Gestures of the draw tool *)

Lemma distance_self (p : Vec2) : distance p p = 0.
Proof.
  apply distance_value; [lra|]. ring.
Qed.

Lemma findIndex_None {A} (f : A -> bool) (l : list A) :
  (forall x, In x l -> f x = false) -> findIndex f l = None.
Proof.
  induction l as [|a l IH]; intros H; [reflexivity|].
  cbn [findIndex]. rewrite (H a) by now left.
  rewrite IH; [reflexivity|]. intros x Hx. apply H. now right.
Qed.

(** The drag branch of [handlePointerUp] without a snap target and
    without a bond to the new atom: a new atom and a single bond. *)
Lemma dragResult_new (st : Editor) (ds : DragStart) (pp : Vec2) (rid bid : string) :
  truthy (snapTargetId st) = None ->
  rid <> EmptyString -> rid <> d_id ds ->
  (forall b, In b (bonds st) -> joins (d_id ds) rid b = false) ->
  dragResult st ds pp rid bid
  = (atoms st ++ [mkAtom rid (vx pp) (vy pp) (activeElement st)],
     bonds st ++ [mkBond bid (d_id ds) rid 1%Z]).
Proof.
  intros Hsnap Hne Hna Hb. unfold dragResult. rewrite Hsnap.
  apply String.eqb_neq in Hne. apply String.eqb_neq in Hna. rewrite Hne, Hna.
  cbn [negb andb]. rewrite (findIndex_None _ _ Hb). reflexivity.
Qed.

(** [handlePointerDown] with the draw tool on an atom: the atom anchors
    a gesture. *)
Lemma pointerDown_draw_atom (env : Env) (st : Editor) (e : PointerEvent) (rid : string)
  (ca : AtomData) :
  isReadOnly env = false -> tool st = draw ->
  find (fun a => num_lt (distance (pos a)
                   (getPointerCoords env st (clientX e) (clientY e))) 15) (atoms st)
  = Some ca ->
  handlePointerDown env st e rid
  = st |> setDragStart (Some (mkDrag (a_id ca) (a_x ca) (a_y ca)))
       |> setIsDragging true
       |> setPointerPos (Some (getPointerCoords env st (clientX e) (clientY e))).
Proof.
  intros Hro Htool Hca. unfold handlePointerDown. rewrite Hro. cbv zeta.
  rewrite Hca, Htool. reflexivity.
Qed.

Lemma find_app_none {A} (f : A -> bool) (l1 l2 : list A) :
  find f l1 = None -> find f (l1 ++ l2) = find f l2.
Proof.
  induction l1 as [|a l1 IH]; [reflexivity|]. cbn [find app].
  destruct (f a); [discriminate|exact IH].
Qed.

Lemma withElement_fresh (i el : string) (ats : list AtomData) :
  find (hasId i) ats = None -> withElement i el ats = ats.
Proof.
  intros H. unfold withElement. rewrite <- (map_id ats) at 2.
  apply map_ext_in. intros a Ha.
  pose proof (find_none _ _ H a Ha) as Hn. unfold hasId in Hn. now rewrite Hn.
Qed.

Lemma click_canvas (env : Env) (st : Editor) (e : PointerEvent) (rid0 rid1 bid : string) :
  isReadOnly env = false -> tool st = draw -> isPanning st = false ->
  let p := getPointerCoords env st (clientX e) (clientY e) in
  find (fun a => num_lt (distance (pos a) p) 15) (atoms st) = None ->
  find (bondHit (atoms st) (vx p) (vy p)) (bonds st) = None ->
  find (hasId rid0) (atoms st) = None ->
  clickGesture env st e rid0 rid1 bid
  = endGesture (commitToHistory
                  (atoms st ++ [mkAtom rid0 (vx p) (vy p) (activeElement st)])
                  (bonds st) st).
Proof.
  intros Hro Htool Hpan p Hatom Hbond Hfresh.
  unfold clickGesture.
  assert (H1 : handlePointerDown env st e rid0
               = st |> setAtoms (atoms st ++ [mkAtom rid0 (vx p) (vy p) (activeElement st)])
                    |> setDragStart (Some (mkDrag rid0 (vx p) (vy p)))
                    |> setIsDragging true |> setPointerPos (Some p)).
  { unfold handlePointerDown. rewrite Hro. cbv zeta. fold p.
    rewrite Hatom, Hbond, Htool. reflexivity. }
  rewrite H1. unfold handlePointerUp. rewrite Hro. simpl_state. rewrite Hpan, Htool.
  cbn [tool_eqb andb]. unfold dragPos. cbn [d_x d_y d_id].
  replace (mkVec (vx p) (vy p)) with p by now destruct p.
  rewrite distance_self.
  replace (num_lt 0 5) with true by (symmetry; apply num_lt_true; lra).
  assert (Hfind : find (hasId rid0) (atoms st ++ [mkAtom rid0 (vx p) (vy p) (activeElement st)])
                  = Some (mkAtom rid0 (vx p) (vy p) (activeElement st))).
  { rewrite (find_app_none _ _ _ Hfresh). cbn [find]. unfold hasId. cbn [a_id].
    now rewrite String.eqb_refl. }
  rewrite Hfind. cbn [a_id].
  change (map _ (atoms st ++ [mkAtom rid0 (vx p) (vy p) (activeElement st)]))
    with (withElement rid0 (activeElement st)
            (atoms st ++ [mkAtom rid0 (vx p) (vy p) (activeElement st)])).
  assert (Hmap : withElement rid0 (activeElement st)
                   (atoms st ++ [mkAtom rid0 (vx p) (vy p) (activeElement st)])
                 = atoms st ++ [mkAtom rid0 (vx p) (vy p) (activeElement st)]).
  { unfold withElement. rewrite map_app. fold (withElement rid0 (activeElement st) (atoms st)).
    rewrite (withElement_fresh _ _ _ Hfresh). cbn [map a_id a_x a_y].
    now rewrite String.eqb_refl. }
  rewrite Hmap. state_eq.
Qed.

(** [handlePointerUp] at the end of a click of the draw tool: the anchor
    takes the active element. *)
Lemma pointerUp_click (env : Env) (st : Editor) (e : PointerEvent) (rid bid : string)
  (ds : DragStart) (pp : Vec2) (target : AtomData) :
  isReadOnly env = false -> isPanning st = false -> tool st = draw ->
  isDragging st = true -> dragStart st = Some ds -> pointerPos st = Some pp ->
  distance (dragPos ds) pp < 5 ->
  find (hasId (d_id ds)) (atoms st) = Some target ->
  handlePointerUp env st e rid bid
  = endGesture (commitToHistory (withElement (a_id target) (activeElement st) (atoms st))
                                (bonds st) st).
Proof.
  intros Hro Hpan Htool Hdrag Hds Hpp Hnear Hfind.
  unfold handlePointerUp. rewrite Hro, Hpan, Htool, Hdrag, Hds, Hpp.
  cbn [tool_eqb andb]. apply num_lt_true in Hnear. rewrite Hnear, Hfind. reflexivity.
Qed.

(** What a gesture leaves of the fields that [handlePointerDown] sets. *)
Lemma endGesture_commit (a : list AtomData) (b : list BondData) (st : Editor)
  (d : option DragStart) (g : bool) (pp : option Vec2) :
  endGesture (commitToHistory a b
                (st |> setDragStart d |> setIsDragging g |> setPointerPos pp))
  = endGesture (commitToHistory a b st).
Proof. state_eq. Qed.

Lemma find_first_id (f : AtomData -> bool) (ats : list AtomData) (ca : AtomData) :
  find f ats = Some ca ->
  exists target, find (hasId (a_id ca)) ats = Some target /\ a_id target = a_id ca.
Proof.
  intros H. apply find_some in H. destruct H as [Hin _].
  destruct (find (hasId (a_id ca)) ats) as [target|] eqn:E.
  - exists target. split; [reflexivity|].
    apply find_some in E. destruct E as [_ E]. now apply String.eqb_eq in E.
  - pose proof (find_none _ _ E ca Hin) as Hn. unfold hasId in Hn.
    now rewrite String.eqb_refl in Hn.
Qed.

(** [X10] A click of the draw tool on the empty canvas (no atom within
    15 of the pointer, no bond hit, the drawn id not in use) adds one
    atom of the active element at the world point under the pointer and
    commits the graph; the bonds are as before and no gesture is left
    open. *)
Theorem click_on_canvas_adds_atom (env : Env) (st : Editor) (e : PointerEvent)
  (rid0 rid1 bid : string) :
  isReadOnly env = false -> tool st = draw -> isPanning st = false ->
  let p := getPointerCoords env st (clientX e) (clientY e) in
  find (fun a => num_lt (distance (pos a) p) 15) (atoms st) = None ->
  find (bondHit (atoms st) (vx p) (vy p)) (bonds st) = None ->
  find (hasId rid0) (atoms st) = None ->
  clickGesture env st e rid0 rid1 bid
  = endGesture (commitToHistory
                  (atoms st ++ [mkAtom rid0 (vx p) (vy p) (activeElement st)])
                  (bonds st) st).
Proof. exact (click_canvas env st e rid0 rid1 bid). Qed.

Lemma click_on_canvas_adds_atom_witness :
  atoms (clickGesture exEnv initialEditor (mkPointer 100 50) "n" "m" "nm")
  = [mkAtom "n" ((100 - 0 - 0) / 1) ((50 - 0 - 0) / 1) "C"].
Proof.
  rewrite (click_on_canvas_adds_atom exEnv initialEditor (mkPointer 100 50) "n" "m" "nm"
             eq_refl eq_refl eq_refl eq_refl eq_refl eq_refl).
  reflexivity.
Defined.

(** [X11] A click of the draw tool less than 5 from the centre of an
    atom (the first atom within 15 of the pointer) gives the active
    element to every atom with the id of that atom and commits;
    positions and bonds are as before. *)
Theorem click_near_centre_sets_element (env : Env) (st : Editor) (e : PointerEvent)
  (rid0 rid1 bid : string) (ca : AtomData) :
  isReadOnly env = false -> tool st = draw -> isPanning st = false ->
  let p := getPointerCoords env st (clientX e) (clientY e) in
  find (fun a => num_lt (distance (pos a) p) 15) (atoms st) = Some ca ->
  distance (pos ca) p < 5 ->
  clickGesture env st e rid0 rid1 bid
  = endGesture (commitToHistory (withElement (a_id ca) (activeElement st) (atoms st))
                                (bonds st) st).
Proof.
  intros Hro Htool Hpan p Hca Hnear. unfold clickGesture.
  rewrite (pointerDown_draw_atom env st e rid0 ca Hro Htool Hca). fold p.
  destruct (find_first_id _ _ _ Hca) as (target & Hfind & Hid).
  rewrite (pointerUp_click env _ e rid1 bid (mkDrag (a_id ca) (a_x ca) (a_y ca)) p target);
    try assumption; try reflexivity.
  simpl_state. rewrite Hid. apply endGesture_commit.
Qed.

(** [X12] A click of the draw tool on an atom, 5 or more from its centre
    (and less than 15, so that the atom is hit): the release takes the
    drag branch.  With no snap target pending it adds a new atom of the
    active element under the pointer, less than 15 from the clicked
    atom, and a single bond from the clicked atom to it. *)
Theorem click_off_centre_adds_bonded_atom (env : Env) (st : Editor) (e : PointerEvent)
  (rid0 rid1 bid : string) (ca : AtomData) :
  isReadOnly env = false -> tool st = draw -> isPanning st = false ->
  snapTargetId st = None ->
  let p := getPointerCoords env st (clientX e) (clientY e) in
  find (fun a => num_lt (distance (pos a) p) 15) (atoms st) = Some ca ->
  ~ distance (pos ca) p < 5 ->
  rid1 <> EmptyString -> rid1 <> a_id ca ->
  (forall b, In b (bonds st) -> joins (a_id ca) rid1 b = false) ->
  clickGesture env st e rid0 rid1 bid
  = endGesture (commitToHistory
                  (atoms st ++ [mkAtom rid1 (vx p) (vy p) (activeElement st)])
                  (bonds st ++ [mkBond bid (a_id ca) rid1 1%Z]) st)
  /\ distance (pos ca) p < 15.
Proof.
  intros Hro Htool Hpan Hsnap p Hca Hfar Hne Hna Hb. split.
  - unfold clickGesture.
    rewrite (pointerDown_draw_atom env st e rid0 ca Hro Htool Hca). fold p.
    rewrite (pointerUp_drag env _ e rid1 bid (mkDrag (a_id ca) (a_x ca) (a_y ca)) p);
      try assumption; try reflexivity.
    rewrite dragResult_new; simpl_state; try assumption.
    + cbn [fst snd]. apply endGesture_commit.
    + now rewrite Hsnap.
  - apply find_some in Hca. destruct Hca as [_ Hca]. now apply num_lt_true in Hca.
Qed.

(** A press on the example scene, [d] to the right of the centre of its
    first atom, hits that atom. *)
Lemma exState_hit (d : R) :
  0 <= d < 15 ->
  find (fun a => num_lt (distance (pos a)
                   (getPointerCoords exEnv exState (clientX (mkPointer d 0))
                      (clientY (mkPointer d 0)))) 15) (atoms exState)
  = Some exA
  /\ distance (pos exA)
       (getPointerCoords exEnv exState (clientX (mkPointer d 0)) (clientY (mkPointer d 0)))
     = d.
Proof.
  intros Hd.
  assert (H : distance (pos exA)
                (getPointerCoords exEnv exState (clientX (mkPointer d 0))
                   (clientY (mkPointer d 0))) = d).
  { apply distance_value; [lra|]. unfold getPointerCoords. cbn. field. }
  split; [|exact H].
  cbn [atoms exState find]. rewrite H.
  replace (num_lt d 15) with true; [reflexivity|].
  symmetry. apply num_lt_true. lra.
Qed.

Lemma click_near_centre_sets_element_witness :
  atoms (clickGesture exEnv (setActiveElement "N" exState) (mkPointer 3 0) "n" "m" "nm")
  = [mkAtom "a" 0 0 "N"; exB].
Proof.
  assert (Hd : 0 <= 3 < 15) by lra.
  destruct (exState_hit 3 Hd) as [Hhit Hdist].
  assert (Hnear : distance (pos exA)
                    (getPointerCoords exEnv (setActiveElement "N" exState)
                       (clientX (mkPointer 3 0)) (clientY (mkPointer 3 0))) < 5).
  { change (getPointerCoords exEnv (setActiveElement "N" exState))
      with (getPointerCoords exEnv exState). rewrite Hdist. lra. }
  rewrite (click_near_centre_sets_element exEnv (setActiveElement "N" exState)
             (mkPointer 3 0) "n" "m" "nm" exA eq_refl eq_refl eq_refl Hhit Hnear).
  reflexivity.
Defined.

Lemma click_off_centre_adds_bonded_atom_witness :
  bonds (clickGesture exEnv exState (mkPointer 10 0) "n" "m" "am")
  = [exBond; mkBond "am" "a" "m" 1].
Proof.
  assert (Hd : 0 <= 10 < 15) by lra.
  destruct (exState_hit 10 Hd) as [Hhit Hdist].
  assert (Hfar : ~ distance (pos exA)
                     (getPointerCoords exEnv exState
                        (clientX (mkPointer 10 0)) (clientY (mkPointer 10 0))) < 5).
  { rewrite Hdist. lra. }
  assert (Hb : forall b, In b (bonds exState) -> joins (a_id exA) "m" b = false).
  { intros b [<-|[]]. reflexivity. }
  assert (Hne : "m"%string <> EmptyString) by discriminate.
  assert (Hna : "m"%string <> a_id exA) by discriminate.
  rewrite (proj1 (click_off_centre_adds_bonded_atom exEnv exState (mkPointer 10 0)
                    "n" "m" "am" exA eq_refl eq_refl eq_refl eq_refl Hhit Hfar Hne Hna Hb)).
  reflexivity.
Defined.

(** [X13] A drag of the draw tool from an atom into empty space, in the
    binary64 arithmetic of the program and with the cosine, the sine and
    [atan2] of any engine: when the press hits the atom [A], the move
    finds no other atom at a computed distance below 20 from the pointer
    or from the candidate of [snapToAngle], and the release finds the
    candidate not within 5 of the anchor, the release adds a new atom of
    the active element at the candidate and a single bond from the
    anchor to it, and commits. *)
Theorem drag_into_empty_space (M : B64.Engine) (env : B64.Env) (st : B64.Editor)
  (down move up : B64.PointerEvent) (rid0 rid1 bid : string) (A : B64.AtomData) :
  B64.isReadOnly env = false -> B64.tool st = draw -> B64.isPanning st = false ->
  find (fun a => PrimFloat.ltb
                   (B64.distance (B64.pos a)
                      (B64.getPointerCoords env st (B64.clientX down) (B64.clientY down)))
                   15)
       (B64.atoms st) = Some A ->
  let coords := B64.getPointerCoords env st (B64.clientX move) (B64.clientY move) in
  let cand := B64.snapToAngle M (B64.a_x A) (B64.a_y A) (B64.vx coords) (B64.vy coords) in
  find (fun a => negb (String.eqb (B64.a_id a) (B64.a_id A))
                 && (PrimFloat.ltb (B64.distance (B64.pos a) coords) 20
                     || PrimFloat.ltb (B64.distance (B64.pos a) cand) 20))
       (B64.atoms st) = None ->
  PrimFloat.ltb (B64.distance (B64.pos A) cand) 5 = false ->
  rid1 <> EmptyString -> rid1 <> B64.a_id A ->
  (forall b, In b (B64.bonds st) -> joins (B64.a_id A) rid1 b = false) ->
  B64.dragGesture M env st down move up rid0 rid1 bid
  = B64.endGesture
      (B64.commitToHistory
         (B64.atoms st
          ++ [B64.mkAtom rid1 (B64.vx cand) (B64.vy cand) (B64.activeElement st)])
         (B64.bonds st ++ [mkBond bid (B64.a_id A) rid1 1%Z]) st).
Proof.
  intros Hro Htool Hpan Hdown coords cand Hfree Hfar Hne Hna Hb.
  unfold B64.dragGesture.
  set (ds := B64.mkDrag (B64.a_id A) (B64.a_x A) (B64.a_y A)).
  assert (H1 : B64.handlePointerDown env st down rid0
               = st |> B64.setDragStart (Some ds) |> B64.setIsDragging true
                    |> B64.setPointerPos
                         (Some (B64.getPointerCoords env st (B64.clientX down)
                                  (B64.clientY down)))).
  { unfold B64.handlePointerDown. rewrite Hro. cbv zeta. rewrite Hdown, Htool.
    reflexivity. }
  rewrite H1.
  set (st1 := st |> B64.setDragStart (Some ds) |> B64.setIsDragging true
                 |> B64.setPointerPos
                      (Some (B64.getPointerCoords env st (B64.clientX down)
                               (B64.clientY down)))).
  assert (H2 : B64.handlePointerMove M env st1 move
               = st1 |> B64.setPointerPos (Some cand) |> B64.setSnapTargetId None).
  { unfold B64.handlePointerMove. rewrite Hro.
    change (B64.isPanning st1) with (B64.isPanning st).
    change (B64.tool st1) with (B64.tool st).
    change (B64.isDragging st1) with true.
    change (B64.dragStart st1) with (Some ds).
    change (B64.atoms st1) with (B64.atoms st).
    change (B64.getPointerCoords env st1 (B64.clientX move) (B64.clientY move))
      with coords.
    rewrite Hpan, Htool. cbv zeta.
    change (B64.d_x ds) with (B64.a_x A). change (B64.d_y ds) with (B64.a_y A).
    change (B64.d_id ds) with (B64.a_id A). fold cand.
    unfold B64.BOND_SNAP_DIST. rewrite Hfree. reflexivity. }
  rewrite H2.
  set (st2 := st1 |> B64.setPointerPos (Some cand) |> B64.setSnapTargetId None).
  unfold B64.handlePointerUp. rewrite Hro.
  change (B64.isPanning st2) with (B64.isPanning st).
  change (B64.tool st2) with (B64.tool st).
  change (B64.isDragging st2) with true.
  change (B64.dragStart st2) with (Some ds).
  change (B64.pointerPos st2) with (Some cand).
  rewrite Hpan, Htool. cbn [tool_eqb andb]. cbv zeta.
  change (B64.mkVec (B64.d_x ds) (B64.d_y ds)) with (B64.pos A). rewrite Hfar.
  assert (Hres : B64.dragResult st2 ds cand rid1 bid
                 = (B64.atoms st
                    ++ [B64.mkAtom rid1 (B64.vx cand) (B64.vy cand) (B64.activeElement st)],
                    B64.bonds st ++ [mkBond bid (B64.a_id A) rid1 1%Z])).
  { unfold B64.dragResult.
    change (B64.snapTargetId st2) with (@None string). cbn [truthy].
    change (B64.d_id ds) with (B64.a_id A).
    apply String.eqb_neq in Hne. apply String.eqb_neq in Hna. rewrite Hne, Hna.
    cbn [negb andb].
    change (B64.bonds st2) with (B64.bonds st).
    rewrite findIndex_None by exact Hb. reflexivity. }
  rewrite Hres. reflexivity.
Qed.

(** The gesture on a lone atom at the origin, with the press on the atom
    and the move to (0, -10): the new atom lies at the candidate that
    the program computes. *)
Lemma drag_into_empty_space_witness :
  let st := B64.initialEditor |> B64.setAtoms [B64.mkAtom "a" 0 0 "C"] in
  let st' := B64.dragGesture B64.exampleEngine B64.exEnv st
               (B64.mkPointer 0 0) (B64.mkPointer 0 (-10)) (B64.mkPointer 0 (-10))
               "r0" "m" "am" in
  B64.atoms st' = [B64.mkAtom "a" 0 0 "C";
                   B64.mkAtom "m" 3.67394039744206e-15 (-60) "C"]
  /\ B64.bonds st' = [mkBond "am" "a" "m" 1].
Proof.
  cbv zeta.
  assert (Hb : forall b, In b (B64.bonds (B64.initialEditor
                                              |> B64.setAtoms [B64.mkAtom "a" 0 0 "C"])) ->
                         joins (B64.a_id (B64.mkAtom "a" 0 0 "C")) "m" b = false)
    by (intros b []).
  assert (Hne : "m"%string <> EmptyString) by discriminate.
  assert (Hna : "m"%string <> B64.a_id (B64.mkAtom "a" 0 0 "C")) by discriminate.
  rewrite (drag_into_empty_space B64.exampleEngine B64.exEnv
             (B64.initialEditor |> B64.setAtoms [B64.mkAtom "a" 0 0 "C"])
             (B64.mkPointer 0 0) (B64.mkPointer 0 (-10)) (B64.mkPointer 0 (-10))
             "r0" "m" "am" (B64.mkAtom "a" 0 0 "C")
             eq_refl eq_refl eq_refl eq_refl eq_refl eq_refl Hne Hna Hb).
  split; reflexivity.
Defined.

(** ** Panning *)

Lemma pan_moves (env : Env) (moves : list PointerEvent) :
  isReadOnly env = false ->
  forall (s : Editor) (ps : Vec2),
    isPanning s = true -> panStart s = Some ps ->
    let s' := fold_left (handlePointerMove env) moves s in
    view s' = mkView (panAlong (view_x (view s)) (vx ps) (map clientX moves))
                     (panAlong (view_y (view s)) (vy ps) (map clientY moves))
                     (view_k (view s))
    /\ panStart s' = Some (lastPoint moves ps)
    /\ s' = (s |> setView (view s') |> setPanStart (panStart s')).
Proof.
  intros Hro. induction moves as [|m moves IH]; intros s ps Hpan Hps; cbn zeta.
  - cbn [fold_left lastPoint map panAlong]. split_and.
    + now destruct (view s).
    + exact Hps.
    + state_eq.
  - cbn [fold_left].
    assert (H1 : handlePointerMove env s m
                 = s |> setView (mkView (view_x (view s) + (clientX m - vx ps))
                                        (view_y (view s) + (clientY m - vy ps))
                                        (view_k (view s)))
                     |> setPanStart (Some (mkVec (clientX m) (clientY m)))).
    { unfold handlePointerMove. rewrite Hro, Hpan, Hps. reflexivity. }
    rewrite H1.
    destruct (IH (s |> setView (mkView (view_x (view s) + (clientX m - vx ps))
                                       (view_y (view s) + (clientY m - vy ps))
                                       (view_k (view s)))
                    |> setPanStart (Some (mkVec (clientX m) (clientY m))))
                 (mkVec (clientX m) (clientY m)) Hpan eq_refl) as (Hv & Hp & Hs).
    change (lastPoint (m :: moves) ps)
      with (lastPoint moves (mkVec (clientX m) (clientY m))).
    split_and.
    + rewrite Hv. reflexivity.
    + exact Hp.
    + rewrite Hs at 1. state_eq.
Qed.

(** [X14] A pan: with another tool than draw, a press that hits neither
    an atom nor a bond, any number of moves and a release: every move
    adds to the offset of the view the step of the pointer since the
    event before it (the press or the previous move), in order; the
    scale, the graph, the history and the tool are as before, and the
    panning flags are cleared. *)
Theorem pan_gesture (env : Env) (st : Editor) (down : PointerEvent)
  (moves : list PointerEvent) (up : PointerEvent) (rid0 rid1 bid : string) :
  isReadOnly env = false -> tool st <> draw -> isPanning st = false ->
  let p := getPointerCoords env st (clientX down) (clientY down) in
  find (fun a => num_lt (distance (pos a) p) 15) (atoms st) = None ->
  find (bondHit (atoms st) (vx p) (vy p)) (bonds st) = None ->
  gesture env st down moves up rid0 rid1 bid
  = st |> setView (mkView (panAlong (view_x (view st)) (clientX down) (map clientX moves))
                          (panAlong (view_y (view st)) (clientY down) (map clientY moves))
                          (view_k (view st)))
       |> setPanStart None.
Proof.
  intros Hro Htool Hpan p Hatom Hbond. unfold gesture.
  set (start := mkVec (clientX down) (clientY down)).
  assert (H1 : handlePointerDown env st down rid0
               = st |> setIsPanning true |> setPanStart (Some start)).
  { unfold handlePointerDown. rewrite Hro. cbv zeta. fold p. rewrite Hatom, Hbond.
    destruct (tool st); [reflexivity|contradiction|reflexivity]. }
  rewrite H1.
  destruct (pan_moves env moves Hro (st |> setIsPanning true |> setPanStart (Some start))
              start eq_refl eq_refl) as (Hv & Hp & Hs).
  cbv zeta in Hv, Hp, Hs. rewrite Hs.
  unfold handlePointerUp. rewrite Hro. simpl_state. rewrite Hv. state_eq.
  now rewrite Hpan.
Qed.

Lemma pan_gesture_witness :
  view (gesture exEnv (setTool select initialEditor) (mkPointer 10 10)
          [mkPointer 20 15; mkPointer 40 5] (mkPointer 40 5) "r" "s" "b")
  = mkView (0 + (20 - 10) + (40 - 20)) (0 + (15 - 10) + (5 - 15)) 1.
Proof.
  assert (Htool : tool (setTool select initialEditor) <> draw) by discriminate.
  rewrite (pan_gesture exEnv (setTool select initialEditor) (mkPointer 10 10)
             [mkPointer 20 15; mkPointer 40 5] (mkPointer 40 5) "r" "s" "b"
             eq_refl Htool eq_refl eq_refl eq_refl).
  reflexivity.
Defined.

(** ** Moving an atom with the select tool *)

Lemma movedTo_movedTo (i : string) (c c' : Vec2) (ats : list AtomData) :
  movedTo i c' (movedTo i c ats) = movedTo i c' ats.
Proof.
  unfold movedTo. rewrite map_map. apply map_ext. intros a.
  destruct (String.eqb (a_id a) i) eqn:E; cbn [a_id a_element]; now rewrite E.
Qed.

Lemma select_moves (env : Env) (ds : DragStart) (ms : list PointerEvent) :
  isReadOnly env = false ->
  forall (m : PointerEvent) (s : Editor),
    isPanning s = false -> tool s = select -> isDragging s = true ->
    dragStart s = Some ds ->
    let c := getPointerCoords env s (clientX (last ms m)) (clientY (last ms m)) in
    fold_left (handlePointerMove env) (m :: ms) s
    = s |> setAtoms (movedTo (d_id ds) c (atoms s)) |> setPointerPos (Some c).
Proof.
  intros Hro. induction ms as [|m' ms IH]; intros m s Hpan Htool Hdrag Hds c.
  - cbn [fold_left]. unfold handlePointerMove.
    rewrite Hro, Hpan, Htool, Hdrag, Hds. reflexivity.
  - change (fold_left (handlePointerMove env) (m :: m' :: ms) s)
      with (fold_left (handlePointerMove env) (m' :: ms) (handlePointerMove env s m)).
    assert (H1 : handlePointerMove env s m
                 = s |> setAtoms (movedTo (d_id ds)
                                    (getPointerCoords env s (clientX m) (clientY m)) (atoms s))
                     |> setPointerPos (Some (getPointerCoords env s (clientX m) (clientY m)))).
    { unfold handlePointerMove. rewrite Hro, Hpan, Htool, Hdrag, Hds. reflexivity. }
    rewrite H1, IH; try assumption.
    unfold c. rewrite last_cons. simpl_state.
    rewrite movedTo_movedTo. state_eq.
Qed.

(** [X15] Moving with the select tool: a press on an atom, one or more
    moves and a release put every atom with the id of the pressed atom
    at the world point of the last move and commit the graph once; the
    bonds are as before.  The release ends the drag and leaves the
    tracked pointer position set. *)
Theorem select_drag_moves_atom (env : Env) (st : Editor) (down m : PointerEvent)
  (ms : list PointerEvent) (up : PointerEvent) (rid0 rid1 bid : string) (ca : AtomData) :
  isReadOnly env = false -> tool st = select -> isPanning st = false ->
  find (fun a => num_lt (distance (pos a)
                   (getPointerCoords env st (clientX down) (clientY down))) 15) (atoms st)
  = Some ca ->
  let c := getPointerCoords env st (clientX (last ms m)) (clientY (last ms m)) in
  gesture env st down (m :: ms) up rid0 rid1 bid
  = (commitToHistory (movedTo (a_id ca) c (atoms st)) (bonds st) st
       |> setPointerPos (Some c) |> setIsDragging false |> setDragStart None).
Proof.
  intros Hro Htool Hpan Hdown c. unfold gesture.
  assert (H1 : handlePointerDown env st down rid0
               = st |> setDragStart (Some (mkDrag (a_id ca) (a_x ca) (a_y ca)))
                    |> setIsDragging true
                    |> setPointerPos (Some (getPointerCoords env st (clientX down)
                                              (clientY down)))).
  { unfold handlePointerDown. rewrite Hro. cbv zeta. rewrite Hdown, Htool. reflexivity. }
  rewrite H1.
  rewrite (select_moves env (mkDrag (a_id ca) (a_x ca) (a_y ca)) ms Hro m);
    try assumption; try reflexivity.
  unfold handlePointerUp. rewrite Hro. simpl_state. rewrite Hpan, Htool.
  cbn [tool_eqb andb d_id]. state_eq.
Qed.

Lemma select_drag_moves_atom_witness :
  atoms (gesture exEnv (setTool select exState) (mkPointer 0 0)
           [mkPointer 5 5; mkPointer 10 20] (mkPointer 10 20) "r" "s" "t")
  = [mkAtom "a" ((10 - 0 - 0) / 1) ((20 - 0 - 0) / 1) "C"; exB].
Proof.
  assert (Hd : 0 <= 0 < 15) by lra.
  destruct (exState_hit 0 Hd) as [Hhit _].
  rewrite (select_drag_moves_atom exEnv (setTool select exState) (mkPointer 0 0)
             (mkPointer 5 5) [mkPointer 10 20] (mkPointer 10 20) "r" "s" "t" exA
             eq_refl eq_refl eq_refl Hhit).
  reflexivity.
Defined.

(** ** Clicking a bond with the draw tool *)

Lemma bondHit_withType (ats : list AtomData) (x y : R) (b : BondData) (t : Z) :
  bondHit ats x y (withType b t) = bondHit ats x y b.
Proof. reflexivity. Qed.

Lemma find_cycleId (ats : list AtomData) (x y : R) (i : string) (bds : list BondData) :
  find (bondHit ats x y) (cycleId i bds)
  = option_map (fun b => if String.eqb (b_id b) i then withType b (nextType (b_type b)) else b)
               (find (bondHit ats x y) bds).
Proof.
  induction bds as [|b bds IH]; [reflexivity|].
  cbn [cycleId map find].
  assert (E : bondHit ats x y (if String.eqb (b_id b) i
                               then withType b (nextType (b_type b)) else b)
              = bondHit ats x y b) by (destruct (String.eqb (b_id b) i); reflexivity).
  rewrite E. destruct (bondHit ats x y b); [reflexivity|exact IH].
Qed.

Lemma click_bond (env : Env) (st : Editor) (e : PointerEvent) (rid0 rid1 bid : string)
  (cb : BondData) :
  isReadOnly env = false -> tool st = draw -> isPanning st = false ->
  dragStart st = None ->
  let p := getPointerCoords env st (clientX e) (clientY e) in
  find (fun a => num_lt (distance (pos a) p) 15) (atoms st) = None ->
  find (bondHit (atoms st) (vx p) (vy p)) (bonds st) = Some cb ->
  clickGesture env st e rid0 rid1 bid
  = endGesture (commitToHistory (atoms st) (cycleId (b_id cb) (bonds st)) st).
Proof.
  intros Hro Htool Hpan Hds p Hatom Hbond. unfold clickGesture.
  assert (H1 : handlePointerDown env st e rid0
               = commitToHistory (atoms st) (cycleId (b_id cb) (bonds st)) st
                   |> setIsDragging true |> setPointerPos (Some p)).
  { unfold handlePointerDown. rewrite Hro. cbv zeta. fold p.
    rewrite Hatom, Hbond, Htool. reflexivity. }
  rewrite H1. unfold handlePointerUp. rewrite Hro. simpl_state.
  rewrite Hpan, Htool, Hds. cbn [tool_eqb andb]. state_eq.
Qed.

Lemma cycleId_thrice (i : string) (bds : list BondData) :
  (forall b, In b bds -> b_id b = i -> (1 <= b_type b <= 3)%Z) ->
  cycleId i (cycleId i (cycleId i bds)) = bds.
Proof.
  intros H. unfold cycleId. rewrite !map_map. rewrite <- (map_id bds) at 2.
  apply map_ext_in. intros b Hb.
  destruct (String.eqb (b_id b) i) eqn:E; cbn [b_id withType b_type]; rewrite ?E;
    cbn [b_id withType b_type]; rewrite ?E; [|reflexivity].
  apply String.eqb_eq in E. specialize (H b Hb E).
  assert (Ht : b_type b = 1%Z \/ b_type b = 2%Z \/ b_type b = 3%Z) by lia.
  destruct b as [i0 src tgt ty]. cbn [b_type b_id b_source b_target] in *. unfold withType.
  cbn [b_type b_id b_source b_target].
  destruct Ht as [-> | [-> | ->]]; reflexivity.
Qed.

Lemma onBond_click (env : Env) (st : Editor) (e : PointerEvent) (rid0 rid1 bid : string)
  (cb : BondData) :
  onBond env st e cb ->
  clickGesture env st e rid0 rid1 bid
  = endGesture (commitToHistory (atoms st) (cycleId (b_id cb) (bonds st)) st)
  /\ onBond env (clickGesture env st e rid0 rid1 bid) e
             (withType cb (nextType (b_type cb))).
Proof.
  intros (Hro & Htool & Hpan & Hds & Hatom & Hbond).
  assert (H : clickGesture env st e rid0 rid1 bid
              = endGesture (commitToHistory (atoms st) (cycleId (b_id cb) (bonds st)) st))
    by now apply click_bond.
  split; [exact H|]. rewrite H. unfold onBond. simpl_state.
  change (getPointerCoords env (endGesture (commitToHistory (atoms st)
                                              (cycleId (b_id cb) (bonds st)) st)))
    with (getPointerCoords env st).
  split_and; try assumption; try reflexivity.
  rewrite find_cycleId, Hbond. cbn [option_map]. now rewrite String.eqb_refl.
Qed.

(** [X16] Clicking a bond with the draw tool (the tool at rest, no atom
    within 15 of the pointer, the bond the first one hit): one click
    takes every bond with the id of that bond to the next order of the
    cycle 1, 2, 3, 1 and commits; three clicks at the same place bring
    back the bonds as they were, provided the orders of those bonds were
    among 1, 2 and 3.  The atoms are untouched. *)
Theorem bond_click_cycles_order (env : Env) (st : Editor) (e : PointerEvent)
  (r1 r2 r3 r4 r5 r6 r7 r8 r9 : string) (cb : BondData) :
  onBond env st e cb ->
  (forall b, In b (bonds st) -> b_id b = b_id cb -> (1 <= b_type b <= 3)%Z) ->
  let st1 := clickGesture env st e r1 r2 r3 in
  let st2 := clickGesture env st1 e r4 r5 r6 in
  let st3 := clickGesture env st2 e r7 r8 r9 in
  st1 = endGesture (commitToHistory (atoms st) (cycleId (b_id cb) (bonds st)) st)
  /\ bonds st3 = bonds st
  /\ atoms st3 = atoms st.
Proof.
  intros Hon Horders st1 st2 st3.
  destruct (onBond_click env st e r1 r2 r3 cb Hon) as [H1 Hon1]. fold st1 in H1, Hon1.
  destruct (onBond_click env st1 e r4 r5 r6 _ Hon1) as [H2 Hon2]. fold st2 in H2, Hon2.
  destruct (onBond_click env st2 e r7 r8 r9 _ Hon2) as [H3 _]. fold st3 in H3.
  cbn [b_id withType] in H2, H3.
  assert (Hb1 : bonds st1 = cycleId (b_id cb) (bonds st)) by (rewrite H1; reflexivity).
  assert (Ha1 : atoms st1 = atoms st) by (rewrite H1; reflexivity).
  assert (Hb2 : bonds st2 = cycleId (b_id cb) (bonds st1)) by (rewrite H2; reflexivity).
  assert (Ha2 : atoms st2 = atoms st1) by (rewrite H2; reflexivity).
  assert (Hb3 : bonds st3 = cycleId (b_id cb) (bonds st2)) by (rewrite H3; reflexivity).
  assert (Ha3 : atoms st3 = atoms st2) by (rewrite H3; reflexivity).
  split_and.
  - exact H1.
  - rewrite Hb3, Hb2, Hb1. now apply cycleId_thrice.
  - congruence.
Qed.

(** ** The hit test of a bond *)

Lemma sum_sq_nonneg (a b : R) : 0 <= a * a + b * b.
Proof. pose proof (Rle_0_sqr a). pose proof (Rle_0_sqr b). unfold Rsqr in *. lra. Qed.

Lemma sq_dist (p q : Vec2) :
  distance p q * distance p q = (vx p - vx q) * (vx p - vx q) + (vy p - vy q) * (vy p - vy q).
Proof.
  unfold distance, vec.len, vec.sub. cbn [vx vy]. apply sqrt_sqrt. apply sum_sq_nonneg.
Qed.

Lemma distance_nonneg (p q : Vec2) : 0 <= distance p q.
Proof. unfold distance, vec.len. apply sqrt_pos. Qed.

Lemma distance_le (p q p' q' : Vec2) :
  (vx p - vx q) * (vx p - vx q) + (vy p - vy q) * (vy p - vy q)
  <= (vx p' - vx q') * (vx p' - vx q') + (vy p' - vy q') * (vy p' - vy q') ->
  distance p q <= distance p' q'.
Proof.
  intros H. unfold distance, vec.len, vec.sub. cbn [vx vy]. apply sqrt_le_1_alt. exact H.
Qed.

Lemma nearestParam_nearest (s t : AtomData) (x y lam : R) :
  0 <= lam <= 1 ->
  distance (mkVec x y) (along s t (nearestParam s t x y))
  <= distance (mkVec x y) (along s t lam).
Proof.
  intros Hl. apply distance_le. unfold along, nearestParam. cbn [vx vy]. cbv zeta.
  set (A := x - a_x s). set (B := y - a_y s).
  set (C := a_x t - a_x s). set (D := a_y t - a_y s).
  replace (x - (a_x s + lam * C)) with (A - lam * C) by (unfold A; ring).
  replace (y - (a_y s + lam * D)) with (B - lam * D) by (unfold B; ring).
  destruct (Req_dec_T (C * C + D * D) 0) as [HL|HL].
  - destruct (Rlt_dec (-1) 0); [|lra].
    assert (HC : C = 0).
    { pose proof (Rle_0_sqr C). pose proof (Rle_0_sqr D). unfold Rsqr in *.
      apply Rsqr_0_uniq. unfold Rsqr. lra. }
    assert (HD : D = 0).
    { pose proof (Rle_0_sqr C). pose proof (Rle_0_sqr D). unfold Rsqr in *.
      apply Rsqr_0_uniq. unfold Rsqr. lra. }
    replace (x - (a_x s + 0 * C)) with A by (unfold A; ring).
    replace (y - (a_y s + 0 * D)) with B by (unfold B; ring).
    rewrite HC, HD. lra.
  - assert (HLnn : 0 <= C * C + D * D) by apply sum_sq_nonneg.
    assert (HLpos : 0 < C * C + D * D) by lra.
    set (L := C * C + D * D) in *. set (dot := A * C + B * D).
    assert (E2 : (A - lam * C) * (A - lam * C) + (B - lam * D) * (B - lam * D)
                 = A * A + B * B - 2 * lam * dot + lam * lam * L) by (unfold dot, L; ring).
    assert (Hll : 0 <= lam * lam * L)
      by (apply Rmult_le_pos; [apply Rmult_le_pos; lra|lra]).
    destruct (Rlt_dec (dot / L) 0) as [Hneg|Hneg].
    + replace (x - (a_x s + 0 * C)) with A by (unfold A; ring).
      replace (y - (a_y s + 0 * D)) with B by (unfold B; ring).
      assert (Hdot : dot < 0).
      { apply (Rmult_lt_compat_r L) in Hneg; [|exact HLpos].
        unfold Rdiv in Hneg. rewrite Rmult_assoc, Rinv_l, Rmult_1_r, Rmult_0_l in Hneg; lra. }
      assert (0 <= lam * (- dot)) by (apply Rmult_le_pos; lra).
      rewrite E2. lra.
    + destruct (Rlt_dec 1 (dot / L)) as [Hbig|Hbig].
      * replace (x - (a_x s + 1 * C)) with (A - C) by (unfold A; ring).
        replace (y - (a_y s + 1 * D)) with (B - D) by (unfold B; ring).
        assert (Hdot : L < dot).
        { apply (Rmult_lt_compat_r L) in Hbig; [|exact HLpos].
          unfold Rdiv in Hbig. rewrite Rmult_assoc, Rinv_l, Rmult_1_r, Rmult_1_l in Hbig; lra. }
        assert (E1 : (A - C) * (A - C) + (B - D) * (B - D)
                     = A * A + B * B - 2 * dot + L) by (unfold dot, L; ring).
        rewrite E1, E2.
        assert (0 <= (1 - lam) * (dot - L)) by (apply Rmult_le_pos; lra).
        assert (0 <= (1 - lam) * ((1 - lam) * L))
          by (apply Rmult_le_pos; [lra|apply Rmult_le_pos; lra]).
        lra.
      * replace (x - (a_x s + dot / L * C)) with (A - dot / L * C) by (unfold A; ring).
        replace (y - (a_y s + dot / L * D)) with (B - dot / L * D) by (unfold B; ring).
        set (q := dot / L).
        assert (Hq : q * L = dot) by (unfold q; field; lra).
        assert (E1 : (A - q * C) * (A - q * C) + (B - q * D) * (B - q * D)
                     = A * A + B * B - 2 * q * dot + q * q * L) by (unfold dot, L; ring).
        rewrite E1, E2, <- Hq.
        assert (0 <= (lam - q) * (lam - q) * L)
          by (apply Rmult_le_pos; [apply Rle_0_sqr|lra]).
        lra.
Qed.

Lemma bondHit_nearest (ats : list AtomData) (x y : R) (b : BondData) (s t : AtomData) :
  find (hasId (b_source b)) ats = Some s ->
  find (hasId (b_target b)) ats = Some t ->
  bondHit ats x y b
  = num_lt (distance (mkVec x y) (along s t (nearestParam s t x y))) 8.
Proof.
  intros Hs Ht. unfold bondHit. rewrite Hs, Ht. cbv zeta.
  unfold distance, vec.len, vec.sub, along, nearestParam. cbn [vx vy]. cbv zeta.
  destruct (Req_dec_T _ 0); destruct (Rlt_dec _ 0); try destruct (Rlt_dec 1 _);
    repeat f_equal; try ring; try lra.
Qed.

(** In the example scene a press in the middle of the bond hits the bond
    and no atom. *)
Lemma exState_onBond : onBond exEnv exState (mkPointer 30 0) exBond.
Proof.
  assert (Hp : getPointerCoords exEnv exState (clientX (mkPointer 30 0))
                 (clientY (mkPointer 30 0)) = mkVec 30 0).
  { unfold getPointerCoords. cbn. f_equal; field. }
  unfold onBond. rewrite Hp. split_and; try reflexivity.
  - cbn [atoms exState find].
    replace (num_lt (distance (pos exA) (mkVec 30 0)) 15) with false
      by (symmetry; apply num_lt_false; rewrite (distance_value _ _ 30); [lra|lra|];
          cbn; lra).
    replace (num_lt (distance (pos exB) (mkVec 30 0)) 15) with false
      by (symmetry; apply num_lt_false; rewrite (distance_value _ _ 30); [lra|lra|];
          cbn; lra).
    reflexivity.
  - cbn [atoms bonds exState find vx vy].
    rewrite (bondHit_nearest [exA; exB] 30 0 exBond exA exB eq_refl eq_refl).
    replace (num_lt _ 8) with true; [reflexivity|].
    symmetry. apply num_lt_true.
    assert (Hhalf : 0 <= / 2 <= 1) by lra.
    pose proof (nearestParam_nearest exA exB 30 0 (/ 2) Hhalf) as Hn.
    rewrite (distance_value (mkVec 30 0) (along exA exB (/ 2)) 0) in Hn; [lra|lra|].
    cbn. lra.
Qed.

Lemma bond_click_cycles_order_witness :
  onBond exEnv exState (mkPointer 30 0) exBond
  /\ (forall b, In b (bonds exState) -> b_id b = b_id exBond -> (1 <= b_type b <= 3)%Z)
  /\ bonds (clickGesture exEnv exState (mkPointer 30 0) "r1" "r2" "r3")
     = [mkBond "ab" "a" "b" 2].
Proof.
  assert (Ho : forall b, In b (bonds exState) -> b_id b = b_id exBond ->
                         (1 <= b_type b <= 3)%Z).
  { intros b [<-|[]] _. cbn. lia. }
  split; [exact exState_onBond|]. split; [exact Ho|].
  rewrite (proj1 (bond_click_cycles_order exEnv exState (mkPointer 30 0)
                    "r1" "r2" "r3" "r4" "r5" "r6" "r7" "r8" "r9" exBond
                    exState_onBond Ho)).
  reflexivity.
Defined.

(** ** The graph invariant along traces *)

(** [X17] On a freshly mounted editor, as long as the toolbar (undo,
    redo, clear, tool and element buttons) is used between gestures
    only, every state reached is well-formed: the live graph and every
    history entry have no bond with an end outside the atom list, the
    anchor and the snap target of a gesture are atoms of the live graph,
    and the erase tool has no gesture. *)
Theorem graph_invariant_along_traces (env : Env) (evs : list Event) :
  toolbarAtRest env initialEditor evs ->
  wellFormed (run env initialEditor evs).
Proof. exact (wellFormed_run env evs initialEditor wellFormed_initial). Qed.

Lemma graph_invariant_along_traces_witness :
  toolbarAtRest exEnv initialEditor
    [PointerDown (mkPointer 100 100) "x"; PointerUp (mkPointer 100 100) "y" "xy"; ClearClick]
  /\ noDangling
       (atoms (run exEnv initialEditor
                 [PointerDown (mkPointer 100 100) "x";
                  PointerUp (mkPointer 100 100) "y" "xy"; ClearClick]))
       (bonds (run exEnv initialEditor
                 [PointerDown (mkPointer 100 100) "x";
                  PointerUp (mkPointer 100 100) "y" "xy"; ClearClick])).
Proof.
  assert (H : toolbarAtRest exEnv initialEditor
                [PointerDown (mkPointer 100 100) "x";
                 PointerUp (mkPointer 100 100) "y" "xy"; ClearClick]).
  { cbn [toolbarAtRest isToolbar]. split; [discriminate|]. split; [discriminate|].
    split; [|exact I]. intros _. split; reflexivity. }
  split; [exact H|].
  exact (proj1 (graph_invariant_along_traces exEnv _ H)).
Defined.

(** ** The lines of a bond *)

(** [X18] [getBondCoords] draws a bond exactly when both of its ends are
    found among the atoms and its order is 1, 2 or 3, and then with as
    many lines as the order; any other bond gives [null] and is not
    drawn. *)
Theorem getBondCoords_line_count (st : Editor) (b : BondData) :
  match getBondCoords st b with
  | Some lines =>
      (exists s t, find (hasId (b_source b)) (atoms st) = Some s
                   /\ find (hasId (b_target b)) (atoms st) = Some t)
      /\ (1 <= b_type b <= 3)%Z
      /\ Z.of_nat (List.length lines) = b_type b
  | None =>
      find (hasId (b_source b)) (atoms st) = None
      \/ find (hasId (b_target b)) (atoms st) = None
      \/ ~ (1 <= b_type b <= 3)%Z
  end.
Proof.
  unfold getBondCoords.
  destruct (find (hasId (b_source b)) (atoms st)) as [s|]; [|now left].
  destruct (find (hasId (b_target b)) (atoms st)) as [t|]; [|right; now left].
  cbv zeta.
  destruct (Z.eqb_spec (b_type b) 1) as [E1|E1].
  { rewrite E1. split_and; [eauto|lia|lia|reflexivity]. }
  destruct (Z.eqb_spec (b_type b) 3) as [E3|E3].
  { rewrite E3. cbn [andb].
    destruct (negb (isCarbon s) && negb (isCarbon t));
      (split_and; [eauto|lia|lia|reflexivity]). }
  cbn [andb].
  destruct (Z.eqb_spec (b_type b) 2) as [E2|E2].
  { rewrite E2. cbn [andb].
    destruct (negb (isCarbon s) && negb (isCarbon t));
      (split_and; [eauto|lia|lia|reflexivity]). }
  cbn [andb]. right. right. lia.
Qed.

(** [X19] A double or triple bond between two atoms that are both not
    carbon is drawn with full-length lines, whatever the other atoms and
    bonds of the drawing: for order 2 the axis moved by a vector and the
    axis moved by the opposite vector, and no line on the axis; for
    order 3 the axis and again the axis moved by a vector and by its
    opposite.  A state with the same two end atoms gives the same
    lines. *)
Theorem heteroatom_bond_lines (st : Editor) (b : BondData) (s t : AtomData) :
  find (hasId (b_source b)) (atoms st) = Some s ->
  find (hasId (b_target b)) (atoms st) = Some t ->
  isCarbon s = false -> isCarbon t = false ->
  (exists d : Vec2,
     (b_type b = 2%Z ->
      getBondCoords st b
      = Some [mkLine (a_x s + vx d) (a_y s + vy d) (a_x t + vx d) (a_y t + vy d);
              mkLine (a_x s - vx d) (a_y s - vy d) (a_x t - vx d) (a_y t - vy d)]))
  /\ (exists d : Vec2,
        (b_type b = 3%Z ->
         getBondCoords st b
         = Some [mkLine (a_x s) (a_y s) (a_x t) (a_y t);
                 mkLine (a_x s + vx d) (a_y s + vy d) (a_x t + vx d) (a_y t + vy d);
                 mkLine (a_x s - vx d) (a_y s - vy d) (a_x t - vx d) (a_y t - vy d)]))
  /\ (forall st2,
        find (hasId (b_source b)) (atoms st2) = Some s ->
        find (hasId (b_target b)) (atoms st2) = Some t ->
        (b_type b = 2%Z \/ b_type b = 3%Z) ->
        getBondCoords st2 b = getBondCoords st b).
Proof.
  intros Hs Ht Cs Ct.
  set (n := vec.norm (vec.sub (pos t) (pos s))).
  split_and.
  - exists (mkVec (- vy n * 6 * 0.5) (vx n * 6 * 0.5)). intros E.
    unfold getBondCoords. rewrite Hs, Ht. cbv zeta. rewrite E, Cs, Ct. reflexivity.
  - exists (mkVec (- vy n * 6) (vx n * 6)). intros E.
    unfold getBondCoords. rewrite Hs, Ht. cbv zeta. rewrite E, Cs, Ct. reflexivity.
  - intros st2 Hs2 Ht2 [E|E]; unfold getBondCoords; rewrite Hs, Ht, Hs2, Ht2;
      cbv zeta; rewrite E, Cs, Ct; reflexivity.
Qed.

(** The double bond of the scene, and the same bond in a drawing with a
    third atom bonded to one of its ends. *)
Lemma heteroatom_bond_lines_witness :
  let st2 := hetState |> setAtoms [hetN; hetO; exB]
                      |> setBonds [hetBond; mkBond "ob" "o" "b" 1] in
  find (hasId (b_source hetBond)) (atoms hetState) = Some hetN
  /\ find (hasId (b_target hetBond)) (atoms hetState) = Some hetO
  /\ isCarbon hetN = false /\ isCarbon hetO = false
  /\ getBondCoords st2 hetBond = getBondCoords hetState hetBond.
Proof.
  intros st2.
  split; [reflexivity|]. split; [reflexivity|]. split; [reflexivity|].
  split; [reflexivity|].
  exact (proj2 (proj2 (heteroatom_bond_lines hetState hetBond hetN hetO
                         eq_refl eq_refl eq_refl eq_refl))
           st2 eq_refl eq_refl (or_introl eq_refl)).
Defined.

(** ** Vector helpers *)

Lemma norm_zero : vec.norm (mkVec 0 0) = mkVec 0 0.
Proof.
  unfold vec.norm. cbn [vx vy].
  replace (0 * 0 + 0 * 0) with 0 by ring. rewrite sqrt_0.
  destruct (Req_dec_T 0 0); [reflexivity|lra].
Qed.

(** [X20] The vector helpers: [vec.norm] leaves the zero vector as it
    is; [vec.angle] is symmetric and lies between 0 and PI, and it is
    PI/2 as soon as one of the vectors is the zero vector. *)
Theorem vec_norm_angle (u w : Vec2) :
  vec.norm (mkVec 0 0) = mkVec 0 0
  /\ vec.angle u w = vec.angle w u
  /\ 0 <= vec.angle u w <= PI
  /\ vec.angle (mkVec 0 0) w = PI / 2
  /\ vec.angle u (mkVec 0 0) = PI / 2.
Proof.
  assert (Hzero : forall a b, Rmax (-1) (Rmin 1 (a * 0 + b * 0)) = 0).
  { intros a b. replace (a * 0 + b * 0) with 0 by ring. unfold Rmax, Rmin.
    destruct (Rle_dec 1 0); [lra|]. destruct (Rle_dec (-1) 0); lra. }
  split_and.
  - apply norm_zero.
  - unfold vec.angle, vec.dot. do 2 f_equal. f_equal. ring.
  - apply (angle_bound u w).
  - apply (angle_bound u w).
  - unfold vec.angle. rewrite norm_zero. unfold vec.dot. cbn [vx vy].
    replace (0 * vx (vec.norm w) + 0 * vy (vec.norm w))
      with (vx (vec.norm w) * 0 + vy (vec.norm w) * 0) by ring.
    rewrite Hzero. apply acos_0.
  - unfold vec.angle. rewrite norm_zero. unfold vec.dot. cbn [vx vy].
    rewrite Hzero. apply acos_0.
Qed.

(** ** Angle snapping *)




(** ** Labels *)

(** [X22] [getAtomLabel] gives no label ([null], the skeletal display)
    exactly for a carbon atom with at least one incident bond; every
    other atom has a label. *)
Theorem getAtomLabel_skeletal (atom : AtomData) (bonds : list BondData) :
  getAtomLabel atom bonds = None
  <-> a_element atom = "C"%string
      /\ exists b, In b bonds /\ incident (a_id atom) b = true.
Proof.
  unfold getAtomLabel. cbv zeta.
  destruct (String.eqb_spec (a_element atom) "C") as [E|E].
  - destruct (connectedBonds atom bonds) as [|b l] eqn:Hc.
    + split; [discriminate|]. intros (_ & b & Hin & Hb).
      assert (Hf : In b (connectedBonds atom bonds))
        by (unfold connectedBonds; apply filter_In; now split).
      rewrite Hc in Hf. destruct Hf.
    + split; [|reflexivity]. intros _. split; [exact E|].
      exists b. assert (Hf : In b (connectedBonds atom bonds)) by (rewrite Hc; now left).
      unfold connectedBonds in Hf. now apply filter_In in Hf.
  - split.
    + destruct (_ && _); discriminate.
    + intros [Hc' _]. contradiction.
Qed.

Lemma currentValence_isolated (atom : AtomData) (bonds : list BondData) :
  connectedBonds atom bonds = [] -> currentValence atom bonds = 0%Z.
Proof. intros H. unfold currentValence. now rewrite H. Qed.

(** [X23] An atom without incident bonds is labelled with its hydride:
    CH₄, NH₃, H₂O, H₂, H₂S, HCl, HF, H₅P, HBr, HI for the ten elements of
    the valence table (the hydrogens first, except for nitrogen, carbon
    and hydrogen itself), and its bare symbol for any other element. *)
Theorem getAtomLabel_isolated (atom : AtomData) (bonds : list BondData) :
  connectedBonds atom bonds = [] ->
  getAtomLabel atom bonds = Some (isolatedLabel (a_element atom)).
Proof.
  intros Hc. unfold getAtomLabel, implicitH. cbv zeta.
  rewrite (currentValence_isolated atom bonds Hc), Hc. unfold isolatedLabel.
  destruct (String.eqb_spec (a_element atom) "C") as [E|NC]; [reflexivity|].
  destruct (String.eqb_spec (a_element atom) "N") as [E|NN]; [rewrite E; reflexivity|].
  destruct (String.eqb_spec (a_element atom) "O") as [E|NO]; [rewrite E; reflexivity|].
  destruct (String.eqb_spec (a_element atom) "H") as [E|NH]; [rewrite E; reflexivity|].
  destruct (String.eqb_spec (a_element atom) "S") as [E|NS]; [rewrite E; reflexivity|].
  destruct (String.eqb_spec (a_element atom) "Cl") as [E|NCl]; [rewrite E; reflexivity|].
  destruct (String.eqb_spec (a_element atom) "F") as [E|NF]; [rewrite E; reflexivity|].
  destruct (String.eqb_spec (a_element atom) "P") as [E|NP]; [rewrite E; reflexivity|].
  destruct (String.eqb_spec (a_element atom) "Br") as [E|NBr]; [rewrite E; reflexivity|].
  destruct (String.eqb_spec (a_element atom) "I") as [E|NI]; [rewrite E; reflexivity|].
  assert (Hv : valenceOf (a_element atom) = 0%Z).
  { unfold valenceOf, VALENCE. cbn [find fst].
    repeat match goal with
           | |- context [String.eqb ?a ?b] =>
               replace (String.eqb a b) with false
                 by (symmetry; apply String.eqb_neq; congruence)
           end.
    reflexivity. }
  rewrite Hv. cbn [Z.sub Z.max Z.compare Z.ltb Z.eqb andb negb].
  reflexivity.
Qed.

Lemma getAtomLabel_isolated_witness :
  connectedBonds (mkAtom "p" 0 0 "P") [exBond] = []
  /\ getAtomLabel (mkAtom "p" 0 0 "P") [exBond] = Some "H₅P"%string.
Proof.
  split; [reflexivity|].
  exact (getAtomLabel_isolated (mkAtom "p" 0 0 "P") [exBond] eq_refl).
Defined.

(** [X24] An atom other than carbon whose incident bond orders add up to
    its valence or more (no implicit hydrogen is left, however far the
    sum exceeds the valence) is labelled with its bare element symbol. *)
Theorem getAtomLabel_saturated (atom : AtomData) (bonds : list BondData) :
  a_element atom <> "C"%string ->
  (valenceOf (a_element atom) <= currentValence atom bonds)%Z ->
  getAtomLabel atom bonds = Some (a_element atom).
Proof.
  intros NC Hsat. unfold getAtomLabel, implicitH. cbv zeta.
  apply String.eqb_neq in NC. rewrite NC.
  replace (Z.max 0 (valenceOf (a_element atom) - currentValence atom bonds)) with 0%Z by lia.
  cbn [Z.ltb Z.compare]. rewrite append_nil_r.
  destruct (_ && _); reflexivity.
Qed.

Lemma getAtomLabel_saturated_witness :
  a_element (mkAtom "b" 60 0 "O") <> "C"%string
  /\ (valenceOf (a_element (mkAtom "b" 60 0 "O"))
      <= currentValence (mkAtom "b" 60 0 "O") [mkBond "ab" "a" "b" 3])%Z
  /\ getAtomLabel (mkAtom "b" 60 0 "O") [mkBond "ab" "a" "b" 3] = Some "O"%string.
Proof.
  assert (NC : a_element (mkAtom "b" 60 0 "O") <> "C"%string) by discriminate.
  assert (Hsat : (valenceOf (a_element (mkAtom "b" 60 0 "O"))
                  <= currentValence (mkAtom "b" 60 0 "O") [mkBond "ab" "a" "b" 3])%Z)
    by (vm_compute; discriminate).
  split; [exact NC|]. split; [exact Hsat|].
  exact (getAtomLabel_saturated _ _ NC Hsat).
Defined.

(** ** The check of a drawn answer *)

Lemma joins_sym (i j : string) (b : BondData) : joins i j b = joins j i b.
Proof. unfold joins. apply orb_comm. Qed.

(** [X25] The verdict on a drawn answer depends on the order in which
    the atoms were drawn.  For the structure question of the question
    store: a chain of three carbons and an oxygen with single bonds,
    listed from the carbon end, is accepted; the same atoms and bonds
    listed from the oxygen end are rejected. *)
Theorem structure_check_order_sensitive (parseFloat : string -> option R)
  (a1 a2 a3 a4 : AtomData) (b1 b2 b3 : BondData) :
  NoDup (map a_id [a1; a2; a3; a4]) ->
  isChain [a1; a2; a3; a4] [b1; b2; b3] ->
  a_element a1 = "C"%string -> a_element a2 = "C"%string ->
  a_element a3 = "C"%string -> a_element a4 = "O"%string ->
  b_type b1 = 1%Z -> b_type b2 = 1%Z -> b_type b3 = 1%Z ->
  checkAnswer parseFloat
    (StructureSub question301 (Some (mkDrawing (Some [a1; a2; a3; a4]) [b1; b2; b3])))
  = true
  /\ checkAnswer parseFloat
       (StructureSub question301 (Some (mkDrawing (Some [a4; a3; a2; a1]) [b3; b2; b1])))
     = false.
Proof.
  intros Hnd Hc E1 E2 E3 E4 T1 T2 T3.
  assert (Hnd' : NoDup (map a_id [a4; a3; a2; a1])).
  { change [a4; a3; a2; a1] with (rev [a1; a2; a3; a4]). rewrite map_rev.
    now apply NoDup_rev. }
  assert (Hc' : isChain [a4; a3; a2; a1] [b3; b2; b1]).
  { inversion Hc as [|? ? ? ? ? J1 Hc1]; subst.
    inversion Hc1 as [|? ? ? ? ? J2 Hc2]; subst.
    inversion Hc2 as [|? ? ? ? ? J3 Hc3]; subst.
    apply chain_cons; [now rewrite joins_sym|].
    apply chain_cons; [now rewrite joins_sym|].
    apply chain_cons; [now rewrite joins_sym|]. apply chain_one. }
  cbn [checkAnswer s_atoms s_bonds].
  rewrite (smiles_of_chain _ _ Hnd Hc), (smiles_of_chain _ _ Hnd' Hc').
  cbn [chainText]. rewrite E1, E2, E3, E4, T1, T2, T3. split; reflexivity.
Qed.

Lemma structure_check_order_sensitive_witness :
  checkAnswer (fun _ => None)
    (StructureSub question301
       (Some (mkDrawing (Some [mkAtom "1" 0 0 "C"; mkAtom "2" 60 0 "C";
                               mkAtom "3" 120 0 "C"; mkAtom "4" 180 0 "O"])
                        [mkBond "a" "1" "2" 1; mkBond "b" "3" "2" 1; mkBond "c" "3" "4" 1])))
  = true.
Proof.
  assert (Hnd : NoDup (map a_id [mkAtom "1" 0 0 "C"; mkAtom "2" 60 0 "C";
                                 mkAtom "3" 120 0 "C"; mkAtom "4" 180 0 "O"])).
  { cbn [map a_id]. repeat constructor; cbn [In]; intros H;
      repeat (destruct H as [H|H]; [discriminate H|]); exact H. }
  assert (Hc : isChain [mkAtom "1" 0 0 "C"; mkAtom "2" 60 0 "C";
                        mkAtom "3" 120 0 "C"; mkAtom "4" 180 0 "O"]
                       [mkBond "a" "1" "2" 1; mkBond "b" "3" "2" 1; mkBond "c" "3" "4" 1]).
  { repeat (apply chain_cons; [reflexivity|]). apply chain_one. }
  exact (proj1 (structure_check_order_sensitive (fun _ => None) _ _ _ _ _ _ _ Hnd Hc
                  eq_refl eq_refl eq_refl eq_refl eq_refl eq_refl eq_refl)).
Defined.

(** ** The option buttons *)

Lemma toggleOption_spec (current : list Z) (optionIdx maxSelect : Z) :
  NoDup current -> (Z.of_nat (List.length current) <= maxSelect)%Z -> (1 <= maxSelect)%Z ->
  let next := toggleOption current optionIdx maxSelect in
  NoDup next
  /\ (Z.of_nat (List.length next) <= maxSelect)%Z
  /\ (In optionIdx next <-> ~ In optionIdx current)
  /\ (forall x, x <> optionIdx -> In x next -> In x current).
Proof.
  intros Hnd Hlen Hmax. cbv zeta. unfold toggleOption.
  destruct (existsb (Z.eqb optionIdx) current) eqn:E.
  - apply existsb_exists in E. destruct E as (x & Hx & Ex). apply Z.eqb_eq in Ex. subst x.
    split_and.
    + now apply NoDup_filter.
    + pose proof (filter_length_le (fun i => negb (i =? optionIdx)%Z) current). lia.
    + split.
      * intros Hin. apply filter_In in Hin. destruct Hin as [_ Hb].
        rewrite Z.eqb_refl in Hb. discriminate.
      * intros Hn. contradiction.
    + intros x _ Hin. apply filter_In in Hin. tauto.
  - assert (Hnot : ~ In optionIdx current).
    { intros Hin. assert (existsb (Z.eqb optionIdx) current = true)
        by (apply existsb_exists; exists optionIdx; split; [exact Hin|apply Z.eqb_refl]).
      congruence. }
    assert (Hnd' : NoDup (current ++ [optionIdx])).
    { apply NoDup_app; [exact Hnd|repeat constructor; intros []|].
      intros x Hx [<-|[]]. contradiction. }
    cbv zeta. rewrite length_app. cbn [List.length].
    destruct (Z.ltb_spec maxSelect (Z.of_nat (List.length current + 1))) as [Hover|Hfit].
    + destruct current as [|c current].
      * cbn [List.length] in Hover. lia.
      * cbn [app tl]. cbn [app] in Hnd'. apply NoDup_cons_iff in Hnd'.
        destruct Hnd' as [Hc Hnd']. split_and.
        -- exact Hnd'.
        -- rewrite length_app. cbn [List.length] in *. lia.
        -- split; [intros _; exact Hnot|intros _; apply in_or_app; right; now left].
        -- intros x Hx Hin. apply in_app_or in Hin.
           destruct Hin as [Hin|[<-|[]]]; [now right|contradiction].
    + split_and.
      * exact Hnd'.
      * rewrite length_app. cbn [List.length]. lia.
      * split; [intros _; exact Hnot|intros _; apply in_or_app; right; now left].
      * intros x Hx Hin. apply in_app_or in Hin.
        destruct Hin as [Hin|[<-|[]]]; [exact Hin|contradiction].
Qed.

Lemma selectionOf_click (ua : list (string * list Z)) (qId : string) (i maxSelect : Z) :
  selectionOf qId (handleSelectionAnswer ua qId i maxSelect)
  = toggleOption (selectionOf qId ua) i maxSelect.
Proof.
  unfold selectionOf, handleSelectionAnswer. cbv zeta.
  now rewrite lookup_assign, String.eqb_refl.
Qed.

Lemma lookup_click (ua : list (string * list Z)) (qId k : string) (i maxSelect : Z) :
  k <> qId -> lookup k (handleSelectionAnswer ua qId i maxSelect) = lookup k ua.
Proof.
  intros Hk. unfold handleSelectionAnswer. cbv zeta. rewrite lookup_assign.
  replace (String.eqb qId k) with false; [reflexivity|].
  symmetry. apply String.eqb_neq. congruence.
Qed.

Lemma clickOptions_invariant (qId : string) (maxSelect : Z) (clicks : list Z) :
  (1 <= maxSelect)%Z ->
  forall ua,
    NoDup (selectionOf qId ua) ->
    (Z.of_nat (List.length (selectionOf qId ua)) <= maxSelect)%Z ->
    let ua' := clickOptions qId maxSelect clicks ua in
    NoDup (selectionOf qId ua')
    /\ (Z.of_nat (List.length (selectionOf qId ua')) <= maxSelect)%Z
    /\ (forall x, In x (selectionOf qId ua') -> In x (selectionOf qId ua) \/ In x clicks)
    /\ (forall k, k <> qId -> lookup k ua' = lookup k ua).
Proof.
  intros Hmax. induction clicks as [|i clicks IH]; intros ua Hnd Hlen; cbv zeta.
  - change (clickOptions qId maxSelect [] ua) with ua. split_and; auto.
  - change (clickOptions qId maxSelect (i :: clicks) ua)
      with (clickOptions qId maxSelect clicks (handleSelectionAnswer ua qId i maxSelect)).
    destruct (toggleOption_spec (selectionOf qId ua) i maxSelect Hnd Hlen Hmax)
      as (Hnd1 & Hlen1 & _ & Hold).
    rewrite <- selectionOf_click in Hnd1, Hlen1, Hold.
    destruct (IH _ Hnd1 Hlen1) as (Hnd2 & Hlen2 & Hin2 & Hk2). split_and.
    + exact Hnd2.
    + exact Hlen2.
    + intros x Hx. destruct (Hin2 x Hx) as [H|H]; [|right; now right].
      destruct (Z.eq_dec x i) as [->|Hne]; [right; now left|].
      left. now apply Hold.
    + intros k Hk. rewrite (Hk2 k Hk). now apply lookup_click.
Qed.

(** [X26] The option buttons of a selection question that allows at
    least one option: after any sequence of clicks on a question
    without stored answer, the stored options are pairwise different,
    at most [maxSelect] many, and all among the clicked ones; the
    answers stored for the other questions are untouched; and each
    click flips the clicked option (an option that was stored is taken
    out, one that was not is stored, the oldest making room when the
    limit is reached). *)
Theorem selection_respects_limit (qId : string) (maxSelect : Z) (clicks : list Z)
  (userAnswers : list (string * list Z)) :
  (1 <= maxSelect)%Z ->
  lookup qId userAnswers = None ->
  let ua := clickOptions qId maxSelect clicks userAnswers in
  NoDup (selectionOf qId ua)
  /\ (Z.of_nat (List.length (selectionOf qId ua)) <= maxSelect)%Z
  /\ (forall x, In x (selectionOf qId ua) -> In x clicks)
  /\ (forall k, k <> qId -> lookup k ua = lookup k userAnswers)
  /\ (forall before i, clicks = before ++ [i] ->
        (In i (selectionOf qId ua)
         <-> ~ In i (selectionOf qId (clickOptions qId maxSelect before userAnswers)))).
Proof.
  intros Hmax Hfresh ua.
  assert (H0 : selectionOf qId userAnswers = []) by (unfold selectionOf; now rewrite Hfresh).
  assert (Hnd0 : NoDup (selectionOf qId userAnswers)) by (rewrite H0; constructor).
  assert (Hlen0 : (Z.of_nat (List.length (selectionOf qId userAnswers)) <= maxSelect)%Z)
    by (rewrite H0; cbn; lia).
  destruct (clickOptions_invariant qId maxSelect clicks Hmax userAnswers Hnd0 Hlen0)
    as (Hnd & Hlen & Hin & Hk).
  fold ua in Hnd, Hlen, Hin, Hk. split_and; try assumption.
  - intros x Hx. destruct (Hin x Hx) as [H|H]; [rewrite H0 in H; destruct H|exact H].
  - intros before i E.
    destruct (clickOptions_invariant qId maxSelect before Hmax userAnswers Hnd0 Hlen0)
      as (Hndb & Hlenb & _ & _).
    unfold ua. rewrite E. unfold clickOptions at 1. rewrite fold_left_app. cbn [fold_left].
    fold (clickOptions qId maxSelect before userAnswers).
    rewrite selectionOf_click.
    apply (toggleOption_spec _ i maxSelect Hndb Hlenb Hmax).
Qed.

Lemma selection_respects_limit_witness :
  (1 <= 2)%Z
  /\ lookup "302" (@nil (string * list Z)) = None
  /\ NoDup (selectionOf "302" (clickOptions "302" 2 [0; 1; 2; 1]%Z []))
  /\ (Z.of_nat (List.length (selectionOf "302" (clickOptions "302" 2 [0; 1; 2; 1]%Z [])))
      <= 2)%Z.
Proof.
  assert (Hmax : (1 <= 2)%Z) by lia.
  split; [exact Hmax|]. split; [reflexivity|].
  destruct (selection_respects_limit "302" 2 [0; 1; 2; 1]%Z [] Hmax eq_refl)
    as (Hnd & Hlen & _).
  split; [exact Hnd|exact Hlen].
Defined.

(** ** The check of a selection answer *)

(** *** The order of the default sort *)

Lemma ascii_compare_trans (a b c : ascii) :
  Ascii.compare a b = Lt -> Ascii.compare b c = Lt -> Ascii.compare a c = Lt.
Proof.
  unfold Ascii.compare. rewrite !N.compare_lt_iff. apply N.lt_trans.
Qed.

Lemma ascii_compare_refl (a : ascii) : Ascii.compare a a = Eq.
Proof. unfold Ascii.compare. apply N.compare_refl. Qed.

Lemma string_ltb_trans (s1 s2 s3 : string) :
  String.ltb s1 s2 = true -> String.ltb s2 s3 = true -> String.ltb s1 s3 = true.
Proof.
  unfold String.ltb.
  revert s2 s3. induction s1 as [|c1 s1 IH]; intros [|c2 s2] [|c3 s3]; cbn;
    try discriminate; try reflexivity.
  destruct (Ascii.compare c1 c2) eqn:E12; try discriminate;
    destruct (Ascii.compare c2 c3) eqn:E23; try discriminate.
  - apply Ascii.compare_eq_iff in E12, E23. subst. rewrite ascii_compare_refl. apply IH.
  - apply Ascii.compare_eq_iff in E12. subst. rewrite E23. reflexivity.
  - apply Ascii.compare_eq_iff in E23. subst. rewrite E12. reflexivity.
  - rewrite (ascii_compare_trans _ _ _ E12 E23). reflexivity.
Qed.

Lemma string_ltb_asym (s1 s2 : string) :
  String.ltb s1 s2 = true -> String.ltb s2 s1 = false.
Proof.
  unfold String.ltb. intros H. rewrite (String.compare_antisym s2 s1).
  destruct (String.compare s1 s2); cbn in *; try discriminate; reflexivity.
Qed.

Lemma string_ltb_total (s1 s2 : string) :
  String.ltb s1 s2 = false -> String.ltb s2 s1 = false -> s1 = s2.
Proof.
  unfold String.ltb. intros H1 H2. apply String.compare_eq_iff.
  rewrite (String.compare_antisym s2 s1) in H2.
  destruct (String.compare s1 s2); cbn in *; try discriminate; reflexivity.
Qed.

(** *** Numbers as text *)

Lemma numberText_inj (a b : Z) : numberText a = numberText b -> a = b.
Proof.
  unfold numberText. intros H. apply DecimalZ.to_int_inj.
  assert (Hn : forall z, Z.to_int z <> Decimal.Pos Decimal.Nil
                         /\ Z.to_int z <> Decimal.Neg Decimal.Nil).
  { intros [|p|p]; cbn; split; try discriminate; intros E; injection E as E;
      now apply Unsigned.to_uint_nonnil in E. }
  assert (Hs : Some (Z.to_int a) = Some (Z.to_int b)).
  { rewrite <- (NilZero.isi (Z.to_int a)) by apply Hn.
    rewrite <- (NilZero.isi (Z.to_int b)) by apply Hn. now rewrite H. }
  now injection Hs.
Qed.

Lemma commaFree_uint (u : Decimal.uint) : commaFree (NilEmpty.string_of_uint u).
Proof. induction u; cbn; try exact I; (split; [discriminate|assumption]). Qed.

Lemma numberText_commaFree (z : Z) : commaFree (numberText z).
Proof.
  unfold numberText, NilZero.string_of_int, NilZero.string_of_uint.
  destruct (Z.to_int z) as [u|u]; destruct u; cbn;
    repeat (split; [discriminate|]); try exact I; apply commaFree_uint.
Qed.

Lemma numberText_nonempty (z : Z) : numberText z <> EmptyString.
Proof.
  unfold numberText, NilZero.string_of_int, NilZero.string_of_uint.
  destruct (Z.to_int z) as [u|u]; destruct u; cbn; discriminate.
Qed.

Lemma first_comma (x x' r r' : string) :
  commaFree x -> commaFree x' ->
  (x ++ String "," r = x' ++ String "," r')%string -> x = x' /\ r = r'.
Proof.
  revert x'. induction x as [|c x IH]; intros [|c' x'] Hx Hx' E; cbn in *.
  - injection E as E. now split.
  - injection E as E1 E2. destruct Hx' as [Hc _]. now subst.
  - injection E as E1 E2. destruct Hx as [Hc _]. now subst.
  - injection E as E1 E2. destruct Hx as [_ Hx]. destruct Hx' as [_ Hx'].
    destruct (IH x' Hx Hx' E2) as [-> ->]. now subst.
Qed.

Lemma commaFree_no_comma (x y r : string) :
  commaFree x -> x <> (y ++ String "," r)%string.
Proof.
  revert y. induction x as [|c x IH]; intros [|c' y] Hx E; cbn in *; try discriminate.
  - injection E as E1 E2. destruct Hx as [Hc _]. now subst.
  - injection E as E1 E2. destruct Hx as [_ Hx]. exact (IH y Hx E2).
Qed.

Lemma joinNumbers_cons (x y : Z) (l : list Z) :
  joinNumbers (x :: y :: l) = (numberText x ++ String "," (joinNumbers (y :: l)))%string.
Proof. reflexivity. Qed.

Lemma joinNumbers_inj (l l' : list Z) : joinNumbers l = joinNumbers l' -> l = l'.
Proof.
  revert l'. induction l as [|x l IH]; intros [|x' l'] E.
  - reflexivity.
  - exfalso. destruct l' as [|y' l'].
    + cbn in E. symmetry in E. now apply numberText_nonempty in E.
    + rewrite joinNumbers_cons in E. 
      pose proof (numberText_nonempty x'). destruct (numberText x'); [contradiction|discriminate].
  - exfalso. destruct l as [|y l].
    + cbn in E. now apply numberText_nonempty in E.
    + rewrite joinNumbers_cons in E.
      pose proof (numberText_nonempty x). destruct (numberText x); [contradiction|discriminate].
  - destruct l as [|y l], l' as [|y' l'].
    + cbn in E. apply numberText_inj in E. now subst.
    + exfalso. rewrite joinNumbers_cons in E. cbn in E.
      exact (commaFree_no_comma _ _ _ (numberText_commaFree x) E).
    + exfalso. rewrite joinNumbers_cons in E. cbn in E. symmetry in E.
      exact (commaFree_no_comma _ _ _ (numberText_commaFree x') E).
    + rewrite !joinNumbers_cons in E.
      apply first_comma in E; try apply numberText_commaFree.
      destruct E as [E1 E2]. apply numberText_inj in E1. subst x'.
      f_equal. now apply IH.
Qed.

(** *** The default sort *)

Lemma insertSorted_perm (x : Z) (l : list Z) : Permutation (insertSorted x l) (x :: l).
Proof.
  induction l as [|y l IH]; cbn [insertSorted]; [reflexivity|].
  destruct (String.ltb _ _); [reflexivity|].
  rewrite IH. apply perm_swap.
Qed.

Lemma defaultSort_perm (l : list Z) : Permutation (defaultSort l) l.
Proof.
  unfold defaultSort.
  assert (H : forall acc, Permutation (fold_left (fun acc x => insertSorted x acc) l acc)
                                      (acc ++ l)).
  { induction l as [|x l IH]; intros acc; cbn [fold_left].
    - now rewrite app_nil_r.
    - rewrite IH. transitivity ((x :: acc) ++ l).
      + apply Permutation_app_tail, insertSorted_perm.
      + cbn [app]. apply Permutation_middle. }
  apply (H []).
Qed.

Lemma insertSorted_comm (x y : Z) (l : list Z) :
  insertSorted x (insertSorted y l) = insertSorted y (insertSorted x l).
Proof.
  assert (Heq : forall a b, String.ltb (numberText a) (numberText b) = false ->
                            String.ltb (numberText b) (numberText a) = false -> a = b).
  { intros a b H1 H2. apply numberText_inj. now apply string_ltb_total. }
  induction l as [|z l IH]; cbn [insertSorted].
  - destruct (String.ltb (numberText x) (numberText y)) eqn:Exy.
    + now rewrite (string_ltb_asym _ _ Exy).
    + destruct (String.ltb (numberText y) (numberText x)) eqn:Eyx; [reflexivity|].
      now rewrite (Heq x y Exy Eyx).
  - destruct (String.ltb (numberText y) (numberText z)) eqn:Eyz;
      destruct (String.ltb (numberText x) (numberText z)) eqn:Exz; cbn [insertSorted].
    + rewrite Eyz, Exz.
      destruct (String.ltb (numberText x) (numberText y)) eqn:Exy.
      * now rewrite (string_ltb_asym _ _ Exy).
      * destruct (String.ltb (numberText y) (numberText x)) eqn:Eyx; [reflexivity|].
        now rewrite (Heq x y Exy Eyx).
    + rewrite Eyz, Exz.
      destruct (String.ltb (numberText x) (numberText y)) eqn:Exy.
      * rewrite (string_ltb_trans _ _ _ Exy Eyz) in Exz. discriminate.
      * reflexivity.
    + rewrite Eyz, Exz.
      destruct (String.ltb (numberText y) (numberText x)) eqn:Eyx.
      * rewrite (string_ltb_trans _ _ _ Eyx Exz) in Eyz. discriminate.
      * reflexivity.
    + rewrite Eyz, Exz. now rewrite IH.
Qed.

Lemma defaultSort_canonical (l l' : list Z) :
  Permutation l l' -> defaultSort l = defaultSort l'.
Proof.
  unfold defaultSort. intros H.
  assert (G : forall acc, fold_left (fun acc x => insertSorted x acc) l acc
                          = fold_left (fun acc x => insertSorted x acc) l' acc).
  { induction H as [|x l l' H IH|x y l|l l' l'' H1 IH1 H2 IH2]; intros acc; cbn [fold_left].
    - reflexivity.
    - apply IH.
    - now rewrite insertSorted_comm.
    - now rewrite IH1. }
  apply G.
Qed.

(** [X27] A selection question is answered correctly exactly when the
    stored option indices are the expected ones up to their order (the
    same indices with the same multiplicities); a question without
    stored answer is answered wrongly. *)
Theorem selection_check_is_permutation (parseFloat : string -> option R)
  (answers a : list Z) :
  (checkAnswer parseFloat (SelectionSub answers (Some a)) = true <-> Permutation a answers)
  /\ checkAnswer parseFloat (SelectionSub answers None) = false.
Proof.
  split; [|reflexivity].
  cbn [checkAnswer]. rewrite String.eqb_eq. split.
  - intros H. apply joinNumbers_inj in H.
    rewrite <- (defaultSort_perm a), H. apply defaultSort_perm.
  - intros H. now rewrite (defaultSort_canonical a answers H).
Qed.

(** ** The erase tool *)

(** [X28] A press of the erase tool on an atom removes every atom with
    the id of that atom and every bond with an end at that id, keeps
    all the other atoms and bonds, and commits the result; a graph
    without dangling bond stays without dangling bond. *)
Theorem erase_atom_cascade (env : Env) (st : Editor) (e : PointerEvent) (rid : string)
  (ca : AtomData) :
  isReadOnly env = false -> tool st = erase ->
  find (fun a => num_lt (distance (pos a)
                   (getPointerCoords env st (clientX e) (clientY e))) 15) (atoms st)
  = Some ca ->
  let st' := handlePointerDown env st e rid in
  (forall a, In a (atoms st') <-> In a (atoms st) /\ a_id a <> a_id ca)
  /\ (forall b, In b (bonds st')
                <-> In b (bonds st) /\ b_source b <> a_id ca /\ b_target b <> a_id ca)
  /\ synced st'
  /\ (noDangling (atoms st) (bonds st) -> noDangling (atoms st') (bonds st')).
Proof.
  intros Hro Htool Hca st'.
  assert (H : st' = commitToHistory
                      (filter (fun a => negb (String.eqb (a_id a) (a_id ca))) (atoms st))
                      (filter (fun b => negb (String.eqb (b_source b) (a_id ca))
                                        && negb (String.eqb (b_target b) (a_id ca)))
                              (bonds st)) st).
  { unfold st', handlePointerDown. rewrite Hro. cbv zeta. rewrite Hca, Htool. reflexivity. }
  assert (Ha : forall a, In a (atoms st') <-> In a (atoms st) /\ a_id a <> a_id ca).
  { intros a. rewrite H. simpl_state. rewrite filter_In, negb_true_iff, String.eqb_neq.
    reflexivity. }
  assert (Hb : forall b, In b (bonds st')
                         <-> In b (bonds st) /\ b_source b <> a_id ca /\ b_target b <> a_id ca).
  { intros b. rewrite H. simpl_state.
    rewrite filter_In, andb_true_iff, !negb_true_iff, !String.eqb_neq. reflexivity. }
  split_and; try assumption.
  - rewrite H. apply commit_synced.
  - intros Hg b Hin. apply Hb in Hin. destruct Hin as (Hin & Hs & Ht).
    destruct (Hg b Hin) as [(s & Hs1 & Hs2) (t & Ht1 & Ht2)]. split.
    + exists s. split; [apply Ha; split; [exact Hs1|congruence]|exact Hs2].
    + exists t. split; [apply Ha; split; [exact Ht1|congruence]|exact Ht2].
Qed.

Lemma erase_atom_cascade_witness :
  find (fun a => num_lt (distance (pos a)
                   (getPointerCoords exEnv (setTool erase exState)
                      (clientX (mkPointer 0 0)) (clientY (mkPointer 0 0)))) 15)
       (atoms (setTool erase exState)) = Some exA
  /\ synced (handlePointerDown exEnv (setTool erase exState) (mkPointer 0 0) "r")
  /\ (forall b, In b (bonds (handlePointerDown exEnv (setTool erase exState)
                               (mkPointer 0 0) "r"))
                <-> In b (bonds (setTool erase exState))
                    /\ b_source b <> a_id exA /\ b_target b <> a_id exA).
Proof.
  assert (Hd : 0 <= 0 < 15) by lra.
  destruct (exState_hit 0 Hd) as [Hhit _].
  split; [exact Hhit|].
  destruct (erase_atom_cascade exEnv (setTool erase exState) (mkPointer 0 0) "r" exA
              eq_refl eq_refl Hhit) as (_ & Hb & Hs & _).
  split; [exact Hs|exact Hb].
Defined.

(** ** Prop synchronisation, run again *)

(** [X29] The prop synchronisation effect is idempotent, whatever
    [JSON.stringify] returns: running it a second time with the same
    [value] leaves the state that the first run produced. *)
Theorem propSync_idempotent (JSON_stringify : JsObject -> string)
  (value : option Value) (st : Editor) :
  propSync JSON_stringify value (propSync JSON_stringify value st)
  = propSync JSON_stringify value st.
Proof.
  destruct value as [value|]; [|reflexivity].
  assert (Hskip : forall s0, (holdsArray (v_atoms value) && holdsArray (v_bonds value) = false) ->
                             propSync JSON_stringify (Some value) s0 = s0).
  { intros s0 H. unfold propSync.
    destruct (v_atoms value); try reflexivity.
    destruct (v_bonds value); try reflexivity. discriminate H. }
  destruct (holdsArray (v_atoms value) && holdsArray (v_bonds value)) eqn:Hv.
  2:{ now rewrite !Hskip. }
  destruct (v_atoms value) as [| |vatoms] eqn:Ea; try discriminate Hv.
  destruct (v_bonds value) as [| |vbonds] eqn:Eb; try discriminate Hv.
  assert (Hrun : forall s0,
             propSync JSON_stringify (Some value) s0 = s0
             \/ propSync JSON_stringify (Some value) s0
                = (s0 |> setAtoms vatoms |> setBonds vbonds
                      |> adopt (v_history value) setHistory
                      |> adopt (v_historyIndex value) setHistoryIndex
                      |> adopt (v_tool value) setTool
                      |> adopt (truthy (v_activeElement value)) setActiveElement
                      |> adopt (v_view value) setView)).
  { intros s0. unfold propSync. rewrite Ea, Eb.
    destruct (negb (String.eqb _ _)); [right|left]; reflexivity. }
  destruct (Hrun st) as [H1|H1]; rewrite H1.
  - exact H1.
  - destruct (Hrun (st |> setAtoms vatoms |> setBonds vbonds
                       |> adopt (v_history value) setHistory
                       |> adopt (v_historyIndex value) setHistoryIndex
                       |> adopt (v_tool value) setTool
                       |> adopt (truthy (v_activeElement value)) setActiveElement
                       |> adopt (v_view value) setView)) as [H2|H2]; rewrite H2.
    + reflexivity.
    + unfold adopt.
      destruct (v_history value), (v_historyIndex value), (v_tool value),
        (truthy (v_activeElement value)), (v_view value); state_eq.
Qed.
